(** * The binder driver core (module/new/binder.c): object registry,
      flat-object translator, transaction engine, looper controller,
      read/write dispatcher and teardown, as a shallow embedding.

    The C functions become Rocq functions over explicit state.  Pointers are
    machine addresses ([Z], 64 bits wide); a heap object that the code reaches
    through a pointer is modelled by the place it lives in (an object record
    by its node in the owning process's tree, a message queue by its entry in
    the queue store). *)

From Stdlib Require Import ZArith List Bool Lia.
From stdpp Require Import base option list gmap.
Import ListNotations.

Local Open Scope Z_scope.

(* ===================================================================== *)
(** * Part I: the model                                                    *)
(* ===================================================================== *)

(** ** Kernel constants *)

Definition EPERM  : Z := 1.
Definition EBADF  : Z := 9.
Definition EAGAIN : Z := 11.
Definition ENOMEM : Z := 12.
Definition EFAULT : Z := 14.
Definition EBUSY  : Z := 16.
Definition EINVAL : Z := 22.
Definition ENOSPC : Z := 28.

Definition NULL : Z := 0.

(** [sizeof(void * )], [sizeof(size_t)] and [sizeof(uint32_t)]. *)
Definition sizeof_ptr : Z := 8.
Definition sizeof_size_t : Z := 8.
Definition sizeof_cmd : Z := 4.

(** Conversion of an integer to [size_t] and to [unsigned int]. *)
Definition size_t (z : Z) : Z := z mod 2 ^ 64.
Definition uint (z : Z) : Z := z mod 2 ^ 32.

(** [ALIGN(n, sizeof(void * ))] of a [size_t]: the sum wraps before the low
    bits are cleared, and so does the sum of two aligned sizes. *)
Definition MSG_BUF_ALIGN (n : Z) : Z :=
  size_t (n + (sizeof_ptr - 1)) / sizeof_ptr * sizeof_ptr.
Definition MSG_BUF_SIZE (ds os : Z) : Z := size_t (MSG_BUF_ALIGN ds + MSG_BUF_ALIGN os).
Definition MAX_TRANSACTION_SIZE : Z := 4000.

Definition BINDER_LOOPER_STATE_INVALID    : Z := 0.
Definition BINDER_LOOPER_STATE_REGISTERED : Z := 1.
Definition BINDER_LOOPER_STATE_ENTERED    : Z := 2.
Definition BINDER_LOOPER_STATE_READY      : Z := 3.

Definition BINDER_EVT_OBJ_DEAD : Z := 1.

(** ** Declarations of binder.h

    binder.h is not part of the sources at hand.  Its command and type codes
    are distinct integer constants; they are modelled by the constructors of
    two enumerations, with one constructor for every other value.  What else
    the code takes from it is a parameter of the model. *)

Inductive cmd_t : Type :=
  | BC_TRANSACTION
  | BC_REPLY
  | BC_REQUEST_DEATH_NOTIFICATION
  | BC_CLEAR_DEATH_NOTIFICATION
  | BC_ENTER_LOOPER
  | BC_EXIT_LOOPER
  | BC_REGISTER_LOOPER
  | BC_DEAD_BINDER
  | BR_TRANSACTION
  | BR_REPLY
  | BR_TRANSACTION_COMPLETE
  | BR_DEAD_BINDER
  | BR_CLEAR_DEATH_NOTIFICATION_DONE
  | BR_SPAWN_LOOPER
  | BR_FAILED_REPLY
  | BR_DEAD_REPLY
  | CMD_OTHER (raw : Z).

Inductive binder_type : Type :=
  | BINDER_TYPE_BINDER
  | BINDER_TYPE_WEAK_BINDER
  | BINDER_TYPE_HANDLE
  | BINDER_TYPE_WEAK_HANDLE
  | BINDER_TYPE_OTHER (raw : Z).

#[global] Instance cmd_t_eq_dec : EqDecision cmd_t.
Proof. solve_decision. Defined.

#[global] Instance binder_type_eq_dec : EqDecision binder_type.
Proof. solve_decision. Defined.

Record binder_h : Type := {
  sizeof_transaction_data : N;      (* sizeof(struct binder_transaction_data) *)
  sizeof_flat_binder_object : N;    (* sizeof(struct flat_binder_object) *)
  TF_ONE_WAY : Z;
  BINDER_LOOPER_STATE_ACTIVE : Z
}.

(** ** Data structures *)

Record flat_binder_object : Type := {
  fb_type : binder_type;
  fb_binder : Z;
  fb_cookie : Z
}.

Record obj_id_t : Type := {
  owner : Z;        (* the owner's message queue *)
  binder : Z
}.

Record binder_notifier : Type := {
  nt_event : Z;
  nt_cookie : Z;
  nt_notify_queue : Z
}.

Record binder_obj : Type := {
  obj_id : obj_id_t;
  real_cookie : Z;
  notifiers : list binder_notifier
}.

(** The payload of a message.  The data region is seen through the
    descriptors stored in it, by byte offset; the other payload bytes are
    not interpreted by the driver. *)
Record bcmd_msg_buf : Type := {
  mb_data : gmap Z flat_binder_object;
  mb_data_size : Z;
  mb_offsets : list Z;
  mb_offsets_size : Z;
  mb_buf_size : Z
}.

Record bcmd_msg : Type := {
  msg_obj_id : obj_id_t;
  msg_type : cmd_t;
  msg_code : Z;
  msg_flags : Z;
  msg_buf : bcmd_msg_buf;
  msg_sender_pid : Z;
  msg_sender_euid : Z;
  msg_cookie : Z;
  msg_reply_queue : Z
}.

Record bcmd_transaction_data : Type := {
  td_target : Z;               (* target.handle on the way in, target.ptr out *)
  td_code : Z;
  td_flags : Z;
  td_sender_pid : Z;
  td_sender_euid : Z;
  td_data_size : Z;
  td_offsets_size : Z;
  td_buffer : Z;               (* user address of the data *)
  td_offsets : Z               (* user address of the offsets *)
}.

Record bcmd_notifier_data : Type := {
  nd_binder : Z;
  nd_cookie : Z
}.

(** [struct bcmd_notifier_data] holds two pointers. *)
Definition sizeof_notifier_data : Z := 2 * sizeof_ptr.

(** The object tree [struct rb_root obj_tree]. *)
Inductive rb_root : Type :=
  | rb_nil
  | rb_node (rb_left : rb_root) (o : binder_obj) (rb_right : rb_root).

Record binder_thread : Type := {
  th_pid : Z;
  th_queue : Z;
  th_state : Z;
  th_non_block : bool;
  th_pending_replies : Z;                      (* unsigned int *)
  th_incoming_transactions : list bcmd_msg;    (* head first *)
  th_last_error : option cmd_t                 (* None: zero *)
}.

Record binder_proc : Type := {
  pr_thread_tree : list binder_thread;         (* by increasing pid *)
  pr_obj_tree : rb_root;
  pr_queue : Z;
  pr_pid : Z;
  pr_non_block : bool;
  pr_max_threads : Z;
  pr_num_loopers : Z;
  pr_pending_loopers : Z
}.

(** Outcome of a call: it returns, or the kernel stops it (a NULL
    dereference or a [BUG_ON]), or it never leaves a loop, or it waits in a
    blocking queue read. *)
Inductive run (A : Type) : Type :=
  | Ret (a : A)
  | Oops
  | Spin
  | Sleep.
Arguments Ret {A} a.
Arguments Oops {A}.
Arguments Spin {A}.
Arguments Sleep {A}.

#[global] Instance run_ret : MRet run := fun A a => Ret a.
#[global] Instance run_bind : MBind run := fun A B k m =>
  match m with
  | Ret a => k a
  | Oops => Oops
  | Spin => Spin
  | Sleep => Sleep
  end.

(** ** Record updates *)

Definition set_fb (t : binder_type) (c : Z) (bp : flat_binder_object) : flat_binder_object :=
  {| fb_type := t; fb_binder := fb_binder bp; fb_cookie := c |}.

Definition set_real_cookie (c : Z) (o : binder_obj) : binder_obj :=
  {| obj_id := obj_id o; real_cookie := c; notifiers := notifiers o |}.

Definition set_notifiers (l : list binder_notifier) (o : binder_obj) : binder_obj :=
  {| obj_id := obj_id o; real_cookie := real_cookie o; notifiers := l |}.

Definition set_obj_tree (t : rb_root) (p : binder_proc) : binder_proc :=
  {| pr_thread_tree := pr_thread_tree p; pr_obj_tree := t; pr_queue := pr_queue p;
     pr_pid := pr_pid p; pr_non_block := pr_non_block p;
     pr_max_threads := pr_max_threads p; pr_num_loopers := pr_num_loopers p;
     pr_pending_loopers := pr_pending_loopers p |}.

Definition set_loopers (n pend : Z) (p : binder_proc) : binder_proc :=
  {| pr_thread_tree := pr_thread_tree p; pr_obj_tree := pr_obj_tree p; pr_queue := pr_queue p;
     pr_pid := pr_pid p; pr_non_block := pr_non_block p;
     pr_max_threads := pr_max_threads p; pr_num_loopers := n;
     pr_pending_loopers := pend |}.

Definition set_max_threads (n : Z) (p : binder_proc) : binder_proc :=
  {| pr_thread_tree := pr_thread_tree p; pr_obj_tree := pr_obj_tree p; pr_queue := pr_queue p;
     pr_pid := pr_pid p; pr_non_block := pr_non_block p;
     pr_max_threads := n; pr_num_loopers := pr_num_loopers p;
     pr_pending_loopers := pr_pending_loopers p |}.

Definition set_last_error (e : option cmd_t) (t : binder_thread) : binder_thread :=
  {| th_pid := th_pid t; th_queue := th_queue t; th_state := th_state t;
     th_non_block := th_non_block t; th_pending_replies := th_pending_replies t;
     th_incoming_transactions := th_incoming_transactions t; th_last_error := e |}.

Definition set_state (s : Z) (t : binder_thread) : binder_thread :=
  {| th_pid := th_pid t; th_queue := th_queue t; th_state := s;
     th_non_block := th_non_block t; th_pending_replies := th_pending_replies t;
     th_incoming_transactions := th_incoming_transactions t; th_last_error := th_last_error t |}.

Definition set_pending_replies (n : Z) (t : binder_thread) : binder_thread :=
  {| th_pid := th_pid t; th_queue := th_queue t; th_state := th_state t;
     th_non_block := th_non_block t; th_pending_replies := n;
     th_incoming_transactions := th_incoming_transactions t; th_last_error := th_last_error t |}.

Definition set_incoming (l : list bcmd_msg) (t : binder_thread) : binder_thread :=
  {| th_pid := th_pid t; th_queue := th_queue t; th_state := th_state t;
     th_non_block := th_non_block t; th_pending_replies := th_pending_replies t;
     th_incoming_transactions := l; th_last_error := th_last_error t |}.

(** ** Object registry *)

Definition OBJ_ID_INIT (o b : Z) : obj_id_t := {| owner := o; binder := b |}.

(** [sign] is a [size_t]: once non-zero it is positive. *)
Definition obj_id_cmp (a b : obj_id_t) : Z :=
  let sign := size_t (owner a - owner b) in
  if negb (sign =? 0) then (if sign >? 0 then 1 else -1)
  else
    let sign := size_t (binder a - binder b) in
    if negb (sign =? 0) then (if sign >? 0 then 1 else -1)
    else 0.

(** The descent of [_binder_find_obj]. *)
Fixpoint rb_find (t : rb_root) (id : obj_id_t) : option binder_obj :=
  match t with
  | rb_nil => None
  | rb_node l o r =>
      let c := obj_id_cmp id (obj_id o) in
      if c <? 0 then rb_find l id
      else if c >? 0 then rb_find r id
      else Some o
  end.

Definition _binder_find_obj (proc : binder_proc) (owner binder : Z) : option binder_obj :=
  rb_find (pr_obj_tree proc) (OBJ_ID_INIT owner binder).

Definition binder_find_obj (proc : binder_proc) (binder : Z) : option binder_obj :=
  _binder_find_obj proc (pr_queue proc) binder.

(** The descent of [_binder_new_obj]: the entry met on the way with an
    equal id, or the tree with the new entry linked ([rb_link_node]) at the
    slot the descent ends in. *)
Fixpoint rb_link (t : rb_root) (new_obj : binder_obj) : binder_obj + rb_root :=
  match t with
  | rb_nil => inr (rb_node rb_nil new_obj rb_nil)
  | rb_node l o r =>
      let c := obj_id_cmp (obj_id new_obj) (obj_id o) in
      if c <? 0 then
        match rb_link l new_obj with
        | inl x => inl x
        | inr l' => inr (rb_node l' o r)
        end
      else if c >? 0 then
        match rb_link r new_obj with
        | inl x => inl x
        | inr r' => inr (rb_node l o r')
        end
      else inl o
  end.

(** A store through a pointer that the descent for [id] returned. *)
Fixpoint rb_store (f : binder_obj -> binder_obj) (t : rb_root) (id : obj_id_t) : rb_root :=
  match t with
  | rb_nil => rb_nil
  | rb_node l o r =>
      let c := obj_id_cmp id (obj_id o) in
      if c <? 0 then rb_node (rb_store f l id) o r
      else if c >? 0 then rb_node l o (rb_store f r id)
      else rb_node l (f o) r
  end.

(** What a call reads from its surroundings: whether [kmalloc] gives memory,
    what [rb_insert_color] (linux/rbtree.h, outside these sources) makes of a
    tree when it recolours and rotates after a link, the caller's euid, and
    user memory.  User memory is read through typed
    views, one for each kind of object the driver copies in, by address;
    [None] is a fault.  [u_put] tells whether a store to a user address
    succeeds.  [offsets_ptr] is the address the field [offsets] of a
    message buffer holds; [binder_alloc_msg] stores nothing to the field, so
    it is whatever the memory handed out held. *)
Record environ : Type := {
  kmalloc : bool;
  offsets_ptr : Z;
  rb_insert_color : rb_root -> rb_root;
  current_euid : Z;
  u_cmd : Z -> option cmd_t;
  u_tdata : Z -> option bcmd_transaction_data;
  u_notifier : Z -> option bcmd_notifier_data;
  u_data : Z -> Z -> option (gmap Z flat_binder_object);
  u_offsets : Z -> Z -> option (list Z);
  u_put : Z -> bool
}.

Definition _binder_new_obj (env : environ) (proc : binder_proc) (owner binder : Z)
  : binder_proc * option binder_obj :=
  if negb (kmalloc env) then (proc, None)
  else
    let new_obj := {| obj_id := OBJ_ID_INIT owner binder; real_cookie := 0; notifiers := [] |} in
    match rb_link (pr_obj_tree proc) new_obj with
    | inl obj => (proc, Some obj)        (* kfree(new_obj); return obj *)
    | inr t => (set_obj_tree (rb_insert_color env t) proc, Some new_obj)
    end.

Definition binder_new_obj (env : environ) (proc : binder_proc) (binder : Z)
  : binder_proc * option binder_obj :=
  _binder_new_obj env proc (pr_queue proc) binder.

(** ** Flat-object translator *)

Definition bcmd_write_flat_obj (env : environ) (proc : binder_proc) (bp : flat_binder_object)
  : run (Z * binder_proc * flat_binder_object) :=
  let type := fb_type bp in
  match type with
  | BINDER_TYPE_BINDER | BINDER_TYPE_WEAK_BINDER =>
      '(proc, obj) ←
        match binder_find_obj proc (fb_binder bp) with
        | Some obj => Ret (proc, obj)
        | None =>
            let '(proc, obj) := binder_new_obj env proc (fb_binder bp) in
            match obj with
            | None => Oops     (* obj->real_cookie with obj == NULL *)
            | Some obj =>
                let t := rb_store (set_real_cookie (fb_cookie bp)) (pr_obj_tree proc) (obj_id obj) in
                Ret (set_obj_tree t proc, set_real_cookie (fb_cookie bp) obj)
            end
        end;
      let type' := if decide (type = BINDER_TYPE_BINDER)
                   then BINDER_TYPE_HANDLE else BINDER_TYPE_WEAK_HANDLE in
      Ret (0, proc, set_fb type' (owner (obj_id obj)) bp)
  | BINDER_TYPE_HANDLE | BINDER_TYPE_WEAK_HANDLE =>
      match _binder_find_obj proc (fb_cookie bp) (fb_binder bp) with
      | None => Ret (- EINVAL, proc, bp)
      | Some _ => Ret (0, proc, bp)
      end
  | BINDER_TYPE_OTHER _ => Ret (- EINVAL, proc, bp)
  end.

Definition bcmd_read_flat_obj (env : environ) (proc : binder_proc) (bp : flat_binder_object)
  : Z * binder_proc * flat_binder_object :=
  let type := fb_type bp in
  match type with
  | BINDER_TYPE_HANDLE | BINDER_TYPE_WEAK_HANDLE =>
      match _binder_find_obj proc (fb_cookie bp) (fb_binder bp) with
      | Some obj =>
          if fb_cookie bp =? pr_queue proc then
            let type' := if decide (type = BINDER_TYPE_HANDLE)
                         then BINDER_TYPE_BINDER else BINDER_TYPE_WEAK_BINDER in
            (0, proc, set_fb type' (real_cookie obj) bp)
          else (0, proc, bp)
      | None =>
          let '(proc', obj) := _binder_new_obj env proc (fb_cookie bp) (fb_binder bp) in
          match obj with
          | None => (- ENOMEM, proc', bp)
          | Some _ => (0, proc', bp)
          end
      end
  | BINDER_TYPE_BINDER | BINDER_TYPE_WEAK_BINDER | BINDER_TYPE_OTHER _ => (- EFAULT, proc, bp)
  end.

(** ** Message queues

    Modelled from the spec: msg_queue.h and its implementation are not part
    of the sources at hand.  A queue is a FIFO of entries with a closed flag
    and the blocking mode it was created with.  [write] and [write_head]
    insert at the tail and at the head, return zero, and fail once the queue
    is closed; [read] takes the head entry and returns zero, and on an empty
    queue reports that the queue is closed, or that nothing is there in
    non-blocking mode, or waits; [get] fails when the address names no
    queue; destroying a queue closes it and hands every residual entry to
    the [on_drop] function it was created with. *)

Record msg_queue : Type := {
  q_entries : list bcmd_msg;
  q_closed : bool;
  q_non_block : bool
}.

Definition set_entries (l : list bcmd_msg) (q : msg_queue) : msg_queue :=
  {| q_entries := l; q_closed := q_closed q; q_non_block := q_non_block q |}.

Definition create_msg_queue (non_block : bool) : msg_queue :=
  {| q_entries := []; q_closed := false; q_non_block := non_block |}.

Definition get_msg_queue (qs : gmap Z msg_queue) (q : Z) : Z :=
  match qs !! q with
  | Some _ => 0
  | None => - EFAULT
  end.

Definition write_msg_queue (qs : gmap Z msg_queue) (q : Z) (msg : bcmd_msg)
  : Z * gmap Z msg_queue :=
  match qs !! q with
  | Some mq =>
      if q_closed mq then (- EBADF, qs)
      else (0, <[q := set_entries (q_entries mq ++ [msg]) mq]> qs)
  | None => (- EBADF, qs)
  end.

Definition write_msg_queue_head (qs : gmap Z msg_queue) (q : Z) (msg : bcmd_msg)
  : Z * gmap Z msg_queue :=
  match qs !! q with
  | Some mq =>
      if q_closed mq then (- EBADF, qs)
      else (0, <[q := set_entries (msg :: q_entries mq) mq]> qs)
  | None => (- EBADF, qs)
  end.

Definition read_msg_queue (qs : gmap Z msg_queue) (q : Z)
  : run (Z * option bcmd_msg * gmap Z msg_queue) :=
  match qs !! q with
  | Some mq =>
      match q_entries mq with
      | msg :: rest => Ret (0, Some msg, <[q := set_entries rest mq]> qs)
      | [] =>
          if q_closed mq then Ret (- EBADF, None, qs)
          else if q_non_block mq then Ret (- EAGAIN, None, qs)
          else Sleep
      end
  | None => Ret (- EBADF, None, qs)
  end.

Definition msg_queue_size (qs : gmap Z msg_queue) (q : Z) : Z :=
  match qs !! q with
  | Some mq => Z.of_nat (length (q_entries mq))
  | None => 0
  end.

Definition msg_queue_empty (qs : gmap Z msg_queue) (q : Z) : bool :=
  match qs !! q with
  | Some mq => match q_entries mq with [] => true | _ => false end
  | None => true
  end.

Fixpoint drop_entries (on_drop : gmap Z msg_queue -> bcmd_msg -> run (gmap Z msg_queue))
    (qs : gmap Z msg_queue) (l : list bcmd_msg) : run (gmap Z msg_queue) :=
  match l with
  | [] => Ret qs
  | msg :: rest => qs' ← on_drop qs msg; drop_entries on_drop qs' rest
  end.

Definition free_msg_queue (on_drop : gmap Z msg_queue -> bcmd_msg -> run (gmap Z msg_queue))
    (qs : gmap Z msg_queue) (q : Z) : run (gmap Z msg_queue) :=
  match qs !! q with
  | Some mq =>
      drop_entries on_drop
        (<[q := {| q_entries := []; q_closed := true; q_non_block := q_non_block mq |}]> qs)
        (q_entries mq)
  | None => Ret qs
  end.

(** ** Queue access of the driver *)

(** used by the queue owner *)
Definition _bcmd_read_msg (qs : gmap Z msg_queue) (q : Z)
  : run (Z * option bcmd_msg * gmap Z msg_queue) :=
  read_msg_queue qs q.

(** used by any process *)
Definition bcmd_read_msg (qs : gmap Z msg_queue) (q : Z)
  : run (Z * option bcmd_msg * gmap Z msg_queue) :=
  if get_msg_queue qs q <? 0 then Ret (- EFAULT, None, qs)
  else _bcmd_read_msg qs q.

Definition _bcmd_write_msg (qs : gmap Z msg_queue) (q : Z) (msg : bcmd_msg)
  : Z * gmap Z msg_queue :=
  write_msg_queue qs q msg.

Definition bcmd_write_msg (qs : gmap Z msg_queue) (q : Z) (msg : bcmd_msg)
  : Z * gmap Z msg_queue :=
  if get_msg_queue qs q <? 0 then (- EFAULT, qs)
  else _bcmd_write_msg qs q msg.

Definition _bcmd_write_msg_head (qs : gmap Z msg_queue) (q : Z) (msg : bcmd_msg)
  : Z * gmap Z msg_queue :=
  write_msg_queue_head qs q msg.

Definition bcmd_write_msg_head (qs : gmap Z msg_queue) (q : Z) (msg : bcmd_msg)
  : Z * gmap Z msg_queue :=
  if get_msg_queue qs q <? 0 then (- EFAULT, qs)
  else _bcmd_write_msg_head qs q msg.

(** The result is a [size_t]. *)
Definition bcmd_msg_queue_size (qs : gmap Z msg_queue) (q : Z) : Z :=
  if get_msg_queue qs q <? 0 then size_t (- EFAULT)
  else size_t (msg_queue_size qs q).

Definition set_msg_type (t : cmd_t) (m : bcmd_msg) : bcmd_msg :=
  {| msg_obj_id := msg_obj_id m; msg_type := t; msg_code := msg_code m;
     msg_flags := msg_flags m; msg_buf := msg_buf m; msg_sender_pid := msg_sender_pid m;
     msg_sender_euid := msg_sender_euid m; msg_cookie := msg_cookie m;
     msg_reply_queue := msg_reply_queue m |}.

Definition set_msg_buf (b : bcmd_msg_buf) (m : bcmd_msg) : bcmd_msg :=
  {| msg_obj_id := msg_obj_id m; msg_type := msg_type m; msg_code := msg_code m;
     msg_flags := msg_flags m; msg_buf := b; msg_sender_pid := msg_sender_pid m;
     msg_sender_euid := msg_sender_euid m; msg_cookie := msg_cookie m;
     msg_reply_queue := msg_reply_queue m |}.

(** The [on_drop] function of every queue the driver creates. *)
Definition free_queued_msg (qs : gmap Z msg_queue) (msg : bcmd_msg) : run (gmap Z msg_queue) :=
  if decide (msg_type msg = BC_TRANSACTION) then
    if msg_reply_queue msg =? NULL then Oops      (* BUG_ON(!msg->reply_queue) *)
    else
      let msg := set_msg_type BC_DEAD_BINDER msg in
      let '(r, qs') := bcmd_write_msg qs (msg_reply_queue msg) msg in
      Ret qs'
  else Ret qs.

(** ** Message allocation *)

(** What [kmalloc] hands out is not initialised; the fields nobody stores to
    read as zero. *)
Definition blank_buf (data_size offsets_size buf_size : Z) : bcmd_msg_buf :=
  {| mb_data := ∅; mb_data_size := data_size; mb_offsets := [];
     mb_offsets_size := offsets_size; mb_buf_size := buf_size |}.

Definition blank_msg (buf : bcmd_msg_buf) : bcmd_msg :=
  {| msg_obj_id := OBJ_ID_INIT NULL NULL; msg_type := CMD_OTHER 0; msg_code := 0;
     msg_flags := 0; msg_buf := buf; msg_sender_pid := 0; msg_sender_euid := 0;
     msg_cookie := 0; msg_reply_queue := NULL |}.

(** The NULL test of [binder_alloc_msg] names [p]; it is read as the test of
    the pointer [kmalloc] returned. *)
Definition binder_alloc_msg (env : environ) (data_size offsets_size : Z) : option bcmd_msg :=
  let buf_size := MSG_BUF_SIZE data_size offsets_size in
  if negb (kmalloc env) then None
  else Some (blank_msg (blank_buf data_size offsets_size buf_size)).

Definition binder_realloc_msg (env : environ) (msg : bcmd_msg) (data_size offsets_size : Z)
  : option bcmd_msg :=
  let buf := msg_buf msg in
  let buf_size := MSG_BUF_SIZE data_size offsets_size in
  if mb_buf_size buf >=? buf_size then
    Some (set_msg_buf {| mb_data := mb_data buf; mb_data_size := data_size;
                         mb_offsets := mb_offsets buf; mb_offsets_size := offsets_size;
                         mb_buf_size := mb_buf_size buf |} msg)
  else binder_alloc_msg env data_size offsets_size.

(** ** State of a call into the driver *)

Inductive uwrite : Type :=
  | put_cmd (addr : Z) (cmd : cmd_t)
  | put_tdata (addr : Z) (tdata : bcmd_transaction_data)
  | put_data (addr : Z) (data : gmap Z flat_binder_object) (size : Z).

Record state : Type := {
  queues : gmap Z msg_queue;
  context_mgr_obj : option binder_obj;
  context_mgr_uid : Z;                    (* uid_t *)
  proc : binder_proc;
  thread : binder_thread;
  user_out : list uwrite                  (* stores to user memory, oldest first *)
}.

Definition set_queues (qs : gmap Z msg_queue) (s : state) : state :=
  {| queues := qs; context_mgr_obj := context_mgr_obj s; context_mgr_uid := context_mgr_uid s;
     proc := proc s; thread := thread s; user_out := user_out s |}.

Definition set_proc (p : binder_proc) (s : state) : state :=
  {| queues := queues s; context_mgr_obj := context_mgr_obj s; context_mgr_uid := context_mgr_uid s;
     proc := p; thread := thread s; user_out := user_out s |}.

Definition set_thread (t : binder_thread) (s : state) : state :=
  {| queues := queues s; context_mgr_obj := context_mgr_obj s; context_mgr_uid := context_mgr_uid s;
     proc := proc s; thread := t; user_out := user_out s |}.

Definition set_context_mgr (o : option binder_obj) (uid : Z) (s : state) : state :=
  {| queues := queues s; context_mgr_obj := o; context_mgr_uid := uid;
     proc := proc s; thread := thread s; user_out := user_out s |}.

Definition add_out (w : uwrite) (s : state) : state :=
  {| queues := queues s; context_mgr_obj := context_mgr_obj s; context_mgr_uid := context_mgr_uid s;
     proc := proc s; thread := thread s; user_out := user_out s ++ [w] |}.

(** The descriptor at a byte offset of the data region; bytes that hold no
    descriptor read as one of no known type. *)
Definition flat_at (data : gmap Z flat_binder_object) (off : Z) : flat_binder_object :=
  default {| fb_type := BINDER_TYPE_OTHER 0; fb_binder := 0; fb_cookie := 0 |} (data !! off).

Section Driver.

(** The declarations taken from binder.h, and the number of rounds for which
    the model follows a loop whose condition no round changes. *)
Variable bh : binder_h.
Variable fuel : nat.

Definition sizeof_tdata : Z := Z.of_N (sizeof_transaction_data bh).
Definition sizeof_flat : Z := Z.of_N (sizeof_flat_binder_object bh).

(** ** Transaction engine: the write side *)

(** The loop of [bcmd_write_msg_buf]: [p] is never advanced, so every round
    translates the descriptor the first offset names. *)
Fixpoint write_msg_buf_loop (n : nat) (env : environ) (proc : binder_proc) (buf : bcmd_msg_buf)
  : run (Z * binder_proc * bcmd_msg_buf) :=
  if negb (0 <? mb_offsets_size buf) then Ret (0, proc, buf)      (* p < ep *)
  else
    match n with
    | O => Spin
    | S n' =>
        let off := hd 0 (mb_offsets buf) in
        if size_t (off + sizeof_flat) >? mb_data_size buf then Ret (- EFAULT, proc, buf)
        else
          '(r, proc', bp) ← bcmd_write_flat_obj env proc (flat_at (mb_data buf) off);
          let buf' := {| mb_data := <[off := bp]> (mb_data buf); mb_data_size := mb_data_size buf;
                         mb_offsets := mb_offsets buf; mb_offsets_size := mb_offsets_size buf;
                         mb_buf_size := mb_buf_size buf |} in
          if r <? 0 then Ret (r, proc', buf')
          else write_msg_buf_loop n' env proc' buf'
    end.

Definition bcmd_write_msg_buf (env : environ) (proc : binder_proc) (buf : bcmd_msg_buf)
    (tdata : bcmd_transaction_data) : run (Z * binder_proc * bcmd_msg_buf) :=
  match u_data env (td_buffer tdata) (mb_data_size buf) with
  | None => Ret (- EFAULT, proc, buf)
  | Some data =>
      let buf := {| mb_data := data; mb_data_size := mb_data_size buf;
                    mb_offsets := mb_offsets buf; mb_offsets_size := mb_offsets_size buf;
                    mb_buf_size := mb_buf_size buf |} in
      match u_offsets env (td_offsets tdata) (mb_offsets_size buf) with
      | None => Ret (- EFAULT, proc, buf)
      | Some offs =>
          let buf := {| mb_data := mb_data buf; mb_data_size := mb_data_size buf;
                        mb_offsets := offs; mb_offsets_size := mb_offsets_size buf;
                        mb_buf_size := mb_buf_size buf |} in
          write_msg_buf_loop fuel env proc buf
      end
  end.

Definition one_way (flags : Z) : bool := negb (Z.land flags (TF_ONE_WAY bh) =? 0).

(** The exits [failed_...]: latch the error and return -1. *)
Definition failed (err : cmd_t) (s : state) : run (Z * state) :=
  Ret (-1, set_thread (set_last_error (Some err) (thread s)) s).

Definition fill_msg (env : environ) (s : state) (tdata : bcmd_transaction_data) (bcmd : cmd_t)
    (id : obj_id_t) (msg : bcmd_msg) : bcmd_msg :=
  {| msg_obj_id := id; msg_type := bcmd; msg_code := td_code tdata;
     msg_flags := td_flags tdata; msg_buf := msg_buf msg;
     msg_sender_pid := pr_pid (proc s); msg_sender_euid := current_euid env;
     msg_cookie := msg_cookie msg;
     msg_reply_queue := if one_way (td_flags tdata) then NULL else th_queue (thread s) |}.

(** From the load of the payload to the end of [bcmd_write_transaction];
    [obj] is the target the first half resolved. *)
Definition write_transaction_send (env : environ) (s : state) (tdata : bcmd_transaction_data)
    (bcmd : cmd_t) (obj : binder_obj) (q : Z) (msg : bcmd_msg) : run (Z * state) :=
  '(loaded, s, msg) ←
    (if td_data_size tdata >? 0 then
       '(r, proc', buf') ← bcmd_write_msg_buf env (proc s) (msg_buf msg) tdata;
       Ret (negb (r =? 0), set_proc proc' s, set_msg_buf buf' msg)
     else Ret (true, s, msg));
  if negb loaded then failed BR_FAILED_REPLY s         (* if (!bcmd_write_msg_buf(...)) *)
  else
    let '(r, qs) := bcmd_write_msg (queues s) q msg in
    let s := set_queues qs s in
    if r <? 0 then failed BR_DEAD_REPLY s       (* kfree(msg), and again at failed_write *)
    else
      let s :=
        if bool_decide (bcmd = BC_TRANSACTION) && negb (one_way (td_flags tdata))
        then set_thread (set_pending_replies (uint (th_pending_replies (thread s) + 1)) (thread s)) s
        else s in
      match binder_alloc_msg env 0 0 with
      | None => failed BR_FAILED_REPLY s
      | Some ack =>
          let ack := {| msg_obj_id := obj_id obj; msg_type := BR_TRANSACTION_COMPLETE;
                        msg_code := td_code tdata; msg_flags := td_flags tdata;
                        msg_buf := msg_buf ack; msg_sender_pid := msg_sender_pid ack;
                        msg_sender_euid := msg_sender_euid ack; msg_cookie := msg_cookie ack;
                        msg_reply_queue := msg_reply_queue ack |} in
          let '(r, qs) := _bcmd_write_msg (queues s) (th_queue (thread s)) ack in
          if r <? 0 then failed BR_FAILED_REPLY (set_queues qs s)
          else Ret (0, set_queues qs s)
      end.

Definition bcmd_write_transaction (env : environ) (s : state) (tdata : bcmd_transaction_data)
    (bcmd : cmd_t) : run (Z * state) :=
  if decide (bcmd = BC_TRANSACTION) then
    let binder := td_target tdata in
    let obj := if binder =? NULL then context_mgr_obj s
               else binder_find_obj (proc s) binder in
    match obj with
    | None => failed BR_FAILED_REPLY s
    | Some obj =>
        let q := owner (obj_id obj) in
        match binder_alloc_msg env (td_data_size tdata) (td_offsets_size tdata) with
        | None => failed BR_FAILED_REPLY s
        | Some msg =>
            write_transaction_send env s tdata bcmd obj q
              (fill_msg env s tdata bcmd (obj_id obj) msg)
        end
    end
  else
    match th_incoming_transactions (thread s) with
    | [] => failed BR_FAILED_REPLY s
    | msg :: rest =>
        let s := set_thread (set_incoming rest (thread s)) s in
        let q := msg_reply_queue msg in
        match binder_realloc_msg env msg (td_data_size tdata) (td_offsets_size tdata) with
        | None => failed BR_FAILED_REPLY s
        | Some msg => Oops      (* obj_id_init(&msg->obj_id, NULL, NULL) reads NULL->queue *)
        end
    end.

Definition bcmd_write_notifier (env : environ) (s : state) (notifier : bcmd_notifier_data)
    (bcmd : cmd_t) : run (Z * state) :=
  match binder_find_obj (proc s) (nd_binder notifier) with
  | None => failed BR_FAILED_REPLY s
  | Some obj =>
      match binder_alloc_msg env 0 0 with
      | None => failed BR_FAILED_REPLY s
      | Some msg =>
          let msg := {| msg_obj_id := obj_id obj; msg_type := bcmd; msg_code := msg_code msg;
                        msg_flags := msg_flags msg; msg_buf := msg_buf msg;
                        msg_sender_pid := msg_sender_pid msg;
                        msg_sender_euid := msg_sender_euid msg;
                        msg_cookie := nd_cookie notifier;
                        msg_reply_queue := pr_queue (proc s) |} in
          let '(r, qs) := bcmd_write_msg (queues s) (owner (obj_id obj)) msg in
          if r <? 0 then failed BR_DEAD_REPLY (set_queues qs s)
          else Ret (0, set_queues qs s)
      end
  end.

(** ** Looper controller *)

Definition looper_active (st : Z) : bool :=
  negb (Z.land st (BINDER_LOOPER_STATE_ACTIVE bh) =? 0).

Definition bcmd_write_looper (s : state) (bcmd : cmd_t) : run (Z * state) :=
  let st := th_state (thread s) in
  let '(err, st', num_loopers, pending_loopers) :=
    match bcmd with
    | BC_ENTER_LOOPER =>
        if looper_active st then (Some BR_FAILED_REPLY, st, 0, 0)
        else (None, Z.lor st BINDER_LOOPER_STATE_ENTERED, 1, 0)
    | BC_EXIT_LOOPER =>
        if negb (Z.land st BINDER_LOOPER_STATE_ENTERED =? 0)
        then (None, Z.land st (Z.lnot (BINDER_LOOPER_STATE_ACTIVE bh)), -1, 0)
        else (Some BR_FAILED_REPLY, st, 0, 0)
    | BC_REGISTER_LOOPER =>
        if looper_active st then (Some BR_FAILED_REPLY, st, 0, 0)
        else (None, st, 0, -1)
    | _ => (Some BR_FAILED_REPLY, st, 0, 0)
    end in
  let s := set_thread (set_state st' (thread s)) s in
  match err with
  | Some e => Ret (-1, set_thread (set_last_error (Some e) (thread s)) s)
  | None =>
      if negb (num_loopers =? 0) || negb (pending_loopers =? 0) then
        Ret (0, set_proc (set_loopers (pr_num_loopers (proc s) + num_loopers)
                                      (pr_pending_loopers (proc s) + pending_loopers)
                                      (proc s)) s)
      else Ret (0, s)
  end.

(** ** Write dispatcher *)

(** One command of the write stream at [p]: the new position and the value
    added to [err], or the value [binder_thread_write] returns at once. *)
Definition write_one (env : environ) (s : state) (p ep : Z)
  : run ((Z * Z + Z) * state) :=
  match u_cmd env p with
  | None => Ret (inr (- EFAULT), s)
  | Some bcmd =>
      let p := p + sizeof_cmd in
      match bcmd with
      | BC_TRANSACTION | BC_REPLY =>
          if p + sizeof_tdata >? ep then Ret (inr (- EFAULT), s)
          else
            match u_tdata env p with
            | None => Ret (inr (- EFAULT), s)
            | Some tdata =>
                let p := p + sizeof_tdata in
                let objs_size :=
                  size_t (td_offsets_size tdata / sizeof_size_t * sizeof_flat) in
                if (td_data_size tdata >? 0)
                   && ((size_t (objs_size + td_offsets_size tdata) >? td_data_size tdata)
                       || (td_data_size tdata >? MAX_TRANSACTION_SIZE))
                then Ret (inr (- EINVAL), s)
                else
                  '(r, s) ← bcmd_write_transaction env s tdata bcmd;
                  Ret (inl (p, r), s)
            end
      | BC_REQUEST_DEATH_NOTIFICATION | BC_CLEAR_DEATH_NOTIFICATION =>
          if p + sizeof_notifier_data >? ep then Ret (inr (- EFAULT), s)
          else
            match u_notifier env p with
            | None => Ret (inr (- EFAULT), s)
            | Some notifier =>
                let p := p + sizeof_notifier_data in
                '(r, s) ← bcmd_write_notifier env s notifier bcmd;
                Ret (inl (p, r), s)
            end
      | BC_ENTER_LOOPER | BC_EXIT_LOOPER | BC_REGISTER_LOOPER =>
          '(r, s) ← bcmd_write_looper s bcmd;
          Ret (inl (p, r), s)
      | _ => Ret (inr (- EINVAL), s)
      end
  end.

(** The loop of [binder_thread_write].  Every round moves [p] forward by a
    command word at least, so [n] rounds are enough once [n] reaches the
    length of the buffer.  [p] and [ep] are followed as addresses of a buffer
    that lies inside the address space: the sum of a pointer and a size is
    not reduced modulo 2^64 here, and what is said of the return value of
    [binder_thread_write] takes the buffer to lie there. *)
Fixpoint write_loop (n : nat) (env : environ) (s : state) (buf p ep err : Z)
  : run (Z * state) :=
  if negb (p + sizeof_cmd <? ep) then Ret (p - buf, s)
  else
    match n with
    | O => Spin
    | S n' =>
        '(r, s) ← write_one env s p ep;
        match r with
        | inr e => Ret (e, s)
        | inl (p', e) => write_loop n' env s buf p' ep (err + e)
        end
    end.

Definition binder_thread_write (env : environ) (s : state) (buf size : Z) : run (Z * state) :=
  write_loop (Z.to_nat size) env s buf buf (buf + size) 0.

(** ** Transaction engine: the read side *)

(** The loop of [bcmd_read_transaction]; here again [p] stays where it is.
    [p] is the pointer the field [offsets] holds and [ep] that pointer moved
    on by [offsets_size] bytes, a sum that wraps. *)
Definition offsets_end (env : environ) (mbuf : bcmd_msg_buf) : Z :=
  size_t (offsets_ptr env + mb_offsets_size mbuf).

Fixpoint read_msg_buf_loop (n : nat) (env : environ) (proc : binder_proc) (mbuf : bcmd_msg_buf)
  : run (Z * binder_proc * bcmd_msg_buf) :=
  if negb (offsets_ptr env <? offsets_end env mbuf) then Ret (0, proc, mbuf)    (* p < ep *)
  else
    match n with
    | O => Spin
    | S n' =>
        let off := hd 0 (mb_offsets mbuf) in
        let '(r, proc', bp) := bcmd_read_flat_obj env proc (flat_at (mb_data mbuf) off) in
        let mbuf' := {| mb_data := <[off := bp]> (mb_data mbuf);
                        mb_data_size := mb_data_size mbuf;
                        mb_offsets := mb_offsets mbuf; mb_offsets_size := mb_offsets_size mbuf;
                        mb_buf_size := mb_buf_size mbuf |} in
        if r <? 0 then Ret (r, proc', mbuf')
        else read_msg_buf_loop n' env proc' mbuf'
    end.

(** A store to user memory: zero and the store recorded, or non-zero. *)
Definition put_user (env : environ) (w : uwrite) (addr : Z) (s : state) : bool * state :=
  if u_put env addr then (false, add_out w s) else (true, s).

(** The handlers of the read side return their value, what they leave in
    [*pmsg], and the state. *)
Definition bcmd_read_transaction (env : environ) (s : state) (msg : bcmd_msg) (buf size : Z)
  : run (Z * option bcmd_msg * state) :=
  let mbuf := msg_buf msg in
  let cmd := if decide (msg_type msg = BC_TRANSACTION) then BR_TRANSACTION else BR_REPLY in
  let data_off := MSG_BUF_ALIGN (sizeof_cmd + sizeof_tdata) in
  let data_size := mb_data_size mbuf in
  if size_t (data_off + data_size) >? size then Ret (- ENOSPC, Some msg, s)
  else
    let data_buf := buf + data_off in
    let tdata := {| td_target := binder (msg_obj_id msg); td_code := msg_code msg;
                    td_flags := msg_flags msg; td_sender_pid := msg_sender_pid msg;
                    td_sender_euid := msg_sender_euid msg;
                    td_data_size := mb_data_size mbuf;
                    td_offsets_size := mb_offsets_size mbuf;
                    td_buffer := data_buf;
                    td_offsets := data_buf + MSG_BUF_ALIGN (mb_data_size mbuf) |} in
    '(r, proc', mbuf') ← read_msg_buf_loop fuel env (proc s) mbuf;
    let s := set_proc proc' s in
    let msg := set_msg_buf mbuf' msg in
    if r <? 0 then Ret (r, Some msg, s)
    else
      let '(f1, s) := put_user env (put_cmd buf cmd) buf s in
      if f1 then Ret (- EFAULT, Some msg, s)
      else
        let '(f2, s) := put_user env (put_tdata (buf + sizeof_cmd) tdata) (buf + sizeof_cmd) s in
        if f2 then Ret (- EFAULT, Some msg, s)
        else
          let '(f3, s) := put_user env (put_data data_buf (mb_data mbuf') (mb_data_size mbuf'))
                            data_buf s in
          if f3 then Ret (- EFAULT, Some msg, s)
          else
            let t := thread s in
            let t :=
              if decide (msg_type msg = BC_TRANSACTION) then
                if negb (one_way (msg_flags msg))
                then set_incoming (msg :: th_incoming_transactions t) t
                else t
              else
                if th_pending_replies t >? 0
                then set_pending_replies (th_pending_replies t - 1) t
                else t in
            Ret (size_t (data_off + data_size), None, set_thread t s).

(** ** Notifier engine: the owner's side *)

Definition notifier_matches (msg : bcmd_msg) (n : binder_notifier) : bool :=
  (nt_event n =? BINDER_EVT_OBJ_DEAD) && (nt_cookie n =? msg_cookie msg)
  && (nt_notify_queue n =? msg_reply_queue msg).

(** The list walk of the clear request: the list without its first match. *)
Fixpoint list_del_first (f : binder_notifier -> bool) (l : list binder_notifier)
  : option (list binder_notifier) :=
  match l with
  | [] => None
  | n :: rest =>
      if f n then Some rest
      else match list_del_first f rest with
           | Some rest' => Some (n :: rest')
           | None => None
           end
  end.

Definition bcmd_read_notifier (env : environ) (s : state) (msg : bcmd_msg) (buf size : Z)
  : run (Z * option bcmd_msg * state) :=
  let id := OBJ_ID_INIT (pr_queue (proc s)) (binder (msg_obj_id msg)) in
  match _binder_find_obj (proc s) (pr_queue (proc s)) (binder (msg_obj_id msg)) with
  | None => Ret (- EFAULT, Some msg, s)
  | Some obj =>
      if decide (msg_type msg = BC_REQUEST_DEATH_NOTIFICATION) then
        if negb (kmalloc env) then Ret (- ENOMEM, Some msg, s)
        else
          let notifier := {| nt_event := BINDER_EVT_OBJ_DEAD; nt_cookie := msg_cookie msg;
                             nt_notify_queue := msg_reply_queue msg |} in
          let t := rb_store (fun o => set_notifiers (notifiers o ++ [notifier]) o)
                            (pr_obj_tree (proc s)) id in
          Ret (0, None, set_proc (set_obj_tree t (proc s)) s)
      else
        if size <? sizeof_cmd then Ret (- ENOSPC, Some msg, s)
        else
          match list_del_first (notifier_matches msg) (notifiers obj) with
          | Some rest =>
              let t := rb_store (set_notifiers rest) (pr_obj_tree (proc s)) id in
              let s := set_proc (set_obj_tree t (proc s)) s in
              let '(f, s) := put_user env (put_cmd buf BR_CLEAR_DEATH_NOTIFICATION_DONE) buf s in
              if f then Ret (- EFAULT, Some msg, s)
              else Ret (sizeof_cmd, None, s)
          | None => Ret (0, None, s)
          end
  end.

Definition bcmd_read_dead_binder (env : environ) (s : state) (msg : bcmd_msg) (buf size : Z)
  : run (Z * option bcmd_msg * state) :=
  if size <? sizeof_cmd then Ret (- ENOSPC, Some msg, s)
  else
    let '(f, s) := put_user env (put_cmd buf BR_DEAD_BINDER) buf s in
    if f then Ret (- EFAULT, Some msg, s)
    else Ret (sizeof_cmd, None, s).

(** ** Spawn policy *)

Definition set_pending_loopers (n : Z) (p : binder_proc) : binder_proc :=
  set_loopers (pr_num_loopers p) n p.

Definition bcmd_spawn_on_busy (env : environ) (s : state) (buf size : Z) : Z * state :=
  if size <? sizeof_cmd then (0, s)
  else
    let n := bcmd_msg_queue_size (queues s) (pr_queue (proc s)) in
    if n <? 0 then (n, s)
    else if n >? 1 then
      if pr_num_loopers (proc s) + pr_pending_loopers (proc s) <? pr_max_threads (proc s) then
        let '(f, s) := put_user env (put_cmd buf BR_SPAWN_LOOPER) buf s in
        if f then (- EFAULT, s)
        else (sizeof_cmd,
              set_proc (set_pending_loopers (pr_pending_loopers (proc s) + 1) (proc s)) s)
      else (sizeof_cmd, s)
    else (0, s).

(** ** Read dispatcher *)

(** The test at the head of the read loop: the thread's own queue, or the
    queue of the process. *)
Definition read_from_thread (s : state) : bool :=
  negb (msg_queue_empty (queues s) (th_queue (thread s)))
  || negb (th_pending_replies (thread s) =? 0).

Definition read_queue (s : state) : Z :=
  if read_from_thread s then th_queue (thread s) else pr_queue (proc s).

Definition read_next (s : state) : run (Z * option bcmd_msg * gmap Z msg_queue) :=
  if read_from_thread s then _bcmd_read_msg (queues s) (th_queue (thread s))
  else bcmd_read_msg (queues s) (pr_queue (proc s)).

(** The switch on the type of the message read: what a handler returns, or
    the value the default case makes [binder_thread_read] return. *)
Definition read_dispatch (env : environ) (s : state) (msg : bcmd_msg) (p size : Z)
  : run ((Z * option bcmd_msg + Z) * state) :=
  match msg_type msg with
  | BC_TRANSACTION | BC_REPLY =>
      '(n, pmsg, s) ← bcmd_read_transaction env s msg p size; Ret (inl (n, pmsg), s)
  | BC_REQUEST_DEATH_NOTIFICATION | BC_CLEAR_DEATH_NOTIFICATION =>
      '(n, pmsg, s) ← bcmd_read_notifier env s msg p size; Ret (inl (n, pmsg), s)
  | BR_DEAD_BINDER =>
      '(n, pmsg, s) ← bcmd_read_dead_binder env s msg p size; Ret (inl (n, pmsg), s)
  | _ => Ret (inr (- EFAULT), s)                   (* kfree(msg); return -EFAULT *)
  end.

(** One round of the loop of [binder_thread_read]: the loop goes on with a
    new position and room, or [binder_thread_read] returns. *)
Inductive round_result : Type :=
  | round_continue (s : state) (p size : Z)
  | round_return (r : Z) (s : state).

Definition read_round (env : environ) (s : state) (buf p size : Z) : run round_result :=
  let q := read_queue s in
  '(r, msg, qs) ← read_next s;
  let s := set_queues qs s in
  if r <? 0 then Ret (round_return r s)
  else
    match msg with
    | None => Oops
    | Some msg =>
        '(x, s) ← read_dispatch env s msg p size;
        match x with
        | inr e => Ret (round_return e s)
        | inl (n, pmsg) =>
            if n >? 0 then Ret (round_continue s (p + n) (size - n))
            else if n <? 0 then
              if n =? - ENOSPC then      (* break, then return (p - buf) *)
                match pmsg with
                | Some msg =>            (* put msg back to the queue *)
                    let '(_, qs) :=
                      if q =? th_queue (thread s)
                      then _bcmd_write_msg_head (queues s) q msg
                      else bcmd_write_msg_head (queues s) q msg in
                    Ret (round_return (p - buf) (set_queues qs s))
                | None => Ret (round_return (p - buf) s)
                end
              else Ret (round_return n s)
            else Ret (round_continue s p size)
        end
    end.

(** The loop of [binder_thread_read]; a round that goes on has taken a
    message off one of the two queues. *)
Fixpoint read_loop (n : nat) (env : environ) (s : state) (buf p size : Z) : run (Z * state) :=
  if negb (size >=? sizeof_cmd) then Ret (p - buf, s)
  else
    match n with
    | O => Spin
    | S n' =>
        x ← read_round env s buf p size;
        match x with
        | round_continue s p size => read_loop n' env s buf p size
        | round_return r s => Ret (r, s)
        end
    end.

Definition read_rounds (s : state) : nat :=
  S (Z.to_nat (msg_queue_size (queues s) (th_queue (thread s)))
     + Z.to_nat (msg_queue_size (queues s) (pr_queue (proc s)))).

Definition binder_thread_read (env : environ) (s : state) (buf size : Z) : run (Z * state) :=
  let '(n, s) := bcmd_spawn_on_busy env s buf size in
  if n >? 0 then read_loop (read_rounds s) env s buf (buf + n) (size - n)
  else if n <? 0 then Ret (n, s)
  else read_loop (read_rounds s) env s buf buf size.

(** ** ioctl commands *)

Record binder_write_read : Type := {
  write_size : Z;
  write_consumed : Z;
  write_buffer : Z;
  read_size : Z;
  read_consumed : Z;
  read_buffer : Z
}.

Definition cmd_write_read (env : environ) (s : state) (bwr : binder_write_read)
  : run (Z * state * binder_write_read) :=
  '(r, s, bwr) ←
    (if write_size bwr >? 0 then
       '(r, s) ← binder_thread_write env s (write_buffer bwr + write_consumed bwr) (write_size bwr);
       if r <? 0 then Ret (r, s, bwr)
       else Ret (0, s, {| write_size := write_size bwr; write_consumed := write_consumed bwr + r;
                          write_buffer := write_buffer bwr; read_size := read_size bwr;
                          read_consumed := read_consumed bwr; read_buffer := read_buffer bwr |})
     else Ret (0, s, bwr));
  if r <? 0 then Ret (r, s, bwr)
  else if read_size bwr >? 0 then
    '(r, s) ← binder_thread_read env s (read_buffer bwr + read_consumed bwr) (read_size bwr);
    if r <? 0 then Ret (r, s, bwr)
    else Ret (0, s, {| write_size := write_size bwr; write_consumed := write_consumed bwr;
                       write_buffer := write_buffer bwr; read_size := read_size bwr;
                       read_consumed := read_consumed bwr + r; read_buffer := read_buffer bwr |})
  else Ret (0, s, bwr).

Definition cmd_set_max_threads (s : state) (max_threads : Z) : Z * state :=
  (0, set_proc (set_max_threads max_threads (proc s)) s).

(** [context_mgr_uid] is a [uid_t]; it starts as [(uid_t)-1]. *)
Definition no_uid : Z := uint (-1).

Definition cmd_set_context_mgr (env : environ) (s : state) : Z * state :=
  match context_mgr_obj s with
  | None => (- EBUSY, s)                          (* if (!context_mgr_obj) *)
  | Some _ =>
      let go (s : state) :=
        let '(proc', obj) := binder_new_obj env (proc s) NULL in
        let s := set_context_mgr obj (context_mgr_uid s) (set_proc proc' s) in
        match obj with
        | None => (- ENOMEM, s)
        | Some _ => (0, s)
        end in
      if context_mgr_uid s =? no_uid
      then go (set_context_mgr (context_mgr_obj s) (uint (current_euid env)) s)
      else if negb (context_mgr_uid s =? uint (current_euid env)) then (- EPERM, s)
      else go s
  end.

(** ** Teardown *)

Fixpoint fail_incoming (qs : gmap Z msg_queue) (l : list bcmd_msg) : run (gmap Z msg_queue) :=
  match l with
  | [] => Ret qs
  | msg :: rest =>
      let msg := set_msg_type BC_DEAD_BINDER msg in
      if msg_reply_queue msg =? NULL then Oops     (* BUG_ON(!msg->reply_queue) *)
      else
        let '(_, qs) := bcmd_write_msg qs (msg_reply_queue msg) msg in
        fail_incoming qs rest
  end.

Definition binder_free_thread (qs : gmap Z msg_queue) (thread : binder_thread)
  : run (gmap Z msg_queue) :=
  qs ← free_msg_queue free_queued_msg qs (th_queue thread);
  fail_incoming qs (th_incoming_transactions thread).

Fixpoint free_threads (qs : gmap Z msg_queue) (l : list binder_thread)
  : run (gmap Z msg_queue) :=
  match l with
  | [] => Ret qs
  | t :: rest => qs ← binder_free_thread qs t; free_threads qs rest
  end.

(** [rb_first] and [rb_erase] of the node it returned; the rotations of
    [rb_erase] keep the order of the entries, which is all the loop of the
    teardown depends on. *)
Fixpoint rb_first (t : rb_root) : option binder_obj :=
  match t with
  | rb_nil => None
  | rb_node rb_nil o _ => Some o
  | rb_node l _ _ => rb_first l
  end.

Fixpoint rb_erase_first (t : rb_root) : rb_root :=
  match t with
  | rb_nil => rb_nil
  | rb_node rb_nil _ r => r
  | rb_node l o r => rb_node (rb_erase_first l) o r
  end.

Fixpoint rb_count (t : rb_root) : nat :=
  match t with
  | rb_nil => O
  | rb_node l _ r => S (rb_count l + rb_count r)
  end.

(** What the teardown of the object table does, in order. *)
Inductive teardown_event : Type :=
  | ev_kfree_obj (id : obj_id_t)
  | ev_list_del (id : obj_id_t) (n : binder_notifier)
  | ev_write (q : Z) (msg : bcmd_msg) (r : Z).

Definition dead_binder_msg (msg : bcmd_msg) (obj : binder_obj) (n : binder_notifier) : bcmd_msg :=
  {| msg_obj_id := obj_id obj; msg_type := BC_DEAD_BINDER; msg_code := msg_code msg;
     msg_flags := msg_flags msg; msg_buf := msg_buf msg; msg_sender_pid := msg_sender_pid msg;
     msg_sender_euid := msg_sender_euid msg; msg_cookie := nt_cookie n;
     msg_reply_queue := msg_reply_queue msg |}.

(** The walk over the notifiers of an owned object; [msg] is the message at
    hand, if any.  The result [false] is the return of -ENOMEM. *)
Fixpoint fire_notifiers (env : environ) (obj : binder_obj) (l : list binder_notifier)
    (msg : option bcmd_msg) (qs : gmap Z msg_queue) (log : list teardown_event)
  : bool * gmap Z msg_queue * list teardown_event :=
  match l with
  | [] => (true, qs, log)
  | n :: rest =>
      let log := log ++ [ev_list_del (obj_id obj) n] in
      let msg := match msg with
                 | Some m => Some m
                 | None => if kmalloc env then Some (blank_msg (blank_buf 0 0 0)) else None
                 end in
      match msg with
      | None => (false, qs, log)
      | Some m =>
          let m := dead_binder_msg m obj n in
          let '(r, qs) := bcmd_write_msg qs (nt_notify_queue n) m in
          let log := log ++ [ev_write (nt_notify_queue n) m r] in
          fire_notifiers env obj rest (if r =? 0 then None else Some m) qs log
      end
  end.

Fixpoint free_objs (k : nat) (env : environ) (queue : Z) (t : rb_root)
    (qs : gmap Z msg_queue) (log : list teardown_event)
  : run (Z * gmap Z msg_queue * list teardown_event) :=
  match rb_first t with
  | None => Ret (0, qs, log)
  | Some obj =>
      match k with
      | O => Spin
      | S k' =>
          let t := rb_erase_first t in
          if negb (owner (obj_id obj) =? queue) then      (* just reference *)
            match notifiers obj with
            | [] => free_objs k' env queue t qs (log ++ [ev_kfree_obj (obj_id obj)])
            | _ :: _ => Oops                               (* BUG_ON(!list_empty(...)) *)
            end
          else
            let '(ok, qs, log) := fire_notifiers env obj (notifiers obj) None qs log in
            if ok then free_objs k' env queue t qs log
            else Ret (- ENOMEM, qs, log)
      end
  end.

Definition binder_free_proc (env : environ) (qs : gmap Z msg_queue) (proc : binder_proc)
  : run (Z * gmap Z msg_queue * list teardown_event) :=
  qs ← free_msg_queue free_queued_msg qs (pr_queue proc);
  qs ← free_threads qs (pr_thread_tree proc);
  free_objs (rb_count (pr_obj_tree proc)) env (pr_queue proc) (pr_obj_tree proc) qs [].

End Driver.

(* ===================================================================== *)
(** * Part II: the vocabulary of the properties                            *)
(* ===================================================================== *)

(** An address of the machine. *)
Definition is_ptr (p : Z) : bool := (0 <=? p) && (p <? 2 ^ 64).

Fixpoint tree_ptrs (t : rb_root) : bool :=
  match t with
  | rb_nil => true
  | rb_node l o r =>
      tree_ptrs l && is_ptr (owner (obj_id o)) && is_ptr (binder (obj_id o)) && tree_ptrs r
  end.

(** The entries a search can reach: [obj_id_cmp] never answers "smaller",
    so the descent only ever goes right. *)
Fixpoint spine (t : rb_root) : list binder_obj :=
  match t with
  | rb_nil => []
  | rb_node _ o r => o :: spine r
  end.

(** What is asked of [rb_insert_color].  The driver links every new entry
    at the end of the right spine; there the rotations of [rb_insert_color]
    are left rotations on that spine, which take entries off it and bring
    none onto it, and the new entry stays the last one. *)
Definition spine_kept (f : rb_root -> rb_root) : Prop :=
  forall t, (forall o, In o (spine (f t)) -> In o (spine t))
            /\ last (spine (f t)) = last (spine t).

(** The handle type a descriptor of an owned object leaves with. *)
Definition handle_of (ty : binder_type) : binder_type :=
  if decide (ty = BINDER_TYPE_BINDER) then BINDER_TYPE_HANDLE else BINDER_TYPE_WEAK_HANDLE.

Definition is_binder_type (ty : binder_type) : bool :=
  match ty with
  | BINDER_TYPE_BINDER | BINDER_TYPE_WEAK_BINDER => true
  | _ => false
  end.


(** The entries of the object tree in the order [rb_first] and [rb_next]
    give them. *)
Fixpoint inorder (t : rb_root) : list binder_obj :=
  match t with
  | rb_nil => []
  | rb_node l o r => inorder l ++ o :: inorder r
  end.

(** A queue that takes a write: it exists and is not closed. *)
Definition q_open (qs : gmap Z msg_queue) (q : Z) : bool :=
  match qs !! q with
  | Some mq => negb (q_closed mq)
  | None => false
  end.

Definition is_owned (queue : Z) (obj : binder_obj) : bool := owner (obj_id obj) =? queue.

(** The message the teardown writes for notifier [n] of [obj]. *)
Definition death_msg (obj : binder_obj) (n : binder_notifier) : bcmd_msg :=
  dead_binder_msg (blank_msg (blank_buf 0 0 0)) obj n.

(** The entries of a queue. *)
Definition entries_of (qs : gmap Z msg_queue) (q : Z) : list bcmd_msg :=
  match qs !! q with
  | Some mq => q_entries mq
  | None => []
  end.

(** What a write to queue [q] returns: 0, or the error of a queue that is
    closed or of an address that names no queue. *)
Definition write_code (qs : gmap Z msg_queue) (q : Z) : Z :=
  match qs !! q with
  | Some mq => if q_closed mq then - EBADF else 0
  | None => - EFAULT
  end.

(** What the teardown does for one entry of the object table: a reference
    is freed; for an owned entry every notifier is taken off the list and
    then its message is written to its queue, with the result the queue
    gives. *)
Definition fire_events (qs : gmap Z msg_queue) (obj : binder_obj) (n : binder_notifier)
  : list teardown_event :=
  [ev_list_del (obj_id obj) n;
   ev_write (nt_notify_queue n) (death_msg obj n) (write_code qs (nt_notify_queue n))].

Definition obj_events (qs : gmap Z msg_queue) (queue : Z) (obj : binder_obj)
  : list teardown_event :=
  if is_owned queue obj then flat_map (fire_events qs obj) (notifiers obj)
  else [ev_kfree_obj (obj_id obj)].

(** The messages the notifiers of [obj] with queue [q] are owed. *)
Definition obj_deliveries (queue q : Z) (obj : binder_obj) : list bcmd_msg :=
  if is_owned queue obj
  then flat_map (fun n => if nt_notify_queue n =? q then [death_msg obj n] else [])
                (notifiers obj)
  else [].

Definition append_entries (l : list bcmd_msg) (mq : msg_queue) : msg_queue :=
  set_entries (q_entries mq ++ l) mq.

(** The data-model invariant the teardown relies on: a reference carries no
    notifier. *)
Definition ref_bare (queue : Z) (obj : binder_obj) : bool :=
  is_owned queue obj || match notifiers obj with [] => true | _ => false end.

(** The fan-out read without condition: the teardown returns, and every
    notifier of every owned entry finds its death message in its queue. *)
Definition fan_out_unconditional (env : environ) (qs : gmap Z msg_queue) (proc : binder_proc)
  : Prop :=
  exists r qs' log,
    binder_free_proc env qs proc = Ret (r, qs', log)
    /\ forall obj n,
         In obj (inorder (pr_obj_tree proc)) -> is_owned (pr_queue proc) obj = true ->
         In n (notifiers obj) ->
         In (death_msg obj n) (entries_of qs' (nt_notify_queue n)).

(** The drain of the process queue and of the threads, before the object
    table is walked. *)
Definition drain_queues (qs : gmap Z msg_queue) (proc : binder_proc) : run (gmap Z msg_queue) :=
  qs ← free_msg_queue free_queued_msg qs (pr_queue proc);
  free_threads qs (pr_thread_tree proc).

(** The bytes a command of the write stream takes, payload included. *)
Definition cmd_size (bh : binder_h) (c : cmd_t) : Z :=
  match c with
  | BC_TRANSACTION | BC_REPLY => sizeof_cmd + sizeof_tdata bh
  | BC_REQUEST_DEATH_NOTIFICATION | BC_CLEAR_DEATH_NOTIFICATION =>
      sizeof_cmd + sizeof_notifier_data
  | _ => sizeof_cmd
  end.

Definition stream_size (bh : binder_h) (cs : list cmd_t) : Z :=
  fold_right (fun c n => cmd_size bh c + n) 0 cs.

(** User memory holds the records of the commands [cs] one after the other
    from address [a] on. *)
Fixpoint stream_at (bh : binder_h) (env : environ) (a : Z) (cs : list cmd_t) : Prop :=
  match cs with
  | [] => True
  | c :: rest => u_cmd env a = Some c /\ stream_at bh env (a + cmd_size bh c) rest
  end.

(** The write dispatcher run over exactly the records [cs]: one command
    after the other until one makes [binder_thread_write] return, and then
    the position reached. *)
Fixpoint write_records (bh : binder_h) (fuel : nat) (env : environ) (s : state)
    (buf p ep : Z) (cs : list cmd_t) : run (Z * state) :=
  match cs with
  | [] => Ret (p - buf, s)
  | _ :: rest =>
      '(r, s) ← write_one bh fuel env s p ep;
      match r with
      | inr e => Ret (e, s)
      | inl (p', _) => write_records bh fuel env s buf p' ep rest
      end
  end.

(** The gate of the spawn policy. *)
Definition spawn_gate (s : state) : bool :=
  (msg_queue_size (queues s) (pr_queue (proc s)) >? 1)
  && (pr_num_loopers (proc s) + pr_pending_loopers (proc s) <? pr_max_threads (proc s)).

(** Whether a spawn check stored BR_SPAWN_LOOPER. *)
Definition spawned (env : environ) (s : state) (buf size : Z) : Prop :=
  user_out (snd (bcmd_spawn_on_busy env s buf size))
  = user_out s ++ [put_cmd buf BR_SPAWN_LOOPER].

(** The reading of the spawn gate as a latch: once a spawn check has stored
    BR_SPAWN_LOOPER, a check in the state it leaves stores none. *)
Definition spawn_latched (env : environ) (s : state) (buf size : Z) : Prop :=
  spawned env s buf size ->
  forall buf' size',
    ~ spawned env (snd (bcmd_spawn_on_busy env s buf size)) buf' size'.

(** The queues with the head entry of queue [q] taken off. *)
Definition pop_head (qs : gmap Z msg_queue) (q : Z) : gmap Z msg_queue :=
  match qs !! q with
  | Some mq => <[q := set_entries (tail (q_entries mq)) mq]> qs
  | None => qs
  end.

(** BINDER_SET_CONTEXT_MGR issued by one caller after the other. *)
Fixpoint context_mgr_calls (callers : list environ) (s : state) : list Z * state :=
  match callers with
  | [] => ([], s)
  | env :: rest =>
      let '(r, s1) := cmd_set_context_mgr env s in
      let '(rs, s2) := context_mgr_calls rest s1 in
      (r :: rs, s2)
  end.

(** The state a round of the read loop ends in. *)
Definition round_state (x : round_result) : state :=
  match x with
  | round_continue s _ _ => s
  | round_return _ s => s
  end.


(** The entries waiting in the two queues a thread reads. *)
Definition waiting (s : state) : nat :=
  (length (entries_of (queues s) (th_queue (thread s)))
   + length (entries_of (queues s) (pr_queue (proc s))))%nat.

(** Two states with the same queues under the same addresses. *)
Definition same_queues (s s' : state) : Prop :=
  queues s' = queues s /\ th_queue (thread s') = th_queue (thread s)
  /\ pr_queue (proc s') = pr_queue (proc s).

(* ===================================================================== *)
(** * Part III: scenarios                                                  *)
(* ===================================================================== *)

(** A 64-bit binder.h, a caller with euid 1000, memory to hand out, and user
    memory that holds nothing to read and takes every store. *)
Definition bh0 : binder_h :=
  {| sizeof_transaction_data := 64; sizeof_flat_binder_object := 32;
     TF_ONE_WAY := 1; BINDER_LOOPER_STATE_ACTIVE := 3 |}.

Definition env0 : environ :=
  {| kmalloc := true; offsets_ptr := 65536; rb_insert_color := fun t => t; current_euid := 1000;
     u_cmd := fun _ => None; u_tdata := fun _ => None; u_notifier := fun _ => None;
     u_data := fun _ _ => None; u_offsets := fun _ _ => None;
     u_put := fun _ => true |}.

(** Queues of three processes and of a thread of the first. *)
Definition qA : Z := 40960.      (* 0xA000 *)
Definition qB : Z := 45056.      (* 0xB000 *)
Definition qC : Z := 49152.      (* 0xC000 *)
Definition tA : Z := 41216.      (* 0xA100 *)

Definition new_proc (queue pid : Z) (t : rb_root) : binder_proc :=
  {| pr_thread_tree := []; pr_obj_tree := t; pr_queue := queue; pr_pid := pid;
     pr_non_block := false; pr_max_threads := 0; pr_num_loopers := 0;
     pr_pending_loopers := 0 |}.

Definition new_thread (queue pid : Z) : binder_thread :=
  {| th_pid := pid; th_queue := queue; th_state := 0; th_non_block := false;
     th_pending_replies := 0; th_incoming_transactions := []; th_last_error := None |}.

Definition procA : binder_proc := new_proc qA 100 rb_nil.
Definition procB : binder_proc := new_proc qB 200 rb_nil.

Definition open_queue (l : list bcmd_msg) : msg_queue :=
  {| q_entries := l; q_closed := false; q_non_block := false |}.

Definition closed_queue : msg_queue :=
  {| q_entries := []; q_closed := true; q_non_block := false |}.

Definition msg_of (t : cmd_t) (data_size : Z) : bcmd_msg :=
  set_msg_type t (blank_msg (blank_buf data_size 0 (MSG_BUF_SIZE data_size 0))).

Definition state_of (qs : gmap Z msg_queue) (p : binder_proc) (t : binder_thread) : state :=
  {| queues := qs; context_mgr_obj := None; context_mgr_uid := no_uid;
     proc := p; thread := t; user_out := [] |}.

(** Process A owns the object 0xA1 (cookie 0xC1), watched by B with cookie
    0xD1 and by C with cookie 0xD2, and holds a reference to 0xB1 of B. *)
Definition objA1 : binder_obj :=
  {| obj_id := OBJ_ID_INIT qA 161; real_cookie := 193;
     notifiers := [ {| nt_event := BINDER_EVT_OBJ_DEAD; nt_cookie := 209;
                       nt_notify_queue := qB |};
                    {| nt_event := BINDER_EVT_OBJ_DEAD; nt_cookie := 210;
                       nt_notify_queue := qC |} ] |}.

Definition refB1 : binder_obj :=
  {| obj_id := OBJ_ID_INIT qB 177; real_cookie := 0; notifiers := [] |}.

Definition procA_owner : binder_proc :=
  new_proc qA 100 (rb_node rb_nil objA1 (rb_node rb_nil refB1 rb_nil)).

Definition three_queues : gmap Z msg_queue :=
  <[qA := open_queue []]> (<[qB := open_queue []]> (<[qC := open_queue []]> ∅)).

Definition three_queues_drained : gmap Z msg_queue :=
  <[qA := closed_queue]> (<[qB := open_queue []]> (<[qC := open_queue []]> ∅)).

(** A fresh device: no context manager yet. *)
Definition fresh : state :=
  state_of (<[qA := open_queue []]> (<[tA := open_queue []]> ∅)) procA (new_thread tA 101).

(** A's thread at the head of the read loop with a transaction of 100 bytes
    of data at the head of the process queue. *)
Definition with_pool (l : list bcmd_msg) : state :=
  state_of (<[qA := open_queue l]> (<[tA := open_queue []]> ∅)) procA (new_thread tA 101).

Definition with_inbox (inbox pool : list bcmd_msg) : state :=
  state_of (<[qA := open_queue pool]> (<[tA := open_queue inbox]> ∅)) procA (new_thread tA 101).

(** Two entries wait in the queue of a process that may run four threads. *)
Definition busy : state :=
  state_of (<[qA := open_queue [msg_of BR_DEAD_BINDER 0; msg_of BR_DEAD_BINDER 0]]>
              (<[tA := open_queue []]> ∅))
           (set_max_threads 4 procA) (new_thread tA 101).

(** The same with the pool of threads used up. *)
Definition saturated : state :=
  state_of (<[qA := open_queue [msg_of BR_DEAD_BINDER 0; msg_of BR_DEAD_BINDER 0]]>
              (<[tA := open_queue []]> ∅))
           (set_loopers 4 0 (set_max_threads 4 procA)) (new_thread tA 101).

(** User memory that holds BC_ENTER_LOOPER at 0 and BC_EXIT_LOOPER at 4. *)
Definition env_two_cmds : environ :=
  {| kmalloc := true; offsets_ptr := 65536; rb_insert_color := fun t => t; current_euid := 1000;
     u_cmd := fun a => if a =? 0 then Some BC_ENTER_LOOPER
                       else if a =? 4 then Some BC_EXIT_LOOPER else None;
     u_tdata := fun _ => None; u_notifier := fun _ => None;
     u_data := fun _ _ => None; u_offsets := fun _ _ => None;
     u_put := fun _ => true |}.

(** A transaction to the object 0xA1 with four bytes of data and no
    descriptor, from a process that knows the object; user memory holds the
    data at 4096. *)
Definition ping : bcmd_transaction_data :=
  {| td_target := 161; td_code := 1; td_flags := 0; td_sender_pid := 0; td_sender_euid := 0;
     td_data_size := 4; td_offsets_size := 0; td_buffer := 4096; td_offsets := 0 |}.

Definition ping_empty : bcmd_transaction_data :=
  {| td_target := 161; td_code := 1; td_flags := 0; td_sender_pid := 0; td_sender_euid := 0;
     td_data_size := 0; td_offsets_size := 0; td_buffer := 0; td_offsets := 0 |}.

Definition env_ping : environ :=
  {| kmalloc := true; offsets_ptr := 65536; rb_insert_color := fun t => t; current_euid := 1000;
     u_cmd := fun _ => None; u_tdata := fun _ => None; u_notifier := fun _ => None;
     u_data := fun a n => if (a =? 4096) && (n =? 4) then Some ∅ else None;
     u_offsets := fun _ n => if n =? 0 then Some [] else None;
     u_put := fun _ => true |}.

Definition ownerA : state :=
  state_of (<[qA := open_queue []]> (<[tA := open_queue []]> ∅))
           (new_proc qA 100 (rb_node rb_nil objA1 rb_nil)) (new_thread tA 101).

(** A second caller, with euid 1001. *)
Definition env1 : environ :=
  {| kmalloc := true; offsets_ptr := 65536; rb_insert_color := fun t => t; current_euid := 1001;
     u_cmd := fun _ => None; u_tdata := fun _ => None; u_notifier := fun _ => None;
     u_data := fun _ _ => None; u_offsets := fun _ _ => None;
     u_put := fun _ => true |}.

(** A transaction to a handle the sender does not know. *)
Definition stray : bcmd_transaction_data :=
  {| td_target := 999; td_code := 1; td_flags := 0; td_sender_pid := 0; td_sender_euid := 0;
     td_data_size := 0; td_offsets_size := 0; td_buffer := 0; td_offsets := 0 |}.

(** The owner of 0xA1 with a BR_DEAD_BINDER message in the inbox of its thread. *)
Definition ownerA_notified : state :=
  state_of (<[qA := open_queue []]> (<[tA := open_queue [msg_of BR_DEAD_BINDER 0]]> ∅))
           (new_proc qA 100 (rb_node rb_nil objA1 rb_nil)) (new_thread tA 101).

(** The state a read with room for one command word leaves the notified
    owner in. *)
Definition ownerA_after_read : state :=
  match binder_thread_read bh0 0 env0 ownerA_notified 0 4 with
  | Ret (_, s) => s
  | _ => ownerA_notified
  end.

(** A payload of one descriptor slot that holds no descriptor. *)
Definition one_slot : bcmd_msg_buf :=
  {| mb_data := ∅; mb_data_size := 32; mb_offsets := [0]; mb_offsets_size := 8;
     mb_buf_size := 40 |}.

Definition one_slot_seen : bcmd_msg_buf :=
  {| mb_data := {[ 0 := {| fb_type := BINDER_TYPE_OTHER 0; fb_binder := 0; fb_cookie := 0 |} ]};
     mb_data_size := 32; mb_offsets := [0]; mb_offsets_size := 8; mb_buf_size := 40 |}.

(** A left rotation at the root, as [rb_insert_color] does them on the right
    spine: the root goes down to the left and off the spine. *)
Definition rotate_left (t : rb_root) : rb_root :=
  match t with
  | rb_node l x (rb_node rl y rr) => rb_node (rb_node l x rl) y rr
  | _ => t
  end.

Definition env_rotating : environ :=
  {| kmalloc := true; offsets_ptr := 65536; rb_insert_color := rotate_left; current_euid := 1000;
     u_cmd := fun _ => None; u_tdata := fun _ => None; u_notifier := fun _ => None;
     u_data := fun _ _ => None; u_offsets := fun _ _ => None;
     u_put := fun _ => true |}.

(** Process A with two objects of its own in the table already. *)
Definition procA_two : binder_proc :=
  new_proc qA 100
    (rb_node rb_nil {| obj_id := OBJ_ID_INIT qA 162; real_cookie := 194; notifiers := [] |}
       (rb_node rb_nil {| obj_id := OBJ_ID_INIT qA 163; real_cookie := 195; notifiers := [] |}
          rb_nil)).

(** Process A, owner of 0xA2 and 0xA3, asks to be told of the death of
    0xA2 with cookie 300, and a round of its read loop takes the request
    in: the states after the write and after the round. *)
Definition watchA2 : bcmd_notifier_data := {| nd_binder := 162; nd_cookie := 300 |}.

Definition ownerA_two : state :=
  state_of (<[qA := open_queue []]> (<[tA := open_queue []]> ∅)) procA_two (new_thread tA 101).

Definition self_watch_asked : state :=
  match bcmd_write_notifier env0 ownerA_two watchA2 BC_REQUEST_DEATH_NOTIFICATION with
  | Ret (_, s) => s
  | _ => ownerA_two
  end.

Definition self_watched : state :=
  match read_round bh0 0 env0 self_watch_asked 0 0 64 with
  | Ret x => round_state x
  | _ => self_watch_asked
  end.

(** The notifier that request leaves on 0xA2. *)
Definition self_watcher : binder_notifier :=
  {| nt_event := BINDER_EVT_OBJ_DEAD; nt_cookie := 300; nt_notify_queue := qA |}.
(* ===================================================================== *)
(** * Part IV: the file operations                                         *)
(* ===================================================================== *)

(** What the entry points read from the kernel and from binder.h beyond
    [environ]: the flag O_NONBLOCK, the ids of the calling task, the address
    of the queue [create_msg_queue] returns in a given store (NULL when it
    fails), the size of [struct binder_write_read] and the version number
    of binder.h, and the typed views of user memory for the arguments of the
    ioctl.  [cmd_thread_exit] has an empty body; [thread_exit_value] is what
    its caller finds as its value. *)
Record kernel : Type := {
  O_NONBLOCK : Z;
  task_tgid_vnr : Z;
  task_pid_vnr : Z;
  queue_addr : gmap Z msg_queue -> Z;
  sizeof_write_read : Z;
  BINDER_CURRENT_PROTOCOL_VERSION : Z;
  u_bwr : Z -> option binder_write_read;
  u_int : Z -> option Z;
  thread_exit_value : Z
}.

Definition sizeof_int : Z := 4.

(** [struct file], as far as the driver uses it: [private_data] is the
    process record, or NULL. *)
Record file : Type := {
  f_flags : Z;
  private_data : option binder_proc
}.

Definition set_private_data (p : option binder_proc) (f : file) : file :=
  {| f_flags := f_flags f; private_data := p |}.

Definition set_thread_tree (l : list binder_thread) (p : binder_proc) : binder_proc :=
  {| pr_thread_tree := l; pr_obj_tree := pr_obj_tree p; pr_queue := pr_queue p;
     pr_pid := pr_pid p; pr_non_block := pr_non_block p;
     pr_max_threads := pr_max_threads p; pr_num_loopers := pr_num_loopers p;
     pr_pending_loopers := pr_pending_loopers p |}.

(** ** Process and thread records *)

Definition binder_new_proc (k : kernel) (env : environ) (qs : gmap Z msg_queue) (filp : file)
  : option binder_proc * gmap Z msg_queue :=
  if negb (kmalloc env) then (None, qs)
  else
    let non_block := negb (Z.land (f_flags filp) (O_NONBLOCK k) =? 0) in
    let queue := queue_addr k qs in
    if queue =? NULL then (None, qs)                       (* kfree(proc) *)
    else
      (Some {| pr_thread_tree := []; pr_obj_tree := rb_nil; pr_queue := queue;
               pr_pid := task_tgid_vnr k; pr_non_block := non_block;
               pr_max_threads := 0; pr_num_loopers := 0; pr_pending_loopers := 0 |},
       <[queue := create_msg_queue non_block]> qs).

(** [state] and [last_error] are not stored to; they read as zero, as the
    other fields of fresh memory do. *)
Definition binder_new_thread (k : kernel) (env : environ) (qs : gmap Z msg_queue) (filp : file)
    (pid : Z) : option binder_thread * gmap Z msg_queue :=
  if negb (kmalloc env) then (None, qs)
  else
    let non_block := negb (Z.land (f_flags filp) (O_NONBLOCK k) =? 0) in
    let queue := queue_addr k qs in
    if queue =? NULL then (None, qs)                       (* kfree(thread) *)
    else
      (Some {| th_pid := pid; th_queue := queue; th_state := 0; th_non_block := non_block;
               th_pending_replies := 0; th_incoming_transactions := [];
               th_last_error := None |},
       <[queue := create_msg_queue non_block]> qs).

(** The thread tree is searched and linked by pid, with [<] and [>] on
    [pid_t]: the descent ends at the node with the pid, or at the place in
    the order where the new node is linked.  The tree is held as the list of
    its nodes by increasing pid. *)
Fixpoint thread_find (pid : Z) (l : list binder_thread) : option binder_thread :=
  match l with
  | [] => None
  | t :: rest =>
      if pid <? th_pid t then None
      else if pid >? th_pid t then thread_find pid rest
      else Some t
  end.

Fixpoint thread_link (new : binder_thread) (l : list binder_thread) : list binder_thread :=
  match l with
  | [] => [new]
  | t :: rest =>
      if th_pid new <? th_pid t then new :: l
      else t :: thread_link new rest
  end.

Definition binder_get_thread (k : kernel) (env : environ) (qs : gmap Z msg_queue)
    (proc : binder_proc) (filp : file)
  : option binder_thread * binder_proc * gmap Z msg_queue :=
  let pid := task_pid_vnr k in
  match thread_find pid (pr_thread_tree proc) with
  | Some thread => (Some thread, proc, qs)
  | None =>
      match binder_new_thread k env qs filp pid with
      | (None, qs) => (None, proc, qs)
      | (Some thread, qs) =>
          (Some thread, set_thread_tree (thread_link thread (pr_thread_tree proc)) proc, qs)
      end
  end.

(** ** open and release *)

Definition binder_open (k : kernel) (env : environ) (qs : gmap Z msg_queue) (filp : file)
  : Z * file * gmap Z msg_queue :=
  match private_data filp with
  | Some _ => (- EBUSY, filp, qs)                          (* already in use *)
  | None =>
      match binder_new_proc k env qs filp with
      | (None, qs) => (- ENOMEM, filp, qs)
      | (Some proc, qs) => (0, set_private_data (Some proc) filp, qs)
      end
  end.

(** The value of [binder_free_proc] is dropped. *)
Definition binder_release (env : environ) (qs : gmap Z msg_queue) (filp : file)
  : run (Z * gmap Z msg_queue * list teardown_event) :=
  match private_data filp with
  | None => Oops                                           (* proc->queue of NULL *)
  | Some proc =>
      '(_, qs, log) ← binder_free_proc env qs proc;
      Ret (0, qs, log)
  end.

(** ** ioctl *)

Inductive ioctl_cmd : Type :=
  | BINDER_WRITE_READ
  | BINDER_THREAD_EXIT
  | BINDER_SET_MAX_THREADS
  | BINDER_VERSION
  | BINDER_SET_CONTEXT_MGR
  | BINDER_OTHER (raw : Z).

(** What an ioctl stores through its argument. *)
Inductive ioctl_out : Type :=
  | out_none
  | out_bwr (addr : Z) (bwr : binder_write_read)
  | out_version (addr : Z) (version : Z).

(** What outlives a call: the queues, the two variables of the context
    manager and user memory. *)
Record device : Type := {
  dev_queues : gmap Z msg_queue;
  dev_context_mgr_obj : option binder_obj;
  dev_context_mgr_uid : Z;
  dev_user_out : list uwrite
}.

Definition set_dev_queues (qs : gmap Z msg_queue) (d : device) : device :=
  {| dev_queues := qs; dev_context_mgr_obj := dev_context_mgr_obj d;
     dev_context_mgr_uid := dev_context_mgr_uid d; dev_user_out := dev_user_out d |}.

Definition state_in (d : device) (p : binder_proc) (t : binder_thread) : state :=
  {| queues := dev_queues d; context_mgr_obj := dev_context_mgr_obj d;
     context_mgr_uid := dev_context_mgr_uid d; proc := p; thread := t;
     user_out := dev_user_out d |}.

Definition device_of (s : state) : device :=
  {| dev_queues := queues s; dev_context_mgr_obj := context_mgr_obj s;
     dev_context_mgr_uid := context_mgr_uid s; dev_user_out := user_out s |}.

Definition cmd_thread_exit (k : kernel) : Z := thread_exit_value k.

(** The thread record is a node of the thread tree of the process: what a
    command stored in it is seen in the tree. *)
Fixpoint thread_store (t : binder_thread) (l : list binder_thread) : list binder_thread :=
  match l with
  | [] => []
  | x :: rest => if th_pid x =? th_pid t then t :: rest else x :: thread_store t rest
  end.

Definition file_of (s : state) (filp : file) : file :=
  set_private_data
    (Some (set_thread_tree (thread_store (thread s) (pr_thread_tree (proc s))) (proc s))) filp.

(** [size] is [_IOC_SIZE(cmd)].  The result is the value returned, what was
    stored through [arg], the device as the call leaves it, and the file
    with the process record as it then is.  BINDER_VERSION stores the result
    of its size test in a variable that is not returned, and stores the
    version through [arg]. *)
Definition binder_ioctl (bh : binder_h) (fuel : nat) (k : kernel) (env : environ)
    (d : device) (filp : file) (cmd : ioctl_cmd) (size arg : Z)
  : run (Z * ioctl_out * device * file) :=
  match private_data filp with
  | None => Oops                                           (* proc->thread_tree of NULL *)
  | Some proc =>
      match binder_get_thread k env (dev_queues d) proc filp with
      | (None, _, qs) => Ret (- ENOMEM, out_none, set_dev_queues qs d, filp)
      | (Some thread, proc, qs) =>
          let s := state_in (set_dev_queues qs d) proc thread in
          let ret (r : Z) (o : ioctl_out) (s : state) :=
            Ret (r, o, device_of s, file_of s filp) in
          match cmd with
          | BINDER_WRITE_READ =>
              if negb (size =? sizeof_write_read k) then ret (- EINVAL) out_none s
              else
                match u_bwr k arg with
                | None => ret (- EFAULT) out_none s
                | Some bwr =>
                    '(r, s, bwr) ← cmd_write_read bh fuel env s bwr;
                    if r <? 0 then ret r out_none s
                    else if negb (u_put env arg) then ret (- EFAULT) out_none s
                    else ret (cmd_thread_exit k) (out_bwr arg bwr) s      (* no break *)
                end
          | BINDER_THREAD_EXIT => ret (cmd_thread_exit k) out_none s
          | BINDER_SET_MAX_THREADS =>
              if negb (size =? sizeof_int) then ret (- EINVAL) out_none s
              else
                match u_int k arg with
                | None => ret (- EFAULT) out_none s
                | Some max_threads =>
                    let '(r, s) := cmd_set_max_threads s max_threads in
                    ret r out_none s
                end
          | BINDER_VERSION =>
              if negb (u_put env arg) then ret (- EFAULT) out_none s
              else ret 0 (out_version arg (BINDER_CURRENT_PROTOCOL_VERSION k)) s
          | BINDER_SET_CONTEXT_MGR =>
              let '(r, s) := cmd_set_context_mgr env s in
              ret r out_none s
          | BINDER_OTHER _ => ret (- EINVAL) out_none s
          end
      end
  end.


(* ===================================================================== *)
(** * Part V: more vocabulary and scenarios                               *)
(* ===================================================================== *)

(** The teardown events that are writes to a queue. *)
Definition is_ev_write (e : teardown_event) : bool :=
  match e with
  | ev_write _ _ _ => true
  | _ => false
  end.

(** The bytes of user memory a store covers. *)
Definition uwrite_addr (w : uwrite) : Z :=
  match w with
  | put_cmd a _ | put_tdata a _ | put_data a _ _ => a
  end.

Definition uwrite_len (bh : binder_h) (w : uwrite) : Z :=
  match w with
  | put_cmd _ _ => sizeof_cmd
  | put_tdata _ _ => sizeof_tdata bh
  | put_data _ _ n => n
  end.

Definition stored_within (bh : binder_h) (lo hi : Z) (w : uwrite) : Prop :=
  lo <= uwrite_addr w /\ uwrite_addr w + uwrite_len bh w <= hi.

(** Every queued message has a payload size the write side lets through:
    a [size_t] of at most MAX_TRANSACTION_SIZE. *)
Definition payloads_sized (qs : gmap Z msg_queue) : Prop :=
  forall q mq m, qs !! q = Some mq -> In m (q_entries mq) ->
                 0 <= mb_data_size (msg_buf m) <= MAX_TRANSACTION_SIZE.

(** What a handler of the read side leaves behind: its stores lie in the
    room it was given, a positive result is no more than that room, and a
    message it hands back has the payload size it came with. *)
Definition handler_ok (bh : binder_h) (s : state) (msg : bcmd_msg) (buf size : Z)
    (n : Z) (pmsg : option bcmd_msg) (s' : state) : Prop :=
  n <= size
  /\ (exists new, user_out s' = user_out s ++ new
                  /\ Forall (stored_within bh buf (buf + size)) new)
  /\ (forall m, pmsg = Some m -> mb_data_size (msg_buf m) = mb_data_size (msg_buf msg)).

(** The thread tree holds its records by strictly increasing pid. *)
Fixpoint pids_increasing (l : list binder_thread) : bool :=
  match l with
  | a :: (b :: _) as rest => (th_pid a <? th_pid b) && pids_increasing rest
  | _ => true
  end.

(** The flag of a file opened for non-blocking use. *)
Definition file_non_block (k : kernel) (filp : file) : bool :=
  negb (Z.land (f_flags filp) (O_NONBLOCK k) =? 0).

(** A queue after [free_msg_queue]. *)
Definition freed_queue (non_block : bool) : msg_queue :=
  {| q_entries := []; q_closed := true; q_non_block := non_block |}.

(** ** More scenarios *)

(** The same surroundings with no memory left. *)
Definition env_no_memory : environ :=
  {| kmalloc := false; offsets_ptr := 65536; rb_insert_color := fun t => t; current_euid := 1000;
     u_cmd := fun _ => None; u_tdata := fun _ => None; u_notifier := fun _ => None;
     u_data := fun _ _ => None; u_offsets := fun _ _ => None;
     u_put := fun _ => true |}.

(** The descriptor of the object 0xA1 as its owner writes it. *)
Definition flatA1 : flat_binder_object :=
  {| fb_type := BINDER_TYPE_BINDER; fb_binder := 161; fb_cookie := 193 |}.

(** A transaction with a slot for one descriptor. *)
Definition with_descriptor : bcmd_msg := set_msg_buf one_slot (msg_of BC_TRANSACTION 32).

(** The owner of 0xA1 beside the queue of process B. *)
Definition ownerA_beside_B : state :=
  state_of (<[qA := open_queue []]> (<[tA := open_queue []]> (<[qB := open_queue []]> ∅)))
           (new_proc qA 100 (rb_node rb_nil objA1 rb_nil)) (new_thread tA 101).

Definition watchA1 : bcmd_notifier_data := {| nd_binder := 161; nd_cookie := 300 |}.

(** The same transaction as [ping_empty], one-way. *)
Definition ping_one_way : bcmd_transaction_data :=
  {| td_target := 161; td_code := 1; td_flags := 1; td_sender_pid := 0; td_sender_euid := 0;
     td_data_size := 0; td_offsets_size := 0; td_buffer := 0; td_offsets := 0 |}.

Definition one_way_msg : bcmd_msg :=
  fill_msg bh0 env0 ownerA ping_one_way BC_TRANSACTION (obj_id objA1)
           (blank_msg (blank_buf 0 0 0)).

(** The first notifier of 0xA1, and the message the teardown writes for it. *)
Definition watcherB : binder_notifier :=
  {| nt_event := BINDER_EVT_OBJ_DEAD; nt_cookie := 209; nt_notify_queue := qB |}.

Definition notified_by_teardown : state := with_inbox [death_msg objA1 watcherB] [].

(** The request of a third watcher of 0xA1, with cookie 300 and the queue
    of C, and its clear request. *)
Definition request_of (t : cmd_t) : bcmd_msg :=
  {| msg_obj_id := OBJ_ID_INIT qA 161; msg_type := t; msg_code := 0; msg_flags := 0;
     msg_buf := blank_buf 0 0 0; msg_sender_pid := 0; msg_sender_euid := 0;
     msg_cookie := 300; msg_reply_queue := qC |}.

(** A kernel that hands out the queue addresses 0xA000 and 0xA100 in turn,
    for the task 101 of the thread group 100. *)
Definition k0 : kernel :=
  {| O_NONBLOCK := 2048; task_tgid_vnr := 100; task_pid_vnr := 101;
     queue_addr := fun qs => match qs !! qA with
                             | None => qA
                             | Some _ => match qs !! tA with
                                         | None => tA
                                         | Some _ => NULL
                                         end
                             end;
     sizeof_write_read := 48; BINDER_CURRENT_PROTOCOL_VERSION := 7;
     u_bwr := fun a => if a =? 8192
                       then Some {| write_size := 0; write_consumed := 0; write_buffer := 0;
                                    read_size := 0; read_consumed := 0; read_buffer := 0 |}
                       else None;
     u_int := fun _ => None;
     thread_exit_value := 77 |}.

Definition file0 : file := {| f_flags := 0; private_data := None |}.

(** The file of process A after [binder_open], and the device then. *)
Definition fileA : file := {| f_flags := 0; private_data := Some procA |}.

Definition devA : device :=
  {| dev_queues := <[qA := open_queue []]> ∅; dev_context_mgr_obj := None;
     dev_context_mgr_uid := no_uid; dev_user_out := [] |}.

(** The file of the owner of 0xA1. *)
Definition file_owner : file := {| f_flags := 0; private_data := Some procA_owner |}.

(* ===================================================================== *)
(** * Part VI: properties                                                 *)
(* ===================================================================== *)

(** ** Object registry *)

Lemma size_t_zero (a b : Z) :
  is_ptr a = true -> is_ptr b = true -> size_t (a - b) = 0 -> a = b.
Proof.
  unfold is_ptr, size_t. intros Ha Hb H.
  apply andb_prop in Ha as [Ha1 Ha2]. apply andb_prop in Hb as [Hb1 Hb2].
  apply Z.leb_le in Ha1, Hb1. apply Z.ltb_lt in Ha2, Hb2.
  apply Z.mod_divide in H; [|lia]. destruct H as [k Hk].
  assert (k = 0) by nia. lia.
Qed.

(** The two values a comparison can have, as the searches use them. *)
Lemma obj_id_cmp_cases (a b : obj_id_t) :
  (obj_id_cmp a b <? 0) = false
  /\ (obj_id_cmp a b = 0 \/ obj_id_cmp a b = 1).
Proof.
  unfold obj_id_cmp, size_t.
  assert (H1 := Z.mod_pos_bound (owner a - owner b) (2 ^ 64) ltac:(lia)).
  assert (H2 := Z.mod_pos_bound (binder a - binder b) (2 ^ 64) ltac:(lia)).
  repeat match goal with
         | |- context [if ?c then _ else _] => destruct c eqn:?
         end; split; auto; lia.
Qed.

(** X1.  [obj_id_cmp] answers 0 or 1 and never -1: the difference of the
    pointers is held in a [size_t], and a non-zero [size_t] is positive. *)
Lemma obj_id_cmp_range (a b : obj_id_t) : obj_id_cmp a b = 0 \/ obj_id_cmp a b = 1.
Proof.
  unfold obj_id_cmp, size_t.
  assert (H1 := Z.mod_pos_bound (owner a - owner b) (2 ^ 64) ltac:(lia)).
  assert (H2 := Z.mod_pos_bound (binder a - binder b) (2 ^ 64) ltac:(lia)).
  repeat match goal with
         | |- context [if ?c then _ else _] => destruct c eqn:?
         end; auto; lia.
Qed.

Lemma obj_id_cmp_refl (a : obj_id_t) : obj_id_cmp a a = 0.
Proof. unfold obj_id_cmp, size_t. rewrite !Z.sub_diag. reflexivity. Qed.

Lemma obj_id_cmp_zero (a b : obj_id_t) :
  obj_id_cmp a b = 0 -> size_t (owner a - owner b) = 0 /\ size_t (binder a - binder b) = 0.
Proof.
  unfold obj_id_cmp.
  destruct (size_t (owner a - owner b) =? 0) eqn:E1; simpl.
  - destruct (size_t (binder a - binder b) =? 0) eqn:E2; simpl.
    + intros _. split; lia.
    + destruct (_ >? 0); discriminate.
  - destruct (_ >? 0); discriminate.
Qed.

Lemma rb_find_cmp (t : rb_root) (id : obj_id_t) (o : binder_obj) :
  rb_find t id = Some o -> obj_id_cmp id (obj_id o) = 0.
Proof.
  induction t as [|l IHl x r IHr]; simpl; [discriminate|].
  destruct (obj_id_cmp id (obj_id x) <? 0) eqn:E1; [auto|].
  destruct (obj_id_cmp id (obj_id x) >? 0) eqn:E2; [auto|].
  intros [= <-]. lia.
Qed.

Lemma rb_find_owner (t : rb_root) (q b : Z) (o : binder_obj) :
  tree_ptrs t = true -> is_ptr q = true ->
  rb_find t (OBJ_ID_INIT q b) = Some o -> owner (obj_id o) = q.
Proof.
  intros Ht Hq Hf.
  assert (Hc := rb_find_cmp _ _ _ Hf). apply obj_id_cmp_zero in Hc as [Hc _].
  assert (is_ptr (owner (obj_id o)) = true) as Ho.
  { clear Hc. revert Hf. induction t as [|l IHl x r IHr]; simpl in *; [discriminate|].
    apply andb_prop in Ht as [Ht Hr]. apply andb_prop in Ht as [Ht Hxb].
    apply andb_prop in Ht as [Hl Hxo].
    destruct (_ <? 0); [auto|]. destruct (_ >? 0); [auto|].
    intros [= <-]. exact Hxo. }
  simpl in Hc. symmetry. apply size_t_zero; auto.
Qed.

(** The search walks the right spine and stops at the first equal id. *)
Lemma rb_find_spine (t : rb_root) (id : obj_id_t) :
  rb_find t id = List.find (fun o => obj_id_cmp id (obj_id o) =? 0) (spine t).
Proof.
  induction t as [|l IHl x r IHr]; simpl; [reflexivity|].
  destruct (obj_id_cmp_cases id (obj_id x)) as [_ [-> | ->]]; simpl; [reflexivity|exact IHr].
Qed.

(** A new entry is linked at the end of the right spine. *)
Lemma rb_link_fresh (t : rb_root) (new_obj : binder_obj) :
  rb_find t (obj_id new_obj) = None ->
  exists t', rb_link t new_obj = inr t' /\ spine t' = spine t ++ [new_obj].
Proof.
  induction t as [|l IHl x r IHr]; simpl.
  - intros _. eexists. split; reflexivity.
  - destruct (obj_id_cmp_cases (obj_id new_obj) (obj_id x)) as [_ [-> | ->]]; simpl;
      [discriminate|].
    intros H. destruct (IHr H) as (r' & -> & Hs). eexists. split; [reflexivity|].
    simpl. rewrite Hs. reflexivity.
Qed.

Lemma rb_link_known (t : rb_root) (new_obj o : binder_obj) :
  rb_find t (obj_id new_obj) = Some o -> rb_link t new_obj = inl o.
Proof.
  induction t as [|l IHl x r IHr]; simpl; [discriminate|].
  destruct (obj_id_cmp_cases (obj_id new_obj) (obj_id x)) as [_ [-> | ->]]; simpl.
  - intros [= <-]. reflexivity.
  - intros H. rewrite (IHr H). reflexivity.
Qed.

(** In a list drawn from [l ++ [x]] that ends in [x], the first element with
    a property that [x] has and no element of [l] has is [x]. *)
Lemma find_last {A : Type} (P : A -> bool) (l l2 : list A) (x : A) :
  P x = true ->
  (forall y, In y l -> P y = false) ->
  (forall y, In y l2 -> In y (l ++ [x])) ->
  last l2 = Some x ->
  List.find P l2 = Some x.
Proof.
  intros Hx Hl. induction l2 as [|a l2 IH]; intros Hsub Hlast; [discriminate|].
  simpl. destruct (P a) eqn:Ha.
  - destruct (in_app_or _ _ _ (Hsub a (or_introl eq_refl))) as [Hin|[->|[]]].
    + rewrite (Hl a Hin) in Ha. discriminate.
    + reflexivity.
  - destruct l2 as [|b l2].
    + simpl in Hlast. injection Hlast as ->. congruence.
    + apply IH; [|exact Hlast]. intros y Hy. apply Hsub. right. exact Hy.
Qed.

Lemma find_none_all {A : Type} (P : A -> bool) (l : list A) :
  List.find P l = None -> forall y, In y l -> P y = false.
Proof.
  induction l as [|a l IH]; simpl; [tauto|].
  destruct (P a) eqn:Ha; [discriminate|]. intros H y [<-|Hy]; auto.
Qed.

(** An entry the table does not know is created and found afterwards,
    whatever [rb_insert_color] rotates. *)
Lemma new_obj_fresh (env : environ) (proc : binder_proc) (o b : Z) :
  kmalloc env = true ->
  spine_kept (rb_insert_color env) ->
  _binder_find_obj proc o b = None ->
  let new_obj := {| obj_id := OBJ_ID_INIT o b; real_cookie := 0; notifiers := [] |} in
  exists proc',
    _binder_new_obj env proc o b = (proc', Some new_obj)
    /\ pr_queue proc' = pr_queue proc
    /\ _binder_find_obj proc' o b = Some new_obj.
Proof.
  intros Hk Hkept Hfind new_obj. unfold _binder_new_obj, _binder_find_obj in *.
  rewrite Hk. simpl negb. cbv iota. fold new_obj.
  change (OBJ_ID_INIT o b) with (obj_id new_obj) in Hfind.
  destruct (rb_link_fresh _ _ Hfind) as (t' & -> & Hs).
  eexists. split; [reflexivity|]. split; [reflexivity|]. simpl.
  destruct (Hkept t') as [Hsub Hlast].
  rewrite rb_find_spine. rewrite rb_find_spine in Hfind.
  apply (find_last _ (spine (pr_obj_tree proc))).
  - simpl. rewrite obj_id_cmp_refl. reflexivity.
  - apply find_none_all. exact Hfind.
  - intros y Hy. rewrite <- Hs. apply Hsub. exact Hy.
  - rewrite Hlast, Hs. apply last_snoc.
Qed.

Lemma new_obj_known (env : environ) (proc : binder_proc) (o b : Z) (obj : binder_obj) :
  kmalloc env = true ->
  _binder_find_obj proc o b = Some obj ->
  _binder_new_obj env proc o b = (proc, Some obj).
Proof.
  intros Hk Hfind. unfold _binder_new_obj, _binder_find_obj in *. rewrite Hk. simpl.
  rewrite (rb_link_known _ {| obj_id := OBJ_ID_INIT o b; real_cookie := 0; notifiers := [] |}
             obj Hfind). reflexivity.
Qed.

(** A store through the pointer a search returned is seen by later searches. *)
Lemma rb_find_store (f : binder_obj -> binder_obj) (t : rb_root) (id : obj_id_t) :
  (forall o, obj_id (f o) = obj_id o) ->
  rb_find (rb_store f t id) id = f <$> rb_find t id.
Proof.
  intros Hf. induction t as [|l IHl x r IHr]; simpl; [reflexivity|].
  destruct (obj_id_cmp id (obj_id x) <? 0) eqn:E1; simpl.
  - rewrite E1. exact IHl.
  - destruct (obj_id_cmp id (obj_id x) >? 0) eqn:E2; simpl.
    + rewrite E1, E2. exact IHr.
    + rewrite Hf, E1, E2. reflexivity.
Qed.

(** ** Flat-object translator *)

(** The write side at the owner: the descriptor leaves as a handle that
    carries the owner's queue, and the owner's table then holds the object
    with its cookie. *)
Lemma write_flat_obj_owner (env : environ) (A : binder_proc) (ty : binder_type) (b c : Z) :
  kmalloc env = true ->
  spine_kept (rb_insert_color env) ->
  is_binder_type ty = true ->
  is_ptr (pr_queue A) = true ->
  tree_ptrs (pr_obj_tree A) = true ->
  (forall o, binder_find_obj A b = Some o -> real_cookie o = c) ->
  exists A1 o,
    bcmd_write_flat_obj env A {| fb_type := ty; fb_binder := b; fb_cookie := c |}
    = Ret (0, A1, {| fb_type := handle_of ty; fb_binder := b; fb_cookie := pr_queue A |})
    /\ pr_queue A1 = pr_queue A
    /\ _binder_find_obj A1 (pr_queue A) b = Some o
    /\ real_cookie o = c.
Proof.
  intros Hk Hkept Hty Hq Ht Hc.
  unfold bcmd_write_flat_obj, handle_of.
  destruct ty; try discriminate Hty; simpl.
  all: destruct (binder_find_obj A b) as [o|] eqn:Hfind; simpl.
  1, 3: exists A, o; unfold set_fb; simpl;
        unfold binder_find_obj, _binder_find_obj in Hfind;
        rewrite (rb_find_owner _ _ _ _ Ht Hq Hfind); auto.
  all: unfold binder_new_obj.
  all: destruct (new_obj_fresh env A (pr_queue A) b Hk Hkept Hfind) as (A1 & -> & Hq1 & Hf1).
  all: simpl.
  all: eexists _, (set_real_cookie c _); split; [reflexivity|].
  all: split; [exact Hq1|]; split; [|reflexivity].
  all: unfold _binder_find_obj in *; simpl.
  all: rewrite rb_find_store by reflexivity; rewrite Hf1; reflexivity.
Qed.

(** The read side at a process that is not the owner: the handle goes
    through as it is, and the receiver's table knows it afterwards. *)
Lemma read_flat_obj_reference (env : environ) (B : binder_proc) (ty : binder_type) (b q : Z) :
  kmalloc env = true ->
  spine_kept (rb_insert_color env) ->
  is_binder_type ty = true ->
  q <> pr_queue B ->
  let d := {| fb_type := handle_of ty; fb_binder := b; fb_cookie := q |} in
  exists B2,
    bcmd_read_flat_obj env B d = (0, B2, d)
    /\ is_Some (_binder_find_obj B2 q b).
Proof.
  intros Hk Hkept Hty Hne d. unfold bcmd_read_flat_obj, d, handle_of.
  apply Z.eqb_neq in Hne.
  destruct (decide _); simpl.
  all: destruct (_binder_find_obj B q b) as [o|] eqn:Hfind.
  1, 3: rewrite Hne; exists B; rewrite Hfind; eauto.
  all: destruct (new_obj_fresh env B q b Hk Hkept Hfind) as (B2 & -> & _ & Hf2).
  all: exists B2; rewrite Hf2; eauto.
Qed.

(** The write side for a handle the sender knows: nothing changes. *)
Lemma write_flat_obj_handle (env : environ) (B : binder_proc) (ty : binder_type) (b q : Z) :
  is_binder_type ty = true ->
  is_Some (_binder_find_obj B q b) ->
  let d := {| fb_type := handle_of ty; fb_binder := b; fb_cookie := q |} in
  bcmd_write_flat_obj env B d = Ret (0, B, d).
Proof.
  intros Hty [o Ho] d. unfold bcmd_write_flat_obj. simpl.
  unfold handle_of. destruct (decide _); rewrite Ho; reflexivity.
Qed.

(** The read side at the owner: the type and the stored cookie come back. *)
Lemma read_flat_obj_owner (env : environ) (A : binder_proc) (ty : binder_type) (b : Z)
    (o : binder_obj) :
  is_binder_type ty = true ->
  _binder_find_obj A (pr_queue A) b = Some o ->
  bcmd_read_flat_obj env A {| fb_type := handle_of ty; fb_binder := b; fb_cookie := pr_queue A |}
  = (0, A, {| fb_type := ty; fb_binder := b; fb_cookie := real_cookie o |}).
Proof.
  intros Hty Ho. unfold bcmd_read_flat_obj. simpl.
  destruct ty; try discriminate; simpl; rewrite Ho, Z.eqb_refl; reflexivity.
Qed.

(** C1 (owner round trip).  A descriptor of type BINDER or WEAK_BINDER for a
    pointer [b] that process [A] owns with cookie [c] (or mentions for the
    first time with that cookie) is written at [A], read at a distinct
    process [B], written again at [B] and read back at [A]: every step
    returns 0, the descriptor travels as a handle that carries the queue of
    [A], and the descriptor that arrives has the original type, the binder
    [b] and the cookie [c] stored at [A].  Memory is there, and
    [rb_insert_color] does to the right spine what its rotations do. *)
Theorem owner_round_trip (env : environ) (A B : binder_proc) (ty : binder_type) (b c : Z) :
  kmalloc env = true ->
  spine_kept (rb_insert_color env) ->
  is_binder_type ty = true ->
  pr_queue A <> pr_queue B ->
  is_ptr (pr_queue A) = true ->
  tree_ptrs (pr_obj_tree A) = true ->
  (forall o, binder_find_obj A b = Some o -> real_cookie o = c) ->
  let sent := {| fb_type := ty; fb_binder := b; fb_cookie := c |} in
  let handle := {| fb_type := handle_of ty; fb_binder := b; fb_cookie := pr_queue A |} in
  exists A1 B2 A4,
    bcmd_write_flat_obj env A sent = Ret (0, A1, handle)
    /\ bcmd_read_flat_obj env B handle = (0, B2, handle)
    /\ bcmd_write_flat_obj env B2 handle = Ret (0, B2, handle)
    /\ bcmd_read_flat_obj env A1 handle = (0, A4, sent).
Proof.
  intros Hk Hkept Hty Hne Hq Ht Hc sent handle.
  destruct (write_flat_obj_owner env A ty b c Hk Hkept Hty Hq Ht Hc)
    as (A1 & o & H1 & Hq1 & Ho & Hco).
  destruct (read_flat_obj_reference env B ty b (pr_queue A) Hk Hkept Hty Hne) as (B2 & H2 & Hs).
  assert (H3 := write_flat_obj_handle env B2 ty b (pr_queue A) Hty Hs).
  rewrite <- Hq1 in Ho.
  assert (H4 := read_flat_obj_owner env A1 ty b o Hty Ho).
  rewrite Hq1, Hco in H4.
  exists A1, B2, A1. auto.
Qed.

(** ** Teardown of the object table *)

Lemma rb_first_none (t : rb_root) : rb_first t = None -> t = rb_nil.
Proof.
  induction t as [|l IHl x r IHr]; [reflexivity|]. simpl.
  destruct l; [discriminate|]. intros H. specialize (IHl H). discriminate.
Qed.

Lemma rb_first_some (t : rb_root) (obj : binder_obj) :
  rb_first t = Some obj ->
  inorder t = obj :: inorder (rb_erase_first t)
  /\ rb_count t = S (rb_count (rb_erase_first t)).
Proof.
  induction t as [|l IHl x r IHr]; [discriminate|].
  destruct l as [|ll lx lr].
  - simpl. intros [= ->]. auto.
  - intros H. change (rb_first (rb_node ll lx lr) = Some obj) in H.
    destruct (IHl H) as [H1 H2].
    change (inorder (rb_node (rb_node ll lx lr) x r))
      with (inorder (rb_node ll lx lr) ++ x :: inorder r).
    change (rb_erase_first (rb_node (rb_node ll lx lr) x r))
      with (rb_node (rb_erase_first (rb_node ll lx lr)) x r).
    change (rb_count (rb_node (rb_node ll lx lr) x r))
      with (S (rb_count (rb_node ll lx lr) + rb_count r)).
    rewrite H1, H2. simpl. auto.
Qed.

Lemma append_entries_nil (mq : msg_queue) : append_entries [] mq = mq.
Proof. destruct mq. unfold append_entries, set_entries. simpl. rewrite app_nil_r. reflexivity. Qed.

Lemma append_entries_app (l1 l2 : list bcmd_msg) (mq : msg_queue) :
  append_entries l2 (append_entries l1 mq) = append_entries (l1 ++ l2) mq.
Proof. unfold append_entries, set_entries. simpl. rewrite app_assoc. reflexivity. Qed.

Lemma fmap_append_entries_nil (o : option msg_queue) : append_entries [] <$> o = o.
Proof. destruct o; simpl; [rewrite append_entries_nil|]; reflexivity. Qed.

(** A write to an open queue succeeds and appends. *)
Lemma bcmd_write_msg_open (qs : gmap Z msg_queue) (q : Z) (msg : bcmd_msg) :
  q_open qs q = true ->
  exists mq, qs !! q = Some mq
    /\ bcmd_write_msg qs q msg = (0, <[q := append_entries [msg] mq]> qs).
Proof.
  unfold q_open, bcmd_write_msg, get_msg_queue, _bcmd_write_msg, write_msg_queue.
  destruct (qs !! q) as [mq|]; [|discriminate].
  intros H. exists mq. split; [reflexivity|]. simpl.
  destruct (q_closed mq); [discriminate|]. reflexivity.
Qed.

Lemma q_open_append (qs qs' : gmap Z msg_queue) (f : Z -> list bcmd_msg) :
  (forall q, qs' !! q = append_entries (f q) <$> qs !! q) ->
  forall q, q_open qs' q = q_open qs q.
Proof.
  intros H q. unfold q_open. rewrite H. destruct (qs !! q); reflexivity.
Qed.

Lemma append_entries_if (b : bool) (l : list bcmd_msg) (o : option msg_queue) :
  append_entries (if b then l else []) <$> o = if b then append_entries l <$> o else o.
Proof. destruct b; [reflexivity|apply fmap_append_entries_nil]. Qed.

(** A write is taken by a queue that exists and is not closed, and only by
    such a queue; it changes no other queue and neither opens nor closes
    one. *)
Lemma bcmd_write_msg_code (qs : gmap Z msg_queue) (q : Z) (msg : bcmd_msg) :
  exists qs',
    bcmd_write_msg qs q msg = (write_code qs q, qs')
    /\ ((write_code qs q =? 0) = q_open qs q)
    /\ forall q', qs' !! q' =
                  append_entries (if q_open qs q && (q =? q') then [msg] else [])
                  <$> qs !! q'.
Proof.
  unfold bcmd_write_msg, get_msg_queue, _bcmd_write_msg, write_msg_queue, write_code, q_open.
  destruct (qs !! q) as [mq|] eqn:Hq; simpl.
  - destruct (q_closed mq); simpl.
    + exists qs. split; [reflexivity|]. split; [reflexivity|].
      intros q'. rewrite fmap_append_entries_nil. reflexivity.
    + eexists. split; [reflexivity|]. split; [reflexivity|].
      intros q'. destruct (Z.eqb_spec q q') as [<-|Hne].
      * rewrite lookup_insert_eq, Hq. reflexivity.
      * rewrite lookup_insert_ne by exact Hne. rewrite fmap_append_entries_nil. reflexivity.
  - exists qs. split; [reflexivity|]. split; [reflexivity|].
    intros q'. rewrite fmap_append_entries_nil. reflexivity.
Qed.

Lemma write_code_append (qs qs' : gmap Z msg_queue) (f : Z -> list bcmd_msg) :
  (forall q, qs' !! q = append_entries (f q) <$> qs !! q) ->
  forall q, write_code qs' q = write_code qs q.
Proof.
  intros H q. unfold write_code. rewrite H. destruct (qs !! q); reflexivity.
Qed.

Lemma fire_events_ext (qs qs' : gmap Z msg_queue) (obj : binder_obj)
    (l : list binder_notifier) :
  (forall q, write_code qs' q = write_code qs q) ->
  flat_map (fire_events qs' obj) l = flat_map (fire_events qs obj) l.
Proof.
  intros H. induction l as [|n ns IH]; [reflexivity|].
  cbn [flat_map]. rewrite IH. unfold fire_events. rewrite H. reflexivity.
Qed.

Lemma obj_events_ext (qs qs' : gmap Z msg_queue) (queue : Z) (l : list binder_obj) :
  (forall q, write_code qs' q = write_code qs q) ->
  flat_map (obj_events qs' queue) l = flat_map (obj_events qs queue) l.
Proof.
  intros H. induction l as [|o os IH]; [reflexivity|].
  cbn [flat_map]. rewrite IH. unfold obj_events.
  destruct (is_owned queue o); [|reflexivity].
  rewrite (fire_events_ext qs qs' o _ H). reflexivity.
Qed.

(** The walk over the notifiers of one owned entry, with a message at hand
    or none: the message at hand is one a failed write left, and what is
    written for a notifier is its death message all the same. *)
Lemma fire_notifiers_spec (env : environ) (obj : binder_obj) (l : list binder_notifier) :
  kmalloc env = true ->
  forall (msg : option bcmd_msg) (qs : gmap Z msg_queue) (log : list teardown_event),
  (forall m n, msg = Some m -> dead_binder_msg m obj n = death_msg obj n) ->
  exists ok qs',
    fire_notifiers env obj l msg qs log = (ok, qs', log ++ flat_map (fire_events qs obj) l)
    /\ ok = true
    /\ forall q,
         qs' !! q =
         append_entries
           (if q_open qs q
            then flat_map (fun n => if nt_notify_queue n =? q then [death_msg obj n] else []) l
            else [])
         <$> qs !! q.
Proof.
  intros Hk. induction l as [|n rest IH]; intros msg qs log Hmsg.
  - exists true, qs. simpl. rewrite app_nil_r. split; [reflexivity|]. split; [reflexivity|].
    intros q. destruct (q_open qs q); rewrite fmap_append_entries_nil; reflexivity.
  - assert (exists m, match msg with
                      | Some m => Some m
                      | None => if kmalloc env then Some (blank_msg (blank_buf 0 0 0)) else None
                      end = Some m
                      /\ dead_binder_msg m obj n = death_msg obj n) as (m & Hm & Hdm).
    { destruct msg as [m|]; [exists m; split; [reflexivity|exact (Hmsg m n eq_refl)]|].
      rewrite Hk. eexists. split; reflexivity. }
    destruct (bcmd_write_msg_code qs (nt_notify_queue n) (death_msg obj n))
      as (qs1 & Hw & Hcode & Hqs1).
    assert (forall q, q_open qs1 q = q_open qs q) as Hopen
      by exact (q_open_append qs qs1 _ Hqs1).
    assert (forall q, write_code qs1 q = write_code qs q) as Hcode1
      by exact (write_code_append qs qs1 _ Hqs1).
    destruct (IH (if write_code qs (nt_notify_queue n) =? 0 then None
                  else Some (death_msg obj n)) qs1
                 ((log ++ [ev_list_del (obj_id obj) n])
                    ++ [ev_write (nt_notify_queue n) (death_msg obj n)
                                 (write_code qs (nt_notify_queue n))]))
      as (ok & qs' & Hfire & Hok & Hlook).
    { intros m0 n0. destruct (_ =? 0); [discriminate|]. intros [= <-]. reflexivity. }
    exists ok, qs'. split; [|split; [exact Hok|]].
    + simpl. rewrite Hm, Hdm, Hw. rewrite Hfire.
      rewrite (fire_events_ext qs qs1 obj rest Hcode1). rewrite <- !app_assoc. reflexivity.
    + intros q. rewrite Hlook, Hqs1, Hopen.
      destruct (qs !! q) as [mq|]; simpl; [|reflexivity].
      rewrite append_entries_app. f_equal. f_equal.
      destruct (q_open qs q) eqn:Hoq; simpl.
      * destruct (Z.eqb_spec (nt_notify_queue n) q) as [->|Hne].
        -- rewrite Hoq. reflexivity.
        -- rewrite andb_false_r. reflexivity.
      * destruct (Z.eqb_spec (nt_notify_queue n) q) as [->|Hne].
        -- rewrite Hoq. reflexivity.
        -- rewrite andb_false_r. reflexivity.
Qed.

(** The loop over the object table. *)
Lemma free_objs_spec (env : environ) (queue : Z) :
  kmalloc env = true ->
  forall (k : nat) (t : rb_root) (qs : gmap Z msg_queue) (log : list teardown_event),
  (rb_count t <= k)%nat ->
  forallb (ref_bare queue) (inorder t) = true ->
  exists qs',
    free_objs k env queue t qs log
    = Ret (0, qs', log ++ flat_map (obj_events qs queue) (inorder t))
    /\ forall q,
         qs' !! q =
         append_entries
           (if q_open qs q then flat_map (obj_deliveries queue q) (inorder t) else [])
         <$> qs !! q.
Proof.
  intros Hk.
  assert (forall qs q, append_entries (if q_open qs q then [] else []) <$> qs !! q = qs !! q)
    as Hnil by (intros qs q; destruct (q_open qs q); apply fmap_append_entries_nil).
  induction k as [|k IH]; intros t qs log Hcount Hready.
  - destruct t; [|simpl in Hcount; lia]. exists qs. simpl. rewrite app_nil_r.
    split; [reflexivity|]. intros q. rewrite Hnil. reflexivity.
  - destruct (rb_first t) as [obj|] eqn:Hfirst.
    + destruct (rb_first_some t obj Hfirst) as [Hin Hc].
      rewrite Hin in *. simpl in Hready. apply andb_prop in Hready as [Hobj Hrest].
      assert (rb_count (rb_erase_first t) <= k)%nat as Hcount' by lia.
      simpl free_objs. rewrite Hfirst.
      unfold ref_bare in Hobj. simpl flat_map.
      unfold obj_events at 1.
      change (owner (obj_id obj) =? queue) with (is_owned queue obj).
      destruct (is_owned queue obj) eqn:Hown; simpl negb; cbv iota.
      * destruct (fire_notifiers_spec env obj (notifiers obj) Hk None qs log)
          as (ok & qs1 & Hfire & -> & Hlook1); [discriminate|].
        rewrite Hfire.
        assert (forall q, q_open qs1 q = q_open qs q) as Hopen
          by exact (q_open_append qs qs1 _ Hlook1).
        assert (forall q, write_code qs1 q = write_code qs q) as Hcode1
          by exact (write_code_append qs qs1 _ Hlook1).
        destruct (IH (rb_erase_first t) qs1
                    (log ++ flat_map (fire_events qs obj) (notifiers obj)) Hcount' Hrest)
          as (qs' & Hfree & Hlook).
        exists qs'. split.
        -- rewrite Hfree, (obj_events_ext qs qs1 queue _ Hcode1), <- app_assoc. reflexivity.
        -- intros q. rewrite Hlook, Hlook1, Hopen. unfold obj_deliveries at 2. rewrite Hown.
           destruct (qs !! q); simpl; [|reflexivity].
           rewrite append_entries_app. destruct (q_open qs q); reflexivity.
      * simpl in Hobj. destruct (notifiers obj) as [|n ns]; [|discriminate].
        destruct (IH (rb_erase_first t) qs (log ++ [ev_kfree_obj (obj_id obj)]) Hcount' Hrest)
          as (qs' & Hfree & Hlook).
        exists qs'. split.
        -- rewrite Hfree, <- app_assoc. reflexivity.
        -- intros q. rewrite Hlook. unfold obj_deliveries at 2. rewrite Hown. reflexivity.
    + apply rb_first_none in Hfirst. subst t. exists qs. simpl. rewrite app_nil_r.
      split; [reflexivity|]. intros q. rewrite Hnil. reflexivity.
Qed.

(** ** The drain before the walk *)

Lemma bcmd_write_msg_q_open (qs qs' : gmap Z msg_queue) (q r : Z) (msg : bcmd_msg) :
  bcmd_write_msg qs q msg = (r, qs') -> forall q0, q_open qs' q0 = q_open qs q0.
Proof.
  intros H. destruct (bcmd_write_msg_code qs q msg) as (qs1 & Hw & _ & Hl).
  rewrite Hw in H. injection H as _ <-. exact (q_open_append qs qs1 _ Hl).
Qed.

Lemma drop_entries_q_open (l : list bcmd_msg) :
  forall qs qs', drop_entries free_queued_msg qs l = Ret qs' ->
                 forall q0, q_open qs' q0 = q_open qs q0.
Proof.
  induction l as [|m rest IH]; intros qs qs' H q0; simpl in H.
  - injection H as <-. reflexivity.
  - unfold mbind, run_bind in H.
    destruct (free_queued_msg qs m) as [qs1| | |] eqn:E; try discriminate.
    rewrite (IH _ _ H). unfold free_queued_msg in E.
    destruct (decide (msg_type m = BC_TRANSACTION)); [|injection E as <-; reflexivity].
    destruct (msg_reply_queue m =? NULL); [discriminate|].
    simpl in E.
    destruct (bcmd_write_msg qs (msg_reply_queue m) (set_msg_type BC_DEAD_BINDER m))
      as [r1 qs2] eqn:Hw.
    injection E as <-. exact (bcmd_write_msg_q_open _ _ _ _ _ Hw q0).
Qed.

Lemma free_msg_queue_q_open (qs qs' : gmap Z msg_queue) (q : Z) :
  free_msg_queue free_queued_msg qs q = Ret qs' ->
  q_open qs' q = false /\ forall q0, q_open qs' q0 = true -> q_open qs q0 = true.
Proof.
  unfold free_msg_queue. destruct (qs !! q) as [mq|] eqn:Hq.
  - intros H. assert (Ho := drop_entries_q_open _ _ _ H). split.
    + rewrite Ho. unfold q_open. rewrite lookup_insert_eq. reflexivity.
    + intros q0. rewrite Ho. unfold q_open. destruct (Z.eq_dec q0 q) as [->|Hne].
      * rewrite lookup_insert_eq. discriminate.
      * rewrite lookup_insert_ne by congruence. auto.
  - intros [= <-]. split; [unfold q_open; rewrite Hq; reflexivity|auto].
Qed.

Lemma fail_incoming_q_open (l : list bcmd_msg) :
  forall qs qs', fail_incoming qs l = Ret qs' -> forall q0, q_open qs' q0 = q_open qs q0.
Proof.
  induction l as [|m rest IH]; intros qs qs' H q0; simpl in H.
  - injection H as <-. reflexivity.
  - destruct (msg_reply_queue m =? NULL); [discriminate|].
    destruct (bcmd_write_msg qs (msg_reply_queue m) (set_msg_type BC_DEAD_BINDER m))
      as [r1 qs1] eqn:Hw.
    rewrite (IH _ _ H). exact (bcmd_write_msg_q_open _ _ _ _ _ Hw q0).
Qed.

Lemma free_threads_q_open (l : list binder_thread) :
  forall qs qs', free_threads qs l = Ret qs' ->
                 forall q0, q_open qs' q0 = true -> q_open qs q0 = true.
Proof.
  induction l as [|t rest IH]; intros qs qs' H q0 Ho; simpl in H.
  - injection H as <-. exact Ho.
  - unfold mbind, run_bind in H.
    destruct (binder_free_thread qs t) as [qs1| | |] eqn:E; try discriminate.
    apply (IH _ _ H) in Ho. unfold binder_free_thread in E. unfold mbind, run_bind in E.
    destruct (free_msg_queue free_queued_msg qs (th_queue t)) as [qs2| | |] eqn:E2;
      try discriminate.
    rewrite (fail_incoming_q_open _ _ _ E) in Ho.
    exact (proj2 (free_msg_queue_q_open _ _ _ E2) q0 Ho).
Qed.

(** Once the drain is through, the queue of the process takes no write. *)
Lemma drain_closes_own_queue (qs qs2 : gmap Z msg_queue) (proc : binder_proc) :
  drain_queues qs proc = Ret qs2 -> q_open qs2 (pr_queue proc) = false.
Proof.
  unfold drain_queues. unfold mbind, run_bind.
  destruct (free_msg_queue free_queued_msg qs (pr_queue proc)) as [qs1| | |] eqn:E;
    try discriminate.
  intros H. apply not_true_iff_false. intros Ho.
  apply (free_threads_q_open _ _ _ H) in Ho.
  rewrite (proj1 (free_msg_queue_q_open _ _ _ E)) in Ho. discriminate.
Qed.

(** C2 (death fan-out), as amended.  When a process record is freed, with
    memory to hand out and no notifier on a mere reference, then, once the
    queues of the process and of its threads are drained, the walk over the
    object table does this and nothing else, entry by entry: a reference is
    freed; for an owned entry each notifier is first taken off the list and
    then one message of type BC_DEAD_BINDER with the notifier's cookie is
    written to the notifier's queue.  A queue that exists and is not closed
    takes the message: it ends with exactly these messages appended, one for
    each notifier that names it.  The write to any other queue fails, the
    failure is dropped and nothing is enqueued; the queue of the process
    itself is such a queue, the drain having closed it. *)
Theorem death_fan_out (env : environ) (qs qs2 : gmap Z msg_queue) (proc : binder_proc) :
  kmalloc env = true ->
  drain_queues qs proc = Ret qs2 ->
  forallb (ref_bare (pr_queue proc)) (inorder (pr_obj_tree proc)) = true ->
  exists qs',
    binder_free_proc env qs proc
    = Ret (0, qs', flat_map (obj_events qs2 (pr_queue proc)) (inorder (pr_obj_tree proc)))
    /\ (forall q,
          qs' !! q =
          append_entries
            (if q_open qs2 q
             then flat_map (obj_deliveries (pr_queue proc) q) (inorder (pr_obj_tree proc))
             else [])
          <$> qs2 !! q)
    /\ q_open qs2 (pr_queue proc) = false
    /\ (forall obj n,
          msg_type (death_msg obj n) = BC_DEAD_BINDER
          /\ msg_cookie (death_msg obj n) = nt_cookie n
          /\ msg_obj_id (death_msg obj n) = obj_id obj).
Proof.
  intros Hk Hdrain Hready.
  destruct (free_objs_spec env (pr_queue proc) Hk (rb_count (pr_obj_tree proc))
              (pr_obj_tree proc) qs2 [] (le_n _) Hready) as (qs' & Hfree & Hlook).
  exists qs'. split; [|split; [exact Hlook|split; [exact (drain_closes_own_queue _ _ _ Hdrain)|]]].
  - unfold binder_free_proc. unfold drain_queues in Hdrain.
    destruct (free_msg_queue free_queued_msg qs (pr_queue proc)) as [qs1| | |];
      simpl in Hdrain |- *; try discriminate.
    rewrite Hdrain. simpl. exact Hfree.
  - intros obj n. repeat split.
Qed.

(** ** Write dispatcher *)

Ltac case_if_in H :=
  match type of H with
  | context [if ?c then _ else _] => destruct c eqn:?
  | context [match ?c with _ => _ end] => destruct c eqn:?
  end.

Lemma cmd_size_ge (bh : binder_h) (c : cmd_t) : sizeof_cmd <= cmd_size bh c.
Proof.
  unfold cmd_size, sizeof_tdata, sizeof_notifier_data, sizeof_ptr, sizeof_cmd.
  destruct c; lia.
Qed.

Lemma stream_size_ge (bh : binder_h) (cs : list cmd_t) :
  sizeof_cmd * Z.of_nat (length cs) <= stream_size bh cs.
Proof.
  induction cs as [|c cs IH]; simpl; [lia|].
  assert (H := cmd_size_ge bh c). unfold sizeof_cmd in *. lia.
Qed.

Lemma stream_size_app (bh : binder_h) (cs cs' : list cmd_t) :
  stream_size bh (cs ++ cs') = stream_size bh cs + stream_size bh cs'.
Proof. induction cs as [|c cs IH]; simpl; [reflexivity|]. rewrite IH. lia. Qed.

Lemma stream_at_app (bh : binder_h) (env : environ) (cs cs' : list cmd_t) (a : Z) :
  stream_at bh env a (cs ++ cs') ->
  stream_at bh env a cs /\ stream_at bh env (a + stream_size bh cs) cs'.
Proof.
  revert a. induction cs as [|c cs IH]; intros a; simpl.
  - rewrite Z.add_0_r. auto.
  - intros [Hc H]. destruct (IH _ H) as [H1 H2]. rewrite Z.add_assoc. auto.
Qed.

(** A command that does not end the write moves [p] past its record. *)
Lemma write_one_next (bh : binder_h) (fuel : nat) (env : environ) (s s' : state)
    (p ep p' e : Z) (c : cmd_t) :
  u_cmd env p = Some c ->
  write_one bh fuel env s p ep = Ret (inl (p', e), s') ->
  p' = p + cmd_size bh c.
Proof.
  intros Hc H. unfold write_one in H. rewrite Hc in H.
  destruct c; simpl in H; try discriminate H.
  1, 2: destruct (_ >? ep); [discriminate|];
        destruct (u_tdata env _); [|discriminate];
        destruct (_ && _); [discriminate|];
        destruct (bcmd_write_transaction _ _ _ _ _ _) as [[r0 s0]| | |]; simpl in H;
        try discriminate; injection H as <- _ _; unfold cmd_size; lia.
  1, 2: destruct (_ >? ep); [discriminate|];
        destruct (u_notifier env _); [|discriminate];
        destruct (bcmd_write_notifier _ _ _ _) as [[r0 s0]| | |]; simpl in H;
        try discriminate; injection H as <- _ _; unfold cmd_size; lia.
  all: destruct (bcmd_write_looper _ _ _) as [[r0 s0]| | |]; simpl in H;
       try discriminate; injection H as <- _ _; reflexivity.
Qed.

(** The value a command ends the write with is an errno. *)
Lemma write_one_stop (bh : binder_h) (fuel : nat) (env : environ) (s s' : state) (p ep e : Z) :
  write_one bh fuel env s p ep = Ret (inr e, s') -> e = - EFAULT \/ e = - EINVAL.
Proof.
  intros H. unfold write_one in H.
  destruct (u_cmd env p) as [c|]; [|injection H as <- _; auto].
  destruct c; simpl in H; unfold mbind, run_bind in H;
    repeat (first [ discriminate H
                  | injection H as <- _; auto; fail
                  | case_if_in H; simpl in H ]).
Qed.

(** The test at the head of the write loop. *)
Lemma write_loop_stop (bh : binder_h) (fuel n : nat) (env : environ) (s : state)
    (buf p ep err : Z) :
  ep <= p + sizeof_cmd ->
  write_loop bh fuel n env s buf p ep err = Ret (p - buf, s).
Proof.
  intros H. destruct n; simpl; destruct (Z.ltb_spec (p + sizeof_cmd) ep); try lia; reflexivity.
Qed.

(** With one more command word after them, the records [cs] are all run,
    and the loop stops in front of that word. *)
Lemma write_loop_records (bh : binder_h) (fuel : nat) (env : environ) (buf ep : Z)
    (cs : list cmd_t) :
  forall (n : nat) (s : state) (p err : Z),
  stream_at bh env p cs ->
  (length cs <= n)%nat ->
  ep = p + stream_size bh cs + sizeof_cmd ->
  write_loop bh fuel n env s buf p ep err = write_records bh fuel env s buf p ep cs.
Proof.
  induction cs as [|c cs IH]; intros n s p err Hat Hn Hep.
  - simpl in Hep. simpl write_records. apply write_loop_stop. lia.
  - destruct Hat as [Hc Hat]. simpl in Hep, Hn.
    destruct n as [|n]; [lia|].
    assert (H1 := cmd_size_ge bh c). assert (H2 := stream_size_ge bh cs).
    simpl. destruct (Z.ltb_spec (p + sizeof_cmd) ep); [|unfold sizeof_cmd in *; lia].
    simpl. destruct (write_one bh fuel env s p ep) as [[[[p' e]|e] s']| | |] eqn:Hw;
      simpl; try reflexivity.
    rewrite (write_one_next _ _ _ _ _ _ _ _ _ _ Hc Hw) in *.
    apply IH; [exact Hat|lia|lia].
Qed.

Lemma write_records_result (bh : binder_h) (fuel : nat) (env : environ) (buf ep : Z)
    (cs : list cmd_t) :
  forall (s : state) (p r : Z) (s' : state),
  stream_at bh env p cs ->
  write_records bh fuel env s buf p ep cs = Ret (r, s') ->
  r = p + stream_size bh cs - buf \/ r = - EFAULT \/ r = - EINVAL.
Proof.
  induction cs as [|c cs IH]; intros s p r s' Hat H.
  - simpl in H. injection H as <- _. simpl. left. lia.
  - destruct Hat as [Hc Hat]. simpl in H.
    destruct (write_one bh fuel env s p ep) as [[[[p' e]|e] s1]| | |] eqn:Hw;
      simpl in H; try discriminate.
    + rewrite (write_one_next _ _ _ _ _ _ _ _ _ _ Hc Hw) in *.
      destruct (IH _ _ _ _ Hat H) as [->|Herr]; [left; simpl; lia|auto].
    + injection H as <- _. right. exact (write_one_stop _ _ _ _ _ _ _ _ Hw).
Qed.

(** C10 (the last command word of a write buffer).  The write loop runs a
    command at [p] only while [p + sizeof(bcmd) < ep].  When the buffer holds
    the records [cs] followed by a bare command [c] that ends where the buffer
    ends, [binder_thread_write] runs the records [cs] and not [c]: it does
    what the dispatcher does over [cs] alone, and a count it returns is the
    number of bytes in front of [c]. *)
Theorem write_skips_final_command (bh : binder_h) (fuel : nat) (env : environ) (s : state)
    (buf : Z) (cs : list cmd_t) (c : cmd_t) :
  stream_at bh env buf (cs ++ [c]) ->
  cmd_size bh c = sizeof_cmd ->
  let size := stream_size bh (cs ++ [c]) in
  (forall n s1 p err,
      buf + size <= p + sizeof_cmd ->
      write_loop bh fuel n env s1 buf p (buf + size) err = Ret (p - buf, s1))
  /\ binder_thread_write bh fuel env s buf size
     = write_records bh fuel env s buf buf (buf + size) cs
  /\ (forall r s',
        binder_thread_write bh fuel env s buf size = Ret (r, s') ->
        0 <= r -> r = size - sizeof_cmd).
Proof.
  intros Hat Hc size.
  apply stream_at_app in Hat as [Hcs _].
  assert (size = stream_size bh cs + sizeof_cmd) as Hsize.
  { unfold size. rewrite stream_size_app. simpl. lia. }
  assert (binder_thread_write bh fuel env s buf size
          = write_records bh fuel env s buf buf (buf + size) cs) as Hrun.
  { unfold binder_thread_write. apply write_loop_records; [exact Hcs| |lia].
    assert (H := stream_size_ge bh cs). unfold sizeof_cmd in *. lia. }
  split; [|split].
  - intros n s1 p err Hp. apply write_loop_stop. exact Hp.
  - exact Hrun.
  - intros r s' Hr Hpos. rewrite Hrun in Hr.
    destruct (write_records_result _ _ _ _ _ _ _ _ _ _ Hcs Hr) as [->|[->| ->]];
      unfold EFAULT, EINVAL in *; lia.
Qed.

(** X6.  A write buffer of four bytes: [binder_thread_write] runs
    nothing and returns 0, whatever the command. *)
Lemma write_four_bytes (bh : binder_h) (fuel : nat) (env : environ) (s : state) (buf : Z) :
  binder_thread_write bh fuel env s buf 4 = Ret (0, s).
Proof.
  unfold binder_thread_write. rewrite write_loop_stop by (unfold sizeof_cmd; lia).
  rewrite Z.sub_diag. reflexivity.
Qed.

(** ** Read dispatcher *)


Lemma msg_queue_empty_entries (qs : gmap Z msg_queue) (q : Z) :
  msg_queue_empty qs q = true <-> entries_of qs q = [].
Proof.
  unfold msg_queue_empty, entries_of. destruct (qs !! q) as [mq|]; [|tauto].
  destruct (q_entries mq); split; congruence.
Qed.

Lemma read_from_thread_iff (s : state) :
  0 <= th_pending_replies (thread s) ->
  read_from_thread s = true
  <-> entries_of (queues s) (th_queue (thread s)) <> [] \/ 0 < th_pending_replies (thread s).
Proof.
  intros Hp. unfold read_from_thread. rewrite orb_true_iff, !negb_true_iff.
  rewrite Z.eqb_neq, <- not_true_iff_false, msg_queue_empty_entries.
  split; (intros [H|H]; [left; exact H|right; lia]).
Qed.

(** A queue read takes the head entry of the queue it names and leaves the
    other queues as they are. *)
Lemma read_msg_queue_head (qs qs' : gmap Z msg_queue) (q r : Z) (msg : option bcmd_msg) :
  read_msg_queue qs q = Ret (r, msg, qs') ->
  msg = head (entries_of qs q)
  /\ entries_of qs' q = tail (entries_of qs q)
  /\ forall q', q' <> q -> qs' !! q' = qs !! q'.
Proof.
  unfold read_msg_queue, entries_of.
  destruct (qs !! q) as [mq|] eqn:Hq.
  - destruct (q_entries mq) as [|m rest] eqn:He.
    + destruct (q_closed mq); [|destruct (q_non_block mq); [|discriminate]];
        intros [= <- <- <-]; rewrite Hq, He; auto.
    + intros [= <- <- <-]. rewrite lookup_insert_eq. simpl. split; [reflexivity|].
      split; [reflexivity|]. intros q' Hne. apply lookup_insert_ne. congruence.
  - intros [= <- <- <-]. rewrite Hq. auto.
Qed.

Lemma bcmd_read_msg_head (qs qs' : gmap Z msg_queue) (q r : Z) (msg : option bcmd_msg) :
  bcmd_read_msg qs q = Ret (r, msg, qs') ->
  msg = head (entries_of qs q)
  /\ entries_of qs' q = tail (entries_of qs q)
  /\ forall q', q' <> q -> qs' !! q' = qs !! q'.
Proof.
  unfold bcmd_read_msg, get_msg_queue, _bcmd_read_msg.
  destruct (qs !! q) as [mq|] eqn:Hq; simpl.
  - apply read_msg_queue_head.
  - intros [= <- <- <-]. unfold entries_of. rewrite Hq. auto.
Qed.


(** C8, the code at the failing input.  Two transactions of 100 bytes wait
    in the queue of the process, the spawn gate is shut ([max_threads] is 0)
    and the read buffer has 64 bytes.  The spawn check stores nothing and
    counts four bytes; the round then finds the first transaction too large:
    the handler returns -ENOSPC with the message kept, the round puts it back
    at the head of the queue of the process and the loop stops, the state
    being the one before the call.  [binder_thread_read] returns 4, with
    nothing stored in the read buffer. *)
Theorem read_tight_fit (fuel : nat) :
  let m := msg_of BC_TRANSACTION 100 in
  let s := with_pool [m; m] in
  bcmd_spawn_on_busy env0 s 0 64 = (sizeof_cmd, s)
  /\ bcmd_read_transaction bh0 fuel env0 (set_queues (pop_head (queues s) qA) s) m 4 60
     = Ret (- ENOSPC, Some m, set_queues (pop_head (queues s) qA) s)
  /\ read_round bh0 fuel env0 s 0 4 60 = Ret (round_return 4 s)
  /\ binder_thread_read bh0 fuel env0 s 0 64 = Ret (4, s)
  /\ user_out s = []
  /\ entries_of (queues s) qA = [m; m].
Proof.
  intros m s.
  split; [vm_compute; reflexivity|]. split; [vm_compute; reflexivity|].
  split; [vm_compute; reflexivity|]. split; [vm_compute; reflexivity|].
  split; reflexivity.
Qed.

(** ** Looper controller *)

Lemma app_one_neq {A : Type} (l : list A) (x : A) : l ++ [x] <> l.
Proof.
  intros H. apply (f_equal (@length A)) in H. rewrite length_app in H. simpl in H. lia.
Qed.

(** The spawn check when the gate is open and when it is shut. *)
Lemma spawn_on_busy_cases (env : environ) (s : state) (buf size : Z) :
  sizeof_cmd <= size ->
  u_put env buf = true ->
  is_Some (queues s !! pr_queue (proc s)) ->
  msg_queue_size (queues s) (pr_queue (proc s)) < 2 ^ 64 ->
  bcmd_spawn_on_busy env s buf size =
  if spawn_gate s
  then (sizeof_cmd,
        set_proc (set_pending_loopers (pr_pending_loopers (proc s) + 1) (proc s))
                 (add_out (put_cmd buf BR_SPAWN_LOOPER) s))
  else (if msg_queue_size (queues s) (pr_queue (proc s)) >? 1 then sizeof_cmd else 0, s).
Proof.
  intros Hsize Hput [mq Hq] Hlen.
  unfold bcmd_spawn_on_busy, spawn_gate, bcmd_msg_queue_size, get_msg_queue, put_user.
  assert (0 <= msg_queue_size (queues s) (pr_queue (proc s))) as Hpos
    by (unfold msg_queue_size; destruct (queues s !! pr_queue (proc s)); lia).
  rewrite Hq. simpl. unfold size_t. rewrite Z.mod_small by lia.
  destruct (Z.ltb_spec size sizeof_cmd); [lia|].
  destruct (Z.ltb_spec (msg_queue_size (queues s) (pr_queue (proc s))) 0); [lia|].
  destruct (msg_queue_size (queues s) (pr_queue (proc s)) >? 1); simpl; [|reflexivity].
  destruct (_ <? pr_max_threads (proc s)); [|reflexivity].
  rewrite Hput. reflexivity.
Qed.

Lemma spawned_iff_gate (env : environ) (s : state) (buf size : Z) :
  sizeof_cmd <= size ->
  u_put env buf = true ->
  is_Some (queues s !! pr_queue (proc s)) ->
  msg_queue_size (queues s) (pr_queue (proc s)) < 2 ^ 64 ->
  spawned env s buf size <-> spawn_gate s = true.
Proof.
  intros H1 H2 H3 H4. unfold spawned.
  rewrite (spawn_on_busy_cases env s buf size H1 H2 H3 H4).
  destruct (spawn_gate s); simpl.
  - tauto.
  - split; [|discriminate]. intros H. symmetry in H. apply app_one_neq in H. destruct H.
Qed.

(** C9 as amended (spawn gate).  On a read with room for a command word,
    BR_SPAWN_LOOPER is stored in the read buffer exactly when the queue of the
    process holds more than one entry and
    [num_loopers + pending_loopers < max_threads]; the store comes with
    [pending_loopers] one higher and nothing else changed, and without it the
    state stays as it was.  The next check spawns again exactly when the gate
    holds for the new counters, and BC_REGISTER_LOOPER from a thread that is
    not active takes [pending_loopers] down by one. *)
Theorem spawn_gate_policy (bh : binder_h) (env : environ) (s : state) (buf size : Z) :
  sizeof_cmd <= size ->
  u_put env buf = true ->
  is_Some (queues s !! pr_queue (proc s)) ->
  msg_queue_size (queues s) (pr_queue (proc s)) < 2 ^ 64 ->
  let s' := snd (bcmd_spawn_on_busy env s buf size) in
  (spawned env s buf size <-> spawn_gate s = true)
  /\ (spawn_gate s = true ->
      pr_pending_loopers (proc s') = pr_pending_loopers (proc s) + 1
      /\ pr_num_loopers (proc s') = pr_num_loopers (proc s)
      /\ pr_max_threads (proc s') = pr_max_threads (proc s)
      /\ queues s' = queues s /\ thread s' = thread s)
  /\ (spawn_gate s = false -> s' = s)
  /\ (forall buf' size',
        sizeof_cmd <= size' -> u_put env buf' = true ->
        (spawned env s' buf' size' <-> spawn_gate s' = true))
  /\ (looper_active bh (th_state (thread s)) = false ->
      exists s2,
        bcmd_write_looper bh s BC_REGISTER_LOOPER = Ret (0, s2)
        /\ pr_pending_loopers (proc s2) = pr_pending_loopers (proc s) - 1
        /\ pr_num_loopers (proc s2) = pr_num_loopers (proc s)).
Proof.
  intros H1 H2 H3 H4 s'.
  assert (Hc := spawn_on_busy_cases env s buf size H1 H2 H3 H4).
  split; [exact (spawned_iff_gate env s buf size H1 H2 H3 H4)|].
  split; [|split; [|split]].
  - intros Hg. unfold s'. rewrite Hc, Hg. simpl. auto.
  - intros Hg. unfold s'. rewrite Hc, Hg. reflexivity.
  - intros buf' size' H1' H2'. apply spawned_iff_gate; auto.
    all: unfold s'; rewrite Hc; destruct (spawn_gate s); simpl; assumption.
  - intros Ha. unfold bcmd_write_looper. rewrite Ha. simpl.
    eexists. split; [reflexivity|]. simpl. split; lia.
Qed.

(** ** Context manager *)

(** Without a context manager the command answers -EBUSY and changes
    nothing, so it does so again the next time. *)
Lemma set_context_mgr_busy (env : environ) (s : state) :
  context_mgr_obj s = None -> cmd_set_context_mgr env s = (- EBUSY, s).
Proof. intros H. unfold cmd_set_context_mgr. rewrite H. reflexivity. Qed.

Lemma context_mgr_calls_busy (callers : list environ) (s : state) :
  context_mgr_obj s = None ->
  context_mgr_calls callers s = (map (fun _ => - EBUSY) callers, s).
Proof.
  intros H. induction callers as [|env rest IH]; [reflexivity|].
  simpl. rewrite (set_context_mgr_busy env s H), IH. reflexivity.
Qed.

(** C3, the code at the failing input: on a fresh device the first
    BINDER_SET_CONTEXT_MGR, by euid 1000, returns -EBUSY and records nothing,
    and the next one, by euid 1001, returns -EBUSY as well. *)
Theorem set_context_mgr_first_call_busy :
  cmd_set_context_mgr env0 fresh = (- EBUSY, fresh)
  /\ context_mgr_uid fresh = no_uid
  /\ context_mgr_calls [env0; env1] fresh = ([- EBUSY; - EBUSY], fresh).
Proof.
  split; [apply set_context_mgr_busy; reflexivity|].
  split; [reflexivity|]. apply (context_mgr_calls_busy [env0; env1]). reflexivity.
Qed.

(** ** Transaction engine *)

(** The test after the load of the payload is the wrong way round: a load
    that returns 0 ends the transaction with BR_FAILED_REPLY and nothing
    written to a queue. *)
Lemma write_transaction_loaded (bh : binder_h) (fuel : nat) (env : environ) (s : state)
    (tdata : bcmd_transaction_data) (bcmd : cmd_t) (obj : binder_obj) (q : Z)
    (msg : bcmd_msg) (proc' : binder_proc) (buf' : bcmd_msg_buf) :
  0 < td_data_size tdata ->
  bcmd_write_msg_buf bh fuel env (proc s) (msg_buf msg) tdata = Ret (0, proc', buf') ->
  write_transaction_send bh fuel env s tdata bcmd obj q msg
  = Ret (-1, set_thread (set_last_error (Some BR_FAILED_REPLY) (thread s)) (set_proc proc' s)).
Proof.
  intros Hd Hl. unfold write_transaction_send.
  destruct (Z.gtb_spec (td_data_size tdata) 0); [|lia].
  rewrite Hl. reflexivity.
Qed.

(** A load that fails lets the message through to the destination. *)
Lemma write_transaction_not_loaded (bh : binder_h) (fuel : nat) (env : environ) (s : state)
    (tdata : bcmd_transaction_data) (bcmd : cmd_t) (obj : binder_obj) (q r : Z)
    (msg : bcmd_msg) (proc' : binder_proc) (buf' : bcmd_msg_buf) :
  0 < td_data_size tdata ->
  r <> 0 ->
  q_open (queues s) q = true ->
  bcmd_write_msg_buf bh fuel env (proc s) (msg_buf msg) tdata = Ret (r, proc', buf') ->
  exists r' s' acks,
    write_transaction_send bh fuel env s tdata bcmd obj q msg = Ret (r', s')
    /\ entries_of (queues s') q
       = entries_of (queues s) q ++ set_msg_buf buf' msg :: acks.
Proof.
  intros Hd Hr Hq Hl. unfold write_transaction_send.
  destruct (Z.gtb_spec (td_data_size tdata) 0); [|lia].
  rewrite Hl. simpl. apply Z.eqb_neq in Hr. rewrite Hr. simpl.
  destruct (bcmd_write_msg_open (queues s) q (set_msg_buf buf' msg) Hq) as (mq & Hmq & Hw).
  rewrite Hw. simpl.
  set (s1 := if bool_decide (bcmd = BC_TRANSACTION) && negb (one_way bh (td_flags tdata))
             then _ else _).
  assert (queues s1 = <[q := append_entries [set_msg_buf buf' msg] mq]> (queues s)) as Hq1
    by (unfold s1; destruct (_ && _); reflexivity).
  assert (th_queue (thread s1) = th_queue (thread s)) as Htq
    by (unfold s1; destruct (_ && _); reflexivity).
  assert (entries_of (queues s) q = q_entries mq) as He
    by (unfold entries_of; rewrite Hmq; reflexivity).
  clearbody s1. rewrite He.
  destruct (binder_alloc_msg env 0 0) as [ack|].
  - unfold _bcmd_write_msg, write_msg_queue. rewrite Hq1, Htq.
    destruct (Z.eqb_spec q (th_queue (thread s))) as [<-|Hne].
    + rewrite lookup_insert_eq. simpl.
      assert (q_closed mq = false) as Hc
        by (unfold q_open in Hq; rewrite Hmq in Hq; destruct (q_closed mq);
            [discriminate|reflexivity]).
      rewrite Hc. simpl. do 3 eexists. split; [reflexivity|].
      unfold entries_of. simpl. rewrite lookup_insert_eq. simpl.
      rewrite <- app_assoc. reflexivity.
    + rewrite lookup_insert_ne by exact Hne.
      destruct (queues s !! th_queue (thread s)) as [tq|]; [destruct (q_closed tq)|]; simpl.
      all: do 3 eexists; (split; [reflexivity|]); unfold entries_of; simpl.
      all: rewrite ?Hq1; try rewrite lookup_insert_ne by congruence.
      all: rewrite lookup_insert_eq; reflexivity.
  - do 3 eexists. split; [reflexivity|].
    unfold entries_of. simpl. rewrite Hq1, lookup_insert_eq. reflexivity.
Qed.

(** C4, the code at the failing input.  A BC_TRANSACTION to the object 0xA1
    with four bytes of data and no descriptor: when the copy of the payload
    succeeds, the message is dropped, the queue of the owner stays empty and
    BR_FAILED_REPLY is latched; when the copy faults, the call returns 0 and
    the message is in the queue of the owner. *)
Theorem transaction_load_test_inverted (fuel : nat) :
  (exists s',
      bcmd_write_transaction bh0 fuel env_ping ownerA ping BC_TRANSACTION = Ret (-1, s')
      /\ entries_of (queues s') qA = []
      /\ entries_of (queues s') tA = []
      /\ th_last_error (thread s') = Some BR_FAILED_REPLY)
  /\ (exists s' m,
        bcmd_write_transaction bh0 fuel env0 ownerA ping BC_TRANSACTION = Ret (0, s')
        /\ entries_of (queues s') qA = [m]
        /\ msg_type m = BC_TRANSACTION
        /\ th_last_error (thread s') = None).
Proof.
  split.
  - eexists. split; [destruct fuel; vm_compute; reflexivity|].
    vm_compute. auto.
  - do 2 eexists. split; [vm_compute; reflexivity|]. vm_compute. auto.
Qed.

(** The reader has no case for BR_TRANSACTION_COMPLETE: the round that takes
    such a message off a queue frees it and makes [binder_thread_read]
    return -EFAULT. *)
Lemma read_round_transaction_complete (bh : binder_h) (fuel : nat) (env : environ) (s : state)
    (buf p size : Z) (mq : msg_queue) (msg : bcmd_msg) (rest : list bcmd_msg) :
  queues s !! read_queue s = Some mq ->
  q_entries mq = msg :: rest ->
  msg_type msg = BR_TRANSACTION_COMPLETE ->
  read_round bh fuel env s buf p size
  = Ret (round_return (- EFAULT)
           (set_queues (<[read_queue s := set_entries rest mq]> (queues s)) s)).
Proof.
  intros Hq He Hty.
  assert (read_next s = Ret (0, Some msg, <[read_queue s := set_entries rest mq]> (queues s)))
    as Hnext.
  { unfold read_next, read_queue in *.
    destruct (read_from_thread s);
      unfold bcmd_read_msg, get_msg_queue, _bcmd_read_msg, read_msg_queue;
      rewrite Hq, He; reflexivity. }
  unfold read_round. rewrite Hnext. simpl. unfold read_dispatch. rewrite Hty. reflexivity.
Qed.

(** C5, the code at the failing input.  A BC_TRANSACTION without payload
    to the object 0xA1 returns 0 and leaves a BR_TRANSACTION_COMPLETE message
    without payload in the inbox of the thread; the next
    [binder_thread_read] of the thread takes it off the inbox and returns
    -EFAULT, with nothing stored in the read buffer. *)
Theorem transaction_complete_not_delivered (fuel : nat) :
  exists s1 ack s2,
    bcmd_write_transaction bh0 fuel env0 ownerA ping_empty BC_TRANSACTION = Ret (0, s1)
    /\ entries_of (queues s1) tA = [ack]
    /\ msg_type ack = BR_TRANSACTION_COMPLETE
    /\ mb_data_size (msg_buf ack) = 0
    /\ binder_thread_read bh0 fuel env0 s1 0 64 = Ret (- EFAULT, s2)
    /\ entries_of (queues s2) tA = []
    /\ user_out s2 = [].
Proof.
  do 3 eexists. split; [vm_compute; reflexivity|].
  split; [vm_compute; reflexivity|].
  split; [reflexivity|]. split; [reflexivity|].
  split; [vm_compute; reflexivity|]. vm_compute. auto.
Qed.

(** ** In-band errors *)

(** C6, the code at the failing input.  A BC_TRANSACTION to a handle the
    sender does not know returns -1 and latches BR_FAILED_REPLY; the next
    [binder_thread_read], with room for one command word and a
    BR_DEAD_BINDER message in the inbox, returns 4 with BR_DEAD_BINDER in the
    buffer and the error still latched. *)
Theorem latched_error_not_delivered (fuel : nat) :
  exists s1 s2,
    bcmd_write_transaction bh0 fuel env0 ownerA_notified stray BC_TRANSACTION = Ret (-1, s1)
    /\ th_last_error (thread s1) = Some BR_FAILED_REPLY
    /\ binder_thread_read bh0 fuel env0 s1 0 4 = Ret (4, s2)
    /\ user_out s2 = [put_cmd 0 BR_DEAD_BINDER]
    /\ th_last_error (thread s2) = Some BR_FAILED_REPLY.
Proof.
  do 2 eexists. split; [vm_compute; reflexivity|].
  split; [reflexivity|]. split; [vm_compute; reflexivity|]. vm_compute. auto.
Qed.

(** The read side never looks at the latch: no handler and no round of the
    read loop changes [last_error]. *)
Ltac split_run H :=
  unfold mbind, run_bind, put_user in H;
  repeat first
    [ discriminate H
    | match type of H with
      | context [if ?c then _ else _] => destruct c eqn:?
      | context [match ?c with _ => _ end] => destruct c eqn:?
      end; simpl in H ].

Lemma read_transaction_last_error (bh : binder_h) (fuel : nat) (env : environ) (s s' : state)
    (msg : bcmd_msg) (buf size n : Z) (pmsg : option bcmd_msg) :
  bcmd_read_transaction bh fuel env s msg buf size = Ret (n, pmsg, s') ->
  th_last_error (thread s') = th_last_error (thread s).
Proof.
  intros H. unfold bcmd_read_transaction in H. split_run H.
  all: injection H as <- <- <-; reflexivity.
Qed.

Lemma read_notifier_last_error (env : environ) (s s' : state)
    (msg : bcmd_msg) (buf size n : Z) (pmsg : option bcmd_msg) :
  bcmd_read_notifier env s msg buf size = Ret (n, pmsg, s') ->
  th_last_error (thread s') = th_last_error (thread s).
Proof.
  intros H. unfold bcmd_read_notifier in H. split_run H.
  all: injection H as <- <- <-; reflexivity.
Qed.

Lemma read_dead_binder_last_error (env : environ) (s s' : state)
    (msg : bcmd_msg) (buf size n : Z) (pmsg : option bcmd_msg) :
  bcmd_read_dead_binder env s msg buf size = Ret (n, pmsg, s') ->
  th_last_error (thread s') = th_last_error (thread s).
Proof.
  intros H. unfold bcmd_read_dead_binder in H. split_run H.
  all: injection H as <- <- <-; reflexivity.
Qed.

Lemma read_dispatch_last_error (bh : binder_h) (fuel : nat) (env : environ) (s s' : state)
    (msg : bcmd_msg) (p size : Z) (x : Z * option bcmd_msg + Z) :
  read_dispatch bh fuel env s msg p size = Ret (x, s') ->
  th_last_error (thread s') = th_last_error (thread s).
Proof.
  intros H. unfold read_dispatch in H.
  destruct (msg_type msg); simpl in H; try (injection H as <- <-; reflexivity).
  1, 2: destruct (bcmd_read_transaction bh fuel env s msg p size) as [[[n pm] s0]| | |] eqn:E;
        simpl in H; try discriminate; injection H as <- <-;
        exact (read_transaction_last_error _ _ _ _ _ _ _ _ _ _ E).
  1, 2: destruct (bcmd_read_notifier env s msg p size) as [[[n pm] s0]| | |] eqn:E;
        simpl in H; try discriminate; injection H as <- <-;
        exact (read_notifier_last_error _ _ _ _ _ _ _ _ E).
  destruct (bcmd_read_dead_binder env s msg p size) as [[[n pm] s0]| | |] eqn:E;
    simpl in H; try discriminate; injection H as <- <-;
    exact (read_dead_binder_last_error _ _ _ _ _ _ _ _ E).
Qed.

Lemma read_round_last_error (bh : binder_h) (fuel : nat) (env : environ) (s : state)
    (buf p size : Z) (x : round_result) :
  read_round bh fuel env s buf p size = Ret x ->
  th_last_error (thread (round_state x)) = th_last_error (thread s).
Proof.
  intros H. unfold read_round in H.
  destruct (read_next s) as [[[r msg] qs]| | |]; simpl in H; try discriminate.
  destruct (r <? 0); [injection H as <-; reflexivity|].
  destruct msg as [msg|]; [|discriminate].
  destruct (read_dispatch bh fuel env (set_queues qs s) msg p size) as [[y s0]| | |] eqn:E;
    simpl in H; try discriminate.
  apply read_dispatch_last_error in E. simpl in E.
  destruct y as [[n pmsg]|e]; [|injection H as <-; exact E].
  split_run H; injection H as <-; exact E.
Qed.

Lemma read_loop_last_error (bh : binder_h) (fuel : nat) (env : environ) (buf : Z) (n : nat) :
  forall (s : state) (p size r : Z) (s' : state),
  read_loop bh fuel n env s buf p size = Ret (r, s') ->
  th_last_error (thread s') = th_last_error (thread s).
Proof.
  induction n as [|n IH]; intros s p size r s' H; simpl in H.
  - destruct (negb _); [injection H as _ <-; reflexivity|discriminate].
  - destruct (negb _); [injection H as _ <-; reflexivity|].
    destruct (read_round bh fuel env s buf p size) as [x| | |] eqn:E; simpl in H;
      try discriminate.
    apply read_round_last_error in E.
    destruct x as [s1 p1 size1|r1 s1]; simpl in E.
    + rewrite <- E. exact (IH _ _ _ _ _ H).
    + injection H as _ <-. exact E.
Qed.

Lemma spawn_on_busy_thread (env : environ) (s : state) (buf size : Z) :
  thread (snd (bcmd_spawn_on_busy env s buf size)) = thread s.
Proof.
  unfold bcmd_spawn_on_busy, put_user.
  repeat match goal with
         | |- context [if ?c then _ else _] => destruct c
         end; reflexivity.
Qed.

(** X2.  Whenever [binder_thread_read] returns, [last_error] of the thread
    is what it was before the call. *)
Lemma thread_read_keeps_last_error (bh : binder_h) (fuel : nat) (env : environ) (s s' : state)
    (buf size r : Z) :
  binder_thread_read bh fuel env s buf size = Ret (r, s') ->
  th_last_error (thread s') = th_last_error (thread s).
Proof.
  intros H. unfold binder_thread_read in H.
  assert (Ht := spawn_on_busy_thread env s buf size).
  destruct (bcmd_spawn_on_busy env s buf size) as [n s0]. simpl in Ht. rewrite <- Ht.
  destruct (n >? 0); [exact (read_loop_last_error _ _ _ _ _ _ _ _ _ _ H)|].
  destruct (n <? 0); [injection H as _ <-; reflexivity|].
  exact (read_loop_last_error _ _ _ _ _ _ _ _ _ _ H).
Qed.


(** ** The loops of the dispatchers end *)

(** The handlers of the read side leave the queues and their addresses alone. *)
Lemma new_obj_queue (env : environ) (proc : binder_proc) (o b : Z) :
  pr_queue (fst (_binder_new_obj env proc o b)) = pr_queue proc.
Proof.
  unfold _binder_new_obj. destruct (negb (kmalloc env)); [reflexivity|].
  destruct (rb_link _ _); reflexivity.
Qed.

Lemma read_flat_obj_queue (env : environ) (proc proc' : binder_proc)
    (bp bp' : flat_binder_object) (r : Z) :
  bcmd_read_flat_obj env proc bp = (r, proc', bp') -> pr_queue proc' = pr_queue proc.
Proof.
  unfold bcmd_read_flat_obj. intros H.
  assert (Hn := new_obj_queue env proc (fb_cookie bp) (fb_binder bp)).
  destruct (_binder_new_obj env proc (fb_cookie bp) (fb_binder bp)) as [p1 o1]. simpl in Hn.
  destruct (fb_type bp);
    try destruct (_binder_find_obj proc (fb_cookie bp) (fb_binder bp));
    try destruct (fb_cookie bp =? pr_queue proc); try destruct o1;
    injection H as _ <- _; auto.
Qed.

Lemma read_msg_buf_loop_queue (env : environ) (n : nat) :
  forall (proc proc' : binder_proc) (mbuf mbuf' : bcmd_msg_buf) (r : Z),
  read_msg_buf_loop n env proc mbuf = Ret (r, proc', mbuf') -> pr_queue proc' = pr_queue proc.
Proof.
  induction n as [|n IH]; intros proc proc' mbuf mbuf' r H; simpl in H.
  - destruct (negb _); [injection H as _ <- _; reflexivity|discriminate].
  - destruct (negb _); [injection H as _ <- _; reflexivity|].
    destruct (bcmd_read_flat_obj env proc _) as [[r1 proc1] bp1] eqn:E.
    apply read_flat_obj_queue in E.
    destruct (r1 <? 0); [injection H as _ <- _; exact E|].
    rewrite <- E. exact (IH _ _ _ _ _ H).
Qed.

Lemma read_transaction_queues (bh : binder_h) (fuel : nat) (env : environ) (s s' : state)
    (msg : bcmd_msg) (buf size n : Z) (pmsg : option bcmd_msg) :
  bcmd_read_transaction bh fuel env s msg buf size = Ret (n, pmsg, s') -> same_queues s s'.
Proof.
  intros H. unfold bcmd_read_transaction in H.
  destruct (_ >? size); [injection H as _ _ <-; repeat split|].
  destruct (read_msg_buf_loop fuel env (proc s) (msg_buf msg)) as [[[r p1] b1]| | |] eqn:E;
    simpl in H; try discriminate.
  apply read_msg_buf_loop_queue in E.
  split_run H. all: injection H as _ _ <-; repeat split; simpl; exact E.
Qed.

Lemma read_notifier_queues (env : environ) (s s' : state)
    (msg : bcmd_msg) (buf size n : Z) (pmsg : option bcmd_msg) :
  bcmd_read_notifier env s msg buf size = Ret (n, pmsg, s') -> same_queues s s'.
Proof.
  intros H. unfold bcmd_read_notifier in H. split_run H.
  all: injection H as _ _ <-; repeat split.
Qed.

Lemma read_dead_binder_queues (env : environ) (s s' : state)
    (msg : bcmd_msg) (buf size n : Z) (pmsg : option bcmd_msg) :
  bcmd_read_dead_binder env s msg buf size = Ret (n, pmsg, s') -> same_queues s s'.
Proof.
  intros H. unfold bcmd_read_dead_binder in H. split_run H.
  all: injection H as _ _ <-; repeat split.
Qed.

Lemma read_dispatch_queues (bh : binder_h) (fuel : nat) (env : environ) (s s' : state)
    (msg : bcmd_msg) (p size : Z) (x : Z * option bcmd_msg + Z) :
  read_dispatch bh fuel env s msg p size = Ret (x, s') -> same_queues s s'.
Proof.
  intros H. unfold read_dispatch in H.
  destruct (msg_type msg); simpl in H; try (injection H as _ <-; repeat split).
  1, 2: destruct (bcmd_read_transaction bh fuel env s msg p size) as [[[n pm] s0]| | |] eqn:E;
        simpl in H; try discriminate; injection H as _ <-;
        exact (read_transaction_queues _ _ _ _ _ _ _ _ _ _ E).
  1, 2: destruct (bcmd_read_notifier env s msg p size) as [[[n pm] s0]| | |] eqn:E;
        simpl in H; try discriminate; injection H as _ <-;
        exact (read_notifier_queues _ _ _ _ _ _ _ _ E).
  destruct (bcmd_read_dead_binder env s msg p size) as [[[n pm] s0]| | |] eqn:E;
    simpl in H; try discriminate; injection H as _ <-;
    exact (read_dead_binder_queues _ _ _ _ _ _ _ _ E).
Qed.

(** A message read is one entry less in the two queues. *)
Lemma read_next_waiting (s : state) (r : Z) (msg : bcmd_msg) (qs : gmap Z msg_queue) :
  read_next s = Ret (r, Some msg, qs) ->
  (waiting (set_queues qs s) < waiting s)%nat.
Proof.
  unfold read_next, waiting. simpl.
  set (tq := th_queue (thread s)). set (pq := pr_queue (proc s)).
  assert (forall q q', read_msg_queue (queues s) q = Ret (r, Some msg, qs) ->
            (length (entries_of qs q) < length (entries_of (queues s) q))%nat
            /\ (length (entries_of qs q') <= length (entries_of (queues s) q'))%nat) as Hone.
  { intros q q' H. destruct (read_msg_queue_head _ _ _ _ _ H) as (H1 & H2 & H3).
    destruct (entries_of (queues s) q) as [|m rest] eqn:He; [discriminate|].
    split; [rewrite H2; simpl; lia|].
    destruct (Z.eq_dec q' q) as [->|Hne]; [rewrite H2, He; simpl; lia|].
    unfold entries_of. rewrite (H3 q' Hne). lia. }
  destruct (read_from_thread s); intros H.
  - destruct (Hone tq pq H). lia.
  - assert (read_msg_queue (queues s) pq = Ret (r, Some msg, qs)) as H'.
    { unfold bcmd_read_msg in H. destruct (_ <? 0); [discriminate|exact H]. }
    destruct (Hone pq tq H'). lia.
Qed.

Lemma read_round_waiting (bh : binder_h) (fuel : nat) (env : environ) (s s1 : state)
    (buf p size p1 size1 : Z) :
  read_round bh fuel env s buf p size = Ret (round_continue s1 p1 size1) ->
  (waiting s1 < waiting s)%nat.
Proof.
  intros H. unfold read_round in H.
  destruct (read_next s) as [[[r msg] qs]| | |] eqn:Hn; simpl in H; try discriminate.
  destruct (r <? 0); [discriminate|].
  destruct msg as [msg|]; [|discriminate].
  apply read_next_waiting in Hn.
  destruct (read_dispatch bh fuel env (set_queues qs s) msg p size) as [[y s0]| | |] eqn:E;
    simpl in H; try discriminate.
  apply read_dispatch_queues in E. destruct E as (E1 & E2 & E3).
  assert (waiting s0 = waiting (set_queues qs s)) as Hw
    by (unfold waiting; rewrite E1, E2, E3; reflexivity).
  destruct y as [[n pmsg]|e]; [|discriminate].
  split_run H; injection H as <- _ _; lia.
Qed.

(** Rounds beyond the number of waiting entries plus one are never used. *)
Lemma read_loop_rounds (bh : binder_h) (fuel : nat) (env : environ) (buf : Z) (n : nat) :
  forall (m : nat) (s : state) (p size : Z),
  (waiting s < n)%nat -> (waiting s < m)%nat ->
  read_loop bh fuel n env s buf p size = read_loop bh fuel m env s buf p size.
Proof.
  induction n as [|n IH]; intros m s p size Hn Hm; [lia|].
  destruct m as [|m]; [lia|]. simpl.
  destruct (negb _); [reflexivity|].
  destruct (read_round bh fuel env s buf p size) as [[s1 p1 size1|r1 s1]| | |] eqn:E;
    simpl; try reflexivity.
  apply read_round_waiting in E. apply IH; lia.
Qed.

Lemma read_rounds_waiting (s : state) : read_rounds s = S (waiting s).
Proof.
  unfold read_rounds, waiting, msg_queue_size, entries_of.
  destruct (queues s !! th_queue (thread s)), (queues s !! pr_queue (proc s));
    rewrite ?Nat2Z.id; reflexivity.
Qed.

(** X3.  The loop of [binder_thread_read] ends: the bound it is run with,
    one round more than the entries waiting in the two queues, is enough, and
    with more rounds the loop gives the same result. *)
Lemma read_loop_total (bh : binder_h) (fuel : nat) (env : environ) (s : state)
    (buf p size : Z) (n : nat) :
  (read_rounds s <= n)%nat ->
  read_loop bh fuel n env s buf p size
  = read_loop bh fuel (read_rounds s) env s buf p size.
Proof.
  intros H. rewrite read_rounds_waiting in *. apply read_loop_rounds; lia.
Qed.

(** A round of the write loop moves [p] forward by four bytes at least. *)
Lemma write_one_forward (bh : binder_h) (fuel : nat) (env : environ) (s s' : state)
    (p ep p' e : Z) :
  write_one bh fuel env s p ep = Ret (inl (p', e), s') -> p + sizeof_cmd <= p'.
Proof.
  intros H. destruct (u_cmd env p) as [c|] eqn:Hc.
  - rewrite (write_one_next _ _ _ _ _ _ _ _ _ _ Hc H). assert (Hs := cmd_size_ge bh c). lia.
  - unfold write_one in H. rewrite Hc in H. discriminate.
Qed.

Lemma write_loop_rounds (bh : binder_h) (fuel : nat) (env : environ) (buf ep : Z) (n : nat) :
  forall (m : nat) (s : state) (p err : Z),
  (Z.to_nat (ep - p) <= n)%nat -> (Z.to_nat (ep - p) <= m)%nat ->
  write_loop bh fuel n env s buf p ep err = write_loop bh fuel m env s buf p ep err.
Proof.
  induction n as [|n IH]; intros m s p err Hn Hm.
  - rewrite !write_loop_stop by (unfold sizeof_cmd; lia). reflexivity.
  - destruct m as [|m]; [rewrite !write_loop_stop by (unfold sizeof_cmd; lia); reflexivity|].
    simpl. destruct (Z.ltb_spec (p + sizeof_cmd) ep); [|reflexivity]. simpl.
    destruct (write_one bh fuel env s p ep) as [[[[p' e]|e] s']| | |] eqn:Hw;
      simpl; try reflexivity.
    apply write_one_forward in Hw. unfold sizeof_cmd in *. apply IH; lia.
Qed.

(** X4.  The loop of [binder_thread_write] ends: one round for every byte
    of the buffer is enough, and with more rounds the loop gives the same
    result. *)
Lemma write_loop_total (bh : binder_h) (fuel : nat) (env : environ) (s : state)
    (buf size : Z) (n : nat) :
  (Z.to_nat size <= n)%nat ->
  write_loop bh fuel n env s buf buf (buf + size) 0 = binder_thread_write bh fuel env s buf size.
Proof.
  intros H. unfold binder_thread_write.
  apply write_loop_rounds; replace (buf + size - buf) with size by lia; lia.
Qed.

(** X5.  The loop of [bcmd_write_msg_buf] over the descriptors never
    moves to the next offset: with an offset to translate it returns an
    error or does not return, and never 0.  The loop of
    [bcmd_read_transaction] does the same. *)
Lemma write_msg_buf_loop_no_success (bh : binder_h) (env : environ) (n : nat) :
  forall (proc proc' : binder_proc) (buf buf' : bcmd_msg_buf) (r : Z),
  0 < mb_offsets_size buf ->
  write_msg_buf_loop bh n env proc buf = Ret (r, proc', buf') -> r < 0.
Proof.
  induction n as [|n IH]; intros proc proc' buf buf' r Hos H; simpl in H;
    destruct (Z.ltb_spec 0 (mb_offsets_size buf)); try lia; simpl in H; [discriminate|].
  destruct (_ >? mb_data_size buf); [injection H as <- _ _; unfold EFAULT; lia|].
  destruct (bcmd_write_flat_obj env proc _) as [[[r1 p1] bp1]| | |]; simpl in H;
    try discriminate.
  destruct (Z.ltb_spec r1 0); [injection H as <- _ _; exact H1|].
  apply (IH _ _ _ _ _) in H; [exact H|exact Hos].
Qed.

Lemma read_msg_buf_loop_no_success (env : environ) (n : nat) :
  forall (proc proc' : binder_proc) (mbuf mbuf' : bcmd_msg_buf) (r : Z),
  offsets_ptr env < offsets_end env mbuf ->
  read_msg_buf_loop n env proc mbuf = Ret (r, proc', mbuf') -> r < 0.
Proof.
  induction n as [|n IH]; intros proc proc' mbuf mbuf' r Hos H; simpl in H;
    destruct (Z.ltb_spec (offsets_ptr env) (offsets_end env mbuf)); try lia; simpl in H;
    [discriminate|].
  destruct (bcmd_read_flat_obj env proc _) as [[r1 p1] bp1].
  destruct (Z.ltb_spec r1 0); [injection H as <- _ _; exact H1|].
  apply (IH _ _ _ _ _) in H; [exact H|exact Hos].
Qed.

(** ** The round of the read loop *)



(** ** The properties at work *)

Lemma rotate_left_spine_kept : spine_kept rotate_left.
Proof.
  intros t. destruct t as [|l x [|rl y rr]]; simpl; tauto.
Qed.

Lemma owner_round_trip_witness :
  let sent := {| fb_type := BINDER_TYPE_BINDER; fb_binder := 161; fb_cookie := 193 |} in
  let handle := {| fb_type := handle_of BINDER_TYPE_BINDER; fb_binder := 161;
                   fb_cookie := pr_queue procA_two |} in
  exists A1 B2 A4,
    bcmd_write_flat_obj env_rotating procA_two sent = Ret (0, A1, handle)
    /\ bcmd_read_flat_obj env_rotating procB handle = (0, B2, handle)
    /\ bcmd_write_flat_obj env_rotating B2 handle = Ret (0, B2, handle)
    /\ bcmd_read_flat_obj env_rotating A1 handle = (0, A4, sent).
Proof.
  apply (owner_round_trip env_rotating procA_two procB BINDER_TYPE_BINDER 161 193);
    [reflexivity | exact rotate_left_spine_kept
    | reflexivity | discriminate | reflexivity | reflexivity
    | intros o H; vm_compute in H; discriminate H].
Defined.

(** The rotation at work: once 0xA1 is linked behind them, the first of the
    two older objects is off the spine and no search finds it any more, and
    the round trip of 0xA1 goes through all the same. *)
Example owner_round_trip_rotated :
  exists A1 d,
    bcmd_write_flat_obj env_rotating procA_two
      {| fb_type := BINDER_TYPE_BINDER; fb_binder := 161; fb_cookie := 193 |}
    = Ret (0, A1, d)
    /\ binder_find_obj procA_two 162 <> None
    /\ binder_find_obj A1 162 = None
    /\ bcmd_read_flat_obj env_rotating A1 d
       = (0, A1, {| fb_type := BINDER_TYPE_BINDER; fb_binder := 161; fb_cookie := 193 |}).
Proof.
  do 2 eexists. split; [vm_compute; reflexivity|].
  split; [vm_compute; discriminate|]. split; vm_compute; reflexivity.
Qed.

Lemma death_fan_out_witness :
  exists qs',
    binder_free_proc env0 three_queues procA_owner
    = Ret (0, qs', flat_map (obj_events three_queues_drained (pr_queue procA_owner))
                            (inorder (pr_obj_tree procA_owner)))
    /\ (forall q,
          qs' !! q =
          append_entries
            (if q_open three_queues_drained q
             then flat_map (obj_deliveries (pr_queue procA_owner) q)
                           (inorder (pr_obj_tree procA_owner))
             else [])
          <$> three_queues_drained !! q)
    /\ q_open three_queues_drained (pr_queue procA_owner) = false
    /\ (forall obj n,
          msg_type (death_msg obj n) = BC_DEAD_BINDER
          /\ msg_cookie (death_msg obj n) = nt_cookie n
          /\ msg_obj_id (death_msg obj n) = obj_id obj).
Proof.
  apply (death_fan_out env0 three_queues three_queues_drained procA_owner);
    [reflexivity | vm_compute; reflexivity | reflexivity].
Defined.

(** The request a process writes for an object of its own comes back to
    its own queue, and the round that reads it registers a notifier that
    names that queue. *)
Example self_watch_registered :
  bcmd_write_notifier env0 ownerA_two watchA2 BC_REQUEST_DEATH_NOTIFICATION
  = Ret (0, self_watch_asked)
  /\ map msg_reply_queue (entries_of (queues self_watch_asked) qA) = [qA]
  /\ read_round bh0 0 env0 self_watch_asked 0 0 64 = Ret (round_continue self_watched 0 64)
  /\ notifiers <$> binder_find_obj (proc self_watched) 162 = Some [self_watcher].
Proof.
  split; [vm_compute; reflexivity|]. split; [vm_compute; reflexivity|].
  split; vm_compute; reflexivity.
Qed.

(** The fan-out does not reach that notifier: the teardown closes the queue
    of the process before it walks the object table, the write of the death
    message fails and the queue ends empty. *)
Lemma fan_out_misses_own_queue :
  ~ fan_out_unconditional env0 (queues self_watched) (proc self_watched).
Proof.
  intros (r & qs' & log & Hfree & Hall).
  assert (entries_of qs' qA = []) as Hempty.
  { vm_compute in Hfree. injection Hfree as _ <- _. reflexivity. }
  specialize (Hall {| obj_id := OBJ_ID_INIT qA 162; real_cookie := 194;
                      notifiers := [self_watcher] |} self_watcher).
  change (nt_notify_queue self_watcher) with qA in Hall. rewrite Hempty in Hall.
  apply Hall; [vm_compute; auto|reflexivity|left; reflexivity].
Qed.

(** What the teardown of A leaves in the queues of B and C. *)
Example death_fan_out_queues :
  exists qs' log,
    binder_free_proc env0 three_queues procA_owner = Ret (0, qs', log)
    /\ map msg_cookie (entries_of qs' qB) = [209]
    /\ map msg_cookie (entries_of qs' qC) = [210]
    /\ entries_of qs' qA = []
    /\ log = [ev_list_del (obj_id objA1) (nth 0 (notifiers objA1) (Build_binder_notifier 0 0 0));
              ev_write qB (death_msg objA1 (nth 0 (notifiers objA1) (Build_binder_notifier 0 0 0))) 0;
              ev_list_del (obj_id objA1) (nth 1 (notifiers objA1) (Build_binder_notifier 0 0 0));
              ev_write qC (death_msg objA1 (nth 1 (notifiers objA1) (Build_binder_notifier 0 0 0))) 0;
              ev_kfree_obj (obj_id refB1)].
Proof.
  do 2 eexists. split; [vm_compute; reflexivity|]. vm_compute. auto.
Qed.

(** Two rounds in a row: the first takes the message of the inbox, the
    second, the inbox being empty then, the message of the process. *)
Example read_two_rounds :
  exists s1 s2,
    read_round bh0 0 env0 (with_inbox [msg_of BR_DEAD_BINDER 0] [msg_of BR_DEAD_BINDER 0]) 0 0 64
    = Ret (round_continue s1 4 60)
    /\ entries_of (queues s1) tA = [] /\ length (entries_of (queues s1) qA) = 1%nat
    /\ read_round bh0 0 env0 s1 0 4 60 = Ret (round_continue s2 8 56)
    /\ entries_of (queues s2) qA = [].
Proof.
  do 2 eexists. split; [vm_compute; reflexivity|].
  split; [reflexivity|]. split; [reflexivity|].
  split; [vm_compute; reflexivity|]. reflexivity.
Qed.

(** The whole read: nothing produced, the transaction back where it was. *)
Example read_tight_fit_whole :
  binder_thread_read bh0 0 env0 (with_pool [msg_of BC_TRANSACTION 100]) 0 64
  = Ret (0, with_pool [msg_of BC_TRANSACTION 100]).
Proof. vm_compute. reflexivity. Qed.

Lemma spawn_gate_policy_witness :
  let s' := snd (bcmd_spawn_on_busy env0 busy 0 64) in
  (spawned env0 busy 0 64 <-> spawn_gate busy = true)
  /\ (spawn_gate busy = true ->
      pr_pending_loopers (proc s') = pr_pending_loopers (proc busy) + 1
      /\ pr_num_loopers (proc s') = pr_num_loopers (proc busy)
      /\ pr_max_threads (proc s') = pr_max_threads (proc busy)
      /\ queues s' = queues busy /\ thread s' = thread busy)
  /\ (spawn_gate busy = false -> s' = busy)
  /\ (forall buf' size',
        sizeof_cmd <= size' -> u_put env0 buf' = true ->
        (spawned env0 s' buf' size' <-> spawn_gate s' = true))
  /\ (looper_active bh0 (th_state (thread busy)) = false ->
      exists s2,
        bcmd_write_looper bh0 busy BC_REGISTER_LOOPER = Ret (0, s2)
        /\ pr_pending_loopers (proc s2) = pr_pending_loopers (proc busy) - 1
        /\ pr_num_loopers (proc s2) = pr_num_loopers (proc busy)).
Proof.
  apply (spawn_gate_policy bh0 env0 busy 0 64);
    [vm_compute; discriminate | reflexivity | vm_compute; eauto | reflexivity].
Defined.

(** C9 as stated fails: with room for four threads, the check that follows
    a spawn, no BC_REGISTER_LOOPER in between, spawns again. *)
Lemma spawn_not_latched : ~ spawn_latched env0 busy 0 64.
Proof.
  intros H. apply (H eq_refl 4 64). reflexivity.
Qed.

(** The count of the spawn check when the pool of threads is used up: four
    bytes reported, none stored. *)
Example spawn_reports_unwritten_word :
  bcmd_spawn_on_busy env0 saturated 0 64 = (4, saturated)
  /\ user_out saturated = [].
Proof. split; reflexivity. Qed.

Lemma write_skips_final_command_witness :
  let size := stream_size bh0 ([BC_ENTER_LOOPER] ++ [BC_EXIT_LOOPER]) in
  (forall n s1 p err,
      0 + size <= p + sizeof_cmd ->
      write_loop bh0 0 n env_two_cmds s1 0 p (0 + size) err = Ret (p - 0, s1))
  /\ binder_thread_write bh0 0 env_two_cmds fresh 0 size
     = write_records bh0 0 env_two_cmds fresh 0 0 (0 + size) [BC_ENTER_LOOPER]
  /\ (forall r s',
        binder_thread_write bh0 0 env_two_cmds fresh 0 size = Ret (r, s') ->
        0 <= r -> r = size - sizeof_cmd).
Proof.
  apply (write_skips_final_command bh0 0 env_two_cmds fresh 0 [BC_ENTER_LOOPER] BC_EXIT_LOOPER);
    [simpl; auto | reflexivity].
Defined.

(** The two commands of the buffer: BC_ENTER_LOOPER is run, BC_EXIT_LOOPER,
    the last four bytes, is not, and four bytes count as consumed. *)
Example write_two_commands :
  exists s',
    binder_thread_write bh0 0 env_two_cmds fresh 0 8 = Ret (4, s')
    /\ th_state (thread s') = BINDER_LOOPER_STATE_ENTERED
    /\ pr_num_loopers (proc s') = 1.
Proof. eexists. split; [vm_compute; reflexivity|]. split; reflexivity. Qed.

(** ** The bounds and frames at work *)

Lemma thread_read_keeps_last_error_witness :
  th_last_error (thread ownerA_after_read) = th_last_error (thread ownerA_notified).
Proof.
  apply (thread_read_keeps_last_error bh0 0 env0 ownerA_notified ownerA_after_read 0 4 4).
  vm_compute. reflexivity.
Defined.

Lemma read_loop_total_witness :
  read_loop bh0 0 7 env0 ownerA_notified 0 0 64
  = read_loop bh0 0 (read_rounds ownerA_notified) env0 ownerA_notified 0 0 64.
Proof.
  apply (read_loop_total bh0 0 env0 ownerA_notified 0 0 64 7). vm_compute. lia.
Defined.

Lemma write_loop_total_witness :
  write_loop bh0 0 20 env_two_cmds fresh 0 0 (0 + 8) 0
  = binder_thread_write bh0 0 env_two_cmds fresh 0 8.
Proof.
  apply (write_loop_total bh0 0 env_two_cmds fresh 0 8 20). vm_compute. lia.
Defined.

Lemma write_msg_buf_loop_no_success_witness : - EINVAL < 0.
Proof.
  apply (write_msg_buf_loop_no_success bh0 env0 1 procA procA one_slot one_slot_seen (- EINVAL));
    [reflexivity | vm_compute; reflexivity].
Defined.

(** ** More on the object registry *)

Lemma rb_find_in_spine (t : rb_root) (id : obj_id_t) (x : binder_obj) :
  rb_find t id = Some x -> In x (spine t).
Proof.
  rewrite rb_find_spine. intros H. apply find_some in H. tauto.
Qed.

(** X7.  The search of the object tree never goes left: what it finds does
    not depend on any left subtree, and an entry it finds is on the right
    spine.  An entry that a rotation has moved into a left subtree is out of
    reach of [_binder_find_obj]. *)
Theorem find_never_goes_left (l l' r : rb_root) (o : binder_obj) (id : obj_id_t) :
  rb_find (rb_node l o r) id = rb_find (rb_node l' o r) id
  /\ (forall x, rb_find (rb_node l o r) id = Some x -> In x (o :: spine r)).
Proof.
  split.
  - rewrite !rb_find_spine. reflexivity.
  - intros x H. exact (rb_find_in_spine _ _ _ H).
Qed.

Lemma tree_ptrs_spine (t : rb_root) (x : binder_obj) :
  tree_ptrs t = true -> In x (spine t) ->
  is_ptr (owner (obj_id x)) = true /\ is_ptr (binder (obj_id x)) = true.
Proof.
  induction t as [|l IHl o r IHr]; simpl; [tauto|].
  intros Ht. apply andb_prop in Ht as [Ht Hr]. apply andb_prop in Ht as [Ht Hb].
  apply andb_prop in Ht as [Hl Ho]. intros [<-|Hin]; auto.
Qed.

(** X8.  What [_binder_find_obj] returns carries the id asked for: for
    addresses of the machine, an entry found for (owner, binder) has exactly
    that owner and that binder. *)
Theorem find_obj_sound (proc : binder_proc) (o b : Z) (obj : binder_obj) :
  tree_ptrs (pr_obj_tree proc) = true ->
  is_ptr o = true -> is_ptr b = true ->
  _binder_find_obj proc o b = Some obj ->
  obj_id obj = OBJ_ID_INIT o b.
Proof.
  intros Ht Ho Hb Hf. unfold _binder_find_obj in Hf.
  destruct (tree_ptrs_spine _ _ Ht (rb_find_in_spine _ _ _ Hf)) as [Hxo Hxb].
  apply rb_find_cmp, obj_id_cmp_zero in Hf as [H1 H2]. simpl in H1, H2.
  apply size_t_zero in H1; auto. apply size_t_zero in H2; auto.
  destruct obj as [[xo xb] c ns]. simpl in *. subst. reflexivity.
Qed.

(** X9.  Creating an entry twice creates it once: a second
    [_binder_new_obj] for the same id returns the entry the first returned
    and leaves the table as the first left it. *)
Theorem new_obj_twice (env : environ) (proc p1 : binder_proc) (o b : Z) (x : binder_obj) :
  kmalloc env = true ->
  spine_kept (rb_insert_color env) ->
  _binder_new_obj env proc o b = (p1, Some x) ->
  _binder_new_obj env p1 o b = (p1, Some x)
  /\ _binder_find_obj p1 o b = Some x.
Proof.
  intros Hk Hkept H1.
  destruct (_binder_find_obj proc o b) as [obj|] eqn:Hfind.
  - rewrite (new_obj_known env proc o b obj Hk Hfind) in H1. injection H1 as <- <-.
    split; [exact (new_obj_known env proc o b obj Hk Hfind)|exact Hfind].
  - destruct (new_obj_fresh env proc o b Hk Hkept Hfind) as (p' & Hn & _ & Hf).
    rewrite Hn in H1. injection H1 as <- <-.
    split; [exact (new_obj_known env p' o b _ Hk Hf)|exact Hf].
Qed.

(** ** More on the flat-object translator *)

(** X10.  The write side stores the cookie through the pointer
    [binder_new_obj] returned before it tests the pointer: when [kmalloc]
    fails at the first mention of an object, [bcmd_write_flat_obj]
    dereferences NULL, and its return of -ENOMEM is never reached. *)
Theorem write_flat_obj_no_memory (env : environ) (proc : binder_proc) (bp : flat_binder_object) :
  kmalloc env = false ->
  is_binder_type (fb_type bp) = true ->
  binder_find_obj proc (fb_binder bp) = None ->
  bcmd_write_flat_obj env proc bp = Oops
  /\ forall env' proc' bp' proc1 bp1,
       bcmd_write_flat_obj env' proc' bp' <> Ret (- ENOMEM, proc1, bp1).
Proof.
  intros Hk Hty Hf. split.
  - unfold bcmd_write_flat_obj, binder_new_obj, _binder_new_obj.
    destruct (fb_type bp); try discriminate Hty; rewrite Hf, Hk; reflexivity.
  - intros env' proc' bp' proc1 bp1 H. unfold bcmd_write_flat_obj in H.
    destruct (fb_type bp'); simpl in H.
    1, 2: destruct (binder_find_obj proc' (fb_binder bp'));
          [|destruct (binder_new_obj env' proc' (fb_binder bp')) as [p2 [o2|]]];
          simpl in H; discriminate H.
    1, 2: destruct (_binder_find_obj proc' (fb_cookie bp') (fb_binder bp')); discriminate H.
    discriminate H.
Qed.

(** X11.  No message that carries descriptors is delivered: when the
    offsets of the message lie inside the address space ([offsets_size] is
    above zero and the end of the region does not wrap),
    [bcmd_read_transaction] returns a negative value and keeps the message,
    or does not return, and it stores nothing in the read buffer. *)
Theorem read_transaction_with_offsets (bh : binder_h) (fuel : nat) (env : environ)
    (s s' : state) (msg : bcmd_msg) (buf size n : Z) (pmsg : option bcmd_msg) :
  0 <= offsets_ptr env ->
  0 < mb_offsets_size (msg_buf msg) ->
  offsets_ptr env + mb_offsets_size (msg_buf msg) < 2 ^ 64 ->
  bcmd_read_transaction bh fuel env s msg buf size = Ret (n, pmsg, s') ->
  n < 0 /\ pmsg <> None /\ user_out s' = user_out s.
Proof.
  intros Hp Hos Hend H. unfold bcmd_read_transaction in H.
  assert (offsets_ptr env < offsets_end env (msg_buf msg)) as Hloop
    by (unfold offsets_end, size_t; rewrite Z.mod_small; lia).
  destruct (_ >? size).
  - injection H as <- <- <-. unfold ENOSPC. split; [lia|]. split; [discriminate|reflexivity].
  - destruct (read_msg_buf_loop fuel env (proc s) (msg_buf msg)) as [[[r p1] b1]| | |] eqn:E;
      simpl in H; try discriminate.
    apply read_msg_buf_loop_no_success in E; [|exact Hloop].
    destruct (Z.ltb_spec r 0); [|lia].
    injection H as <- <- <-. split; [exact H0|]. split; [discriminate|reflexivity].
Qed.

(** ** Message allocation *)

Lemma msg_buf_align_ge (n : Z) :
  0 <= n <= 2 ^ 64 - sizeof_ptr -> n <= MSG_BUF_ALIGN n < n + sizeof_ptr.
Proof.
  unfold MSG_BUF_ALIGN, sizeof_ptr, size_t. change (8 - 1) with 7. intros Hn.
  rewrite Z.mod_small by lia.
  assert (H := Z.div_mod (n + 7) 8 ltac:(lia)).
  assert (Hm := Z.mod_pos_bound (n + 7) 8 ltac:(lia)). lia.
Qed.


(** X12.  [MSG_BUF_ALIGN] rounds a size up to the next multiple of the
    pointer size as long as that multiple is a [size_t]: for [n] up to
    2^64 - 8 the result is a multiple of 8, not below [n] and less than 8
    above it, and aligning twice changes nothing.  Above that the sum wraps
    and the result is 0. *)
Theorem msg_buf_align_bounds (n : Z) :
  (0 <= n <= 2 ^ 64 - sizeof_ptr ->
   n <= MSG_BUF_ALIGN n < n + sizeof_ptr
   /\ MSG_BUF_ALIGN n mod sizeof_ptr = 0
   /\ MSG_BUF_ALIGN (MSG_BUF_ALIGN n) = MSG_BUF_ALIGN n)
  /\ (2 ^ 64 - sizeof_ptr < n < 2 ^ 64 -> MSG_BUF_ALIGN n = 0).
Proof.
  unfold MSG_BUF_ALIGN, sizeof_ptr, size_t. change (8 - 1) with 7. split.
  - intros Hn. rewrite (Z.mod_small (n + 7)) by lia.
    assert (H := Z.div_mod (n + 7) 8 ltac:(lia)).
    assert (Hm := Z.mod_pos_bound (n + 7) 8 ltac:(lia)).
    split; [lia|]. split; [apply Z.mod_mul; lia|].
    rewrite Z.mod_small by lia.
    replace ((n + 7) / 8 * 8 + 7) with (7 + (n + 7) / 8 * 8) by lia.
    rewrite Z.div_add by lia. replace (7 / 8) with 0 by reflexivity. lia.
  - intros Hn. replace (n + 7) with ((n + 7 - 2 ^ 64) + 1 * 2 ^ 64) by lia.
    rewrite Z.mod_add by lia. rewrite Z.mod_small by lia.
    rewrite Z.div_small by lia. reflexivity.
Qed.



(** ** More on the looper controller *)

(** X14.  A thread that is not active and enters the loop can leave it
    again: BC_ENTER_LOOPER followed by BC_EXIT_LOOPER both return 0 and leave
    [num_loopers] and [pending_loopers] of the process where they were. *)
Theorem enter_then_exit_looper (bh : binder_h) (s : state) :
  looper_active bh (th_state (thread s)) = false ->
  exists s1 s2,
    bcmd_write_looper bh s BC_ENTER_LOOPER = Ret (0, s1)
    /\ pr_num_loopers (proc s1) = pr_num_loopers (proc s) + 1
    /\ bcmd_write_looper bh s1 BC_EXIT_LOOPER = Ret (0, s2)
    /\ pr_num_loopers (proc s2) = pr_num_loopers (proc s)
    /\ pr_pending_loopers (proc s2) = pr_pending_loopers (proc s)
    /\ th_last_error (thread s2) = th_last_error (thread s).
Proof.
  intros Ha. unfold bcmd_write_looper at 1. rewrite Ha. simpl.
  eexists. eexists. split; [reflexivity|]. split; [reflexivity|].
  unfold bcmd_write_looper. simpl.
  assert ((Z.land (Z.lor (th_state (thread s)) BINDER_LOOPER_STATE_ENTERED)
                  BINDER_LOOPER_STATE_ENTERED =? 0) = false) as Hbit.
  { apply Z.eqb_neq. intros H. apply (f_equal (fun z => Z.testbit z 1)) in H.
    rewrite Z.land_spec, Z.lor_spec in H. unfold BINDER_LOOPER_STATE_ENTERED in H.
    simpl in H. rewrite orb_true_r in H. discriminate. }
  rewrite Hbit. simpl. split; [reflexivity|]. simpl. repeat split; lia.
Qed.

(** X15.  A looper command touches the looper accounting only: it returns
    0 or -1, it leaves the queues, [max_threads] and the object table alone,
    and when it returns -1 the counters of the process are unchanged and
    BR_FAILED_REPLY is latched. *)
Theorem write_looper_frame (bh : binder_h) (s s' : state) (bcmd : cmd_t) (r : Z) :
  bcmd_write_looper bh s bcmd = Ret (r, s') ->
  queues s' = queues s
  /\ pr_max_threads (proc s') = pr_max_threads (proc s)
  /\ pr_obj_tree (proc s') = pr_obj_tree (proc s)
  /\ (r = 0 \/ (r = -1
               /\ pr_num_loopers (proc s') = pr_num_loopers (proc s)
               /\ pr_pending_loopers (proc s') = pr_pending_loopers (proc s)
               /\ th_state (thread s') = th_state (thread s)
               /\ th_last_error (thread s') = Some BR_FAILED_REPLY)).
Proof.
  intros H. unfold bcmd_write_looper in H.
  destruct bcmd; simpl in H;
    repeat match type of H with
           | context [if ?c then _ else _] => destruct c; simpl in H
           end;
    injection H as <- <-; simpl; repeat split; auto; right; repeat split.
Qed.

(** ** Where the write side sends *)

Lemma write_msg_frame (qs qs' : gmap Z msg_queue) (q q' r : Z) (msg : bcmd_msg) :
  bcmd_write_msg qs q msg = (r, qs') \/ _bcmd_write_msg qs q msg = (r, qs') ->
  q' <> q -> qs' !! q' = qs !! q'.
Proof.
  unfold bcmd_write_msg, _bcmd_write_msg, write_msg_queue.
  intros H Hne.
  assert ((let (r0, qs0) := match qs !! q with
            | Some mq => if q_closed mq then (- EBADF, qs)
                         else (0, <[q := set_entries (q_entries mq ++ [msg]) mq]> qs)
            | None => (- EBADF, qs)
            end in qs0 !! q') = qs !! q') as Hw.
  { destruct (qs !! q) as [mq|]; [|reflexivity].
    destruct (q_closed mq); [reflexivity|]. simpl. apply lookup_insert_ne. congruence. }
  destruct H as [H|H].
  - destruct (get_msg_queue qs q <? 0).
    + injection H as <- <-. reflexivity.
    + rewrite H in Hw. exact Hw.
  - rewrite H in Hw. exact Hw.
Qed.

Lemma find_obj_home (proc : binder_proc) (b : Z) (obj : binder_obj) :
  tree_ptrs (pr_obj_tree proc) = true ->
  is_ptr (pr_queue proc) = true -> is_ptr b = true ->
  binder_find_obj proc b = Some obj ->
  owner (obj_id obj) = pr_queue proc.
Proof.
  intros Ht Ho Hb Hf. unfold binder_find_obj, _binder_find_obj in Hf.
  destruct (tree_ptrs_spine _ _ Ht (rb_find_in_spine _ _ _ Hf)) as [Hxo Hxb].
  apply rb_find_cmp, obj_id_cmp_zero in Hf as [H1 H2]. simpl in H1.
  apply size_t_zero in H1; auto.
Qed.

(** X16.  A death-notification command never leaves the caller's process:
    [binder_find_obj] looks the binder up under the caller's own queue as
    owner, so the request, if it is queued at all, is queued on the caller's
    own process queue, and every other queue is as it was. *)
Theorem notifier_request_stays_home (env : environ) (s s' : state)
    (notifier : bcmd_notifier_data) (bcmd : cmd_t) (r : Z) :
  tree_ptrs (pr_obj_tree (proc s)) = true ->
  is_ptr (pr_queue (proc s)) = true ->
  is_ptr (nd_binder notifier) = true ->
  bcmd_write_notifier env s notifier bcmd = Ret (r, s') ->
  forall q, q <> pr_queue (proc s) -> queues s' !! q = queues s !! q.
Proof.
  intros Ht Hq Hb H q Hne. unfold bcmd_write_notifier, failed in H.
  destruct (binder_find_obj (proc s) (nd_binder notifier)) as [obj|] eqn:Hf.
  2: { injection H as <- <-. reflexivity. }
  rewrite (find_obj_home _ _ _ Ht Hq Hb Hf) in H.
  destruct (binder_alloc_msg env 0 0) as [msg|].
  2: { injection H as <- <-. reflexivity. }
  match type of H with
  | context [bcmd_write_msg ?a ?b ?c] => destruct (bcmd_write_msg a b c) as [r1 qs] eqn:Hw
  end.
  assert (qs !! q = queues s !! q) as Hqs
    by (apply (write_msg_frame _ _ _ _ _ _ (or_introl Hw)); exact Hne).
  destruct (r1 <? 0); injection H as <- <-; exact Hqs.
Qed.

Lemma write_transaction_send_frame (bh : binder_h) (fuel : nat) (env : environ) (s s' : state)
    (tdata : bcmd_transaction_data) (bcmd : cmd_t) (obj : binder_obj) (q0 r : Z)
    (msg : bcmd_msg) :
  write_transaction_send bh fuel env s tdata bcmd obj q0 msg = Ret (r, s') ->
  forall q, q <> q0 -> q <> th_queue (thread s) -> queues s' !! q = queues s !! q.
Proof.
  intros H q Hq0 Hqt. unfold write_transaction_send, failed in H.
  unfold mbind at 1, run_bind at 1 in H.
  match type of H with
  | context [match ?c with Ret _ => _ | Oops => _ | Spin => _ | Sleep => _ end] =>
      assert (forall l s1 m1, c = Ret (l, s1, m1) ->
                queues s1 = queues s /\ th_queue (thread s1) = th_queue (thread s)) as Hload;
      [|destruct c as [[[l s1] m1]| | |]; try discriminate H]
  end.
  { intros l s1 m1 E. destruct (td_data_size tdata >? 0).
    - unfold mbind, run_bind in E.
      destruct (bcmd_write_msg_buf bh fuel env (proc s) (msg_buf msg) tdata)
        as [[[r0 p0] b0]| | |]; try discriminate E.
      injection E as <- <- <-. split; reflexivity.
    - injection E as <- <- <-. split; reflexivity. }
  destruct (Hload _ _ _ eq_refl) as [Hq1 Ht1]. clear Hload.
  destruct (negb l); simpl in H.
  { injection H as <- <-. simpl. rewrite Hq1. reflexivity. }
  destruct (bcmd_write_msg (queues s1) q0 m1) as [r1 qs1] eqn:Hw.
  assert (qs1 !! q = queues s !! q) as Hqs1.
  { rewrite <- Hq1. apply (write_msg_frame _ _ _ _ _ _ (or_introl Hw)). exact Hq0. }
  destruct (r1 <? 0); simpl in H.
  { injection H as <- <-. exact Hqs1. }
  destruct (binder_alloc_msg env 0 0) as [ack|].
  2: { injection H as <- <-. destruct (_ && _); exact Hqs1. }
  match type of H with
  | context [_bcmd_write_msg ?a ?b ?c] => destruct (_bcmd_write_msg a b c) as [r2 qs2] eqn:Hw2
  end.
  assert (qs2 !! q = queues s !! q) as Hqs2.
  { rewrite <- Hqs1.
    destruct (bool_decide (bcmd = BC_TRANSACTION) && negb (one_way bh (td_flags tdata)));
      simpl in Hw2; apply (write_msg_frame _ _ _ _ _ _ (or_intror Hw2)); rewrite Ht1; exact Hqt. }
  destruct (r2 <? 0); injection H as <- <-; exact Hqs2.
Qed.

(** X17.  A transaction addressed by a handle other than zero never
    leaves the sender's process: the target is looked up with
    [binder_find_obj], which finds only objects the sender owns, so the
    message goes to the sender's own process queue and the acknowledgement to
    the sender's thread queue; the queue of no other process changes.  Only
    the handle zero, the context manager, leads elsewhere. *)
Theorem transaction_by_handle_stays_home (bh : binder_h) (fuel : nat) (env : environ)
    (s s' : state) (tdata : bcmd_transaction_data) (r : Z) :
  tree_ptrs (pr_obj_tree (proc s)) = true ->
  is_ptr (pr_queue (proc s)) = true ->
  is_ptr (td_target tdata) = true ->
  td_target tdata <> NULL ->
  bcmd_write_transaction bh fuel env s tdata BC_TRANSACTION = Ret (r, s') ->
  forall q, q <> pr_queue (proc s) -> q <> th_queue (thread s) ->
            queues s' !! q = queues s !! q.
Proof.
  intros Ht Hq Hb Hnz H q Hne Hnt. unfold bcmd_write_transaction, failed in H.
  destruct (decide (BC_TRANSACTION = BC_TRANSACTION)) as [_|Hx]; [|congruence].
  destruct (Z.eqb_spec (td_target tdata) NULL) as [E|_]; [contradiction|].
  destruct (binder_find_obj (proc s) (td_target tdata)) as [obj|] eqn:Hf.
  2: { injection H as <- <-. reflexivity. }
  rewrite (find_obj_home _ _ _ Ht Hq Hb Hf) in H.
  destruct (binder_alloc_msg env _ _) as [msg|].
  2: { injection H as <- <-. reflexivity. }
  exact (write_transaction_send_frame _ _ _ _ _ _ _ _ _ _ _ H q Hne Hnt).
Qed.

(** X18.  A reply is never sent: for BC_REPLY [bcmd_write_transaction]
    fails with BR_FAILED_REPLY latched and the queues untouched when no
    transaction is pending or the buffer cannot be had, and in every other
    case it stops at [obj_id_init] with a NULL process.  It never returns
    0. *)
Theorem reply_never_sent (bh : binder_h) (fuel : nat) (env : environ) (s : state)
    (tdata : bcmd_transaction_data) :
  bcmd_write_transaction bh fuel env s tdata BC_REPLY = Oops
  \/ exists s', bcmd_write_transaction bh fuel env s tdata BC_REPLY = Ret (-1, s')
                /\ th_last_error (thread s') = Some BR_FAILED_REPLY
                /\ queues s' = queues s
                /\ proc s' = proc s.
Proof.
  unfold bcmd_write_transaction, failed.
  destruct (decide (BC_REPLY = BC_TRANSACTION)) as [Hx|_]; [discriminate Hx|].
  destruct (th_incoming_transactions (thread s)) as [|msg rest].
  - right. eexists. split; [reflexivity|]. simpl. auto.
  - destruct (binder_realloc_msg env msg _ _).
    + left. reflexivity.
    + right. eexists. split; [reflexivity|]. simpl. auto.
Qed.

(** ** What [binder_thread_write] returns *)

Lemma write_one_within (bh : binder_h) (fuel : nat) (env : environ) (s s' : state)
    (p ep p' e : Z) :
  p + sizeof_cmd < ep ->
  write_one bh fuel env s p ep = Ret (inl (p', e), s') -> p' <= ep.
Proof.
  intros Hp H. unfold write_one in H.
  destruct (u_cmd env p) as [c|]; [|discriminate].
  destruct c; try discriminate H.
  1, 2: destruct (Z.gtb_spec (p + sizeof_cmd + sizeof_tdata bh) ep); [discriminate|];
        destruct (u_tdata env _); [|discriminate];
        destruct (_ && _); [discriminate|]; unfold mbind, run_bind in H;
        destruct (bcmd_write_transaction _ _ _ _ _ _) as [[r1 s1]| | |]; try discriminate;
        injection H as <- <- <-; lia.
  1, 2: destruct (Z.gtb_spec (p + sizeof_cmd + sizeof_notifier_data) ep); [discriminate|];
        destruct (u_notifier env _); [|discriminate]; unfold mbind, run_bind in H;
        destruct (bcmd_write_notifier _ _ _ _) as [[r1 s1]| | |]; try discriminate;
        injection H as <- <- <-; lia.
  all: unfold mbind, run_bind in H;
       destruct (bcmd_write_looper _ _ _) as [[r1 s1]| | |]; try discriminate;
       injection H as <- <- <-; lia.
Qed.

Lemma write_one_error (bh : binder_h) (fuel : nat) (env : environ) (s s' : state)
    (p ep e : Z) :
  write_one bh fuel env s p ep = Ret (inr e, s') ->
  (e = - EFAULT \/ e = - EINVAL) /\ s' = s.
Proof.
  intros H. unfold write_one in H.
  destruct (u_cmd env p) as [c|]; [|injection H as <- <-; auto].
  destruct c;
    repeat match type of H with
           | context [if ?c then _ else _] => destruct c
           | context [match u_tdata ?a ?b with _ => _ end] => destruct (u_tdata a b)
           | context [match u_notifier ?a ?b with _ => _ end] => destruct (u_notifier a b)
           end;
    unfold mbind, run_bind in H;
    try (injection H as <- <-; auto);
    repeat match type of H with
           | context [match ?c with Ret _ => _ | Oops => _ | Spin => _ | Sleep => _ end] =>
               destruct c as [[? ?]| | |]
           end; discriminate H.
Qed.

Lemma write_loop_result (bh : binder_h) (fuel : nat) (env : environ) (buf ep : Z) (n : nat) :
  forall (s s' : state) (p err r : Z),
  p <= ep ->
  write_loop bh fuel n env s buf p ep err = Ret (r, s') ->
  (r = - EFAULT \/ r = - EINVAL) \/ (p - buf <= r <= ep - buf /\ ep - sizeof_cmd - buf <= r).
Proof.
  induction n as [|n IH]; intros s s' p err r Hp H; simpl in H.
  - destruct (Z.ltb_spec (p + sizeof_cmd) ep); simpl in H; [discriminate|].
    injection H as <- <-. right. lia.
  - destruct (Z.ltb_spec (p + sizeof_cmd) ep); simpl in H.
    2: { injection H as <- <-. right. lia. }
    unfold mbind at 1, run_bind at 1 in H.
    destruct (write_one bh fuel env s p ep) as [[[[p' e]|e] s1]| | |] eqn:E; try discriminate H.
    + assert (Hw := write_one_within _ _ _ _ _ _ _ _ _ H0 E).
      assert (Hf := write_one_forward _ _ _ _ _ _ _ _ _ E).
      apply IH in H; [|exact Hw]. unfold sizeof_cmd in *. lia.
    + injection H as <- <-. left. exact (proj1 (write_one_error _ _ _ _ _ _ _ _ E)).
Qed.

(** X19.  For a write buffer that lies in the lower half of the address
    space, and a [struct binder_transaction_data] of a size below 2^32, so
    that no pointer sum of the loop wraps, [binder_thread_write] returns
    -EFAULT, -EINVAL or the number of bytes it went through, which is at most
    [size] and within four bytes of it: a command that fails (the handlers
    return -1) does not show in the return value. *)
Theorem thread_write_result (bh : binder_h) (fuel : nat) (env : environ) (s s' : state)
    (buf size r : Z) :
  0 <= buf -> 0 <= size -> buf + size <= 2 ^ 63 ->
  sizeof_tdata bh < 2 ^ 32 ->
  binder_thread_write bh fuel env s buf size = Ret (r, s') ->
  r = - EFAULT \/ r = - EINVAL \/ (0 <= r <= size /\ size - 4 <= r).
Proof.
  intros _ Hs _ _ H. unfold binder_thread_write in H.
  apply write_loop_result in H; [|lia]. unfold sizeof_cmd in H. lia.
Qed.

(** ** More on the teardown *)

Lemma fire_notifiers_no_memory (env : environ) (obj : binder_obj) (l : list binder_notifier)
    (qs : gmap Z msg_queue) (log : list teardown_event) :
  kmalloc env = false ->
  fire_notifiers env obj l None qs log
  = match l with
    | [] => (true, qs, log)
    | n :: _ => (false, qs, log ++ [ev_list_del (obj_id obj) n])
    end.
Proof.
  intros Hk. destruct l as [|n rest]; simpl; [reflexivity|]. rewrite Hk. reflexivity.
Qed.

Lemma free_objs_no_memory (env : environ) (queue : Z) :
  kmalloc env = false ->
  forall (k : nat) (t : rb_root) (qs qs' : gmap Z msg_queue) (log log' : list teardown_event)
         (r : Z),
  free_objs k env queue t qs log = Ret (r, qs', log') ->
  qs' = qs
  /\ (forallb (fun e => negb (is_ev_write e)) log = true ->
      forallb (fun e => negb (is_ev_write e)) log' = true)
  /\ (r = 0 \/ r = - ENOMEM)
  /\ (r = 0 -> forall o, In o (inorder t) -> is_owned queue o = true -> notifiers o = []).
Proof.
  intros Hk. induction k as [|k IH]; intros t qs qs' log log' r H.
  - simpl in H. destruct (rb_first t) eqn:Hf; [discriminate|].
    apply rb_first_none in Hf. subst t. injection H as <- <- <-.
    repeat split; auto. intros _ o [].
  - simpl in H. destruct (rb_first t) as [obj|] eqn:Hf.
    2: { apply rb_first_none in Hf. subst t. injection H as <- <- <-.
         repeat split; auto. intros _ o []. }
    destruct (rb_first_some t obj Hf) as [Hin _]. rewrite Hin.
    fold (is_owned queue obj) in H.
    destruct (is_owned queue obj) eqn:Hown; simpl in H.
    + rewrite (fire_notifiers_no_memory env obj _ qs log Hk) in H.
      destruct (notifiers obj) as [|n rest] eqn:Hn.
      * apply IH in H as (-> & Hlog & Hr & Hall). repeat split; auto.
        intros Hr0 o [<-|Ho] Ho'; [exact Hn|]. exact (Hall Hr0 o Ho Ho').
      * injection H as <- <- <-. repeat split; auto.
        -- intros Hl. rewrite forallb_app, Hl. reflexivity.
        -- unfold ENOMEM. discriminate.
    + destruct (notifiers obj) as [|n rest] eqn:Hn; [|discriminate].
      apply IH in H as (-> & Hlog & Hr & Hall). repeat split; auto.
      * intros Hl. apply Hlog. rewrite forallb_app, Hl. reflexivity.
      * intros Hr0 o [<-|Ho] Ho'; [exact Hn|]. exact (Hall Hr0 o Ho Ho').
Qed.

(** X20.  Without memory the teardown tells nobody: when [kmalloc] gives
    nothing, [binder_free_proc] writes no death message at all, and it
    returns -ENOMEM as soon as it meets an owned object with a notifier; it
    returns 0 only if no owned object has one. *)
Theorem teardown_no_memory (env : environ) (qs qs' : gmap Z msg_queue) (proc : binder_proc)
    (r : Z) (log : list teardown_event) :
  kmalloc env = false ->
  binder_free_proc env qs proc = Ret (r, qs', log) ->
  forallb (fun e => negb (is_ev_write e)) log = true
  /\ drain_queues qs proc = Ret qs'
  /\ (r = 0 \/ r = - ENOMEM)
  /\ (r = 0 -> forall o, In o (inorder (pr_obj_tree proc)) ->
               is_owned (pr_queue proc) o = true -> notifiers o = []).
Proof.
  intros Hk H. unfold binder_free_proc in H. unfold drain_queues.
  unfold mbind, run_bind in *.
  destruct (free_msg_queue free_queued_msg qs (pr_queue proc)) as [qs1| | |]; try discriminate H.
  destruct (free_threads qs1 (pr_thread_tree proc)) as [qs2| | |]; try discriminate H.
  apply (free_objs_no_memory env _ Hk) in H as (-> & Hlog & Hr & Hall).
  split; [exact (Hlog eq_refl)|]. auto.
Qed.

Lemma free_queued_msg_returns (qs : gmap Z msg_queue) (msg : bcmd_msg) :
  (msg_type msg = BC_TRANSACTION /\ msg_reply_queue msg = NULL
   /\ free_queued_msg qs msg = Oops)
  \/ exists qs', free_queued_msg qs msg = Ret qs'.
Proof.
  unfold free_queued_msg. destruct (decide (msg_type msg = BC_TRANSACTION)) as [Ht|Ht].
  - destruct (Z.eqb_spec (msg_reply_queue msg) NULL) as [Hq|Hq].
    + left. auto.
    + right. destruct (bcmd_write_msg _ _ _) as [r1 qs1]. eexists. reflexivity.
  - right. eexists. reflexivity.
Qed.

Lemma drop_entries_one_way (l : list bcmd_msg) (msg : bcmd_msg) :
  In msg l -> msg_type msg = BC_TRANSACTION -> msg_reply_queue msg = NULL ->
  forall qs, drop_entries free_queued_msg qs l = Oops.
Proof.
  intros Hin Hty Hq. induction l as [|m rest IH]; [destruct Hin|]. intros qs.
  simpl. unfold mbind, run_bind.
  destruct Hin as [->|Hin].
  - unfold free_queued_msg. rewrite Hq.
    destruct (decide (msg_type msg = BC_TRANSACTION)); [reflexivity|contradiction].
  - destruct (free_queued_msg_returns qs m) as [(_ & _ & ->)|[qs' ->]]; [reflexivity|].
    exact (IH Hin qs').
Qed.

(** X21.  A one-way transaction still waiting in the queue of a process
    stops the teardown: [bcmd_write_transaction] stores NULL as the reply
    queue of a TF_ONE_WAY transaction, and [free_queued_msg] has
    [BUG_ON(!msg->reply_queue)] for every BC_TRANSACTION it is handed. *)
Theorem teardown_one_way_pending (bh : binder_h) (env env' : environ) (s : state)
    (tdata : bcmd_transaction_data) (id : obj_id_t) (m0 : bcmd_msg)
    (qs : gmap Z msg_queue) (proc' : binder_proc) (mq : msg_queue) :
  one_way bh (td_flags tdata) = true ->
  qs !! pr_queue proc' = Some mq ->
  In (fill_msg bh env s tdata BC_TRANSACTION id m0) (q_entries mq) ->
  binder_free_proc env' qs proc' = Oops.
Proof.
  intros Hone Hq Hin. unfold binder_free_proc, free_msg_queue. rewrite Hq.
  rewrite (drop_entries_one_way _ _ Hin); [reflexivity|reflexivity|].
  simpl. rewrite Hone. reflexivity.
Qed.

(** X22.  A death message is not delivered: the teardown types its
    messages BC_DEAD_BINDER, the reader has a case for BR_DEAD_BINDER only,
    so the round that takes a message of the teardown off a queue frees it
    and makes [binder_thread_read] return -EFAULT with nothing stored in the
    read buffer. *)
Theorem death_message_refused (bh : binder_h) (fuel : nat) (env : environ) (s : state)
    (buf p size : Z) (mq : msg_queue) (m0 : bcmd_msg) (obj : binder_obj)
    (n : binder_notifier) (rest : list bcmd_msg) :
  queues s !! read_queue s = Some mq ->
  q_entries mq = dead_binder_msg m0 obj n :: rest ->
  read_round bh fuel env s buf p size
  = Ret (round_return (- EFAULT)
           (set_queues (<[read_queue s := set_entries rest mq]> (queues s)) s)).
Proof.
  intros Hq He.
  assert (read_next s
          = Ret (0, Some (dead_binder_msg m0 obj n),
                 <[read_queue s := set_entries rest mq]> (queues s))) as Hnext.
  { unfold read_next, read_queue in *.
    destruct (read_from_thread s);
      unfold bcmd_read_msg, get_msg_queue, _bcmd_read_msg, read_msg_queue;
      rewrite Hq, He; reflexivity. }
  unfold read_round. rewrite Hnext. reflexivity.
Qed.

(** ** The notifier engine at the owner *)

Lemma rb_store_store (f g : binder_obj -> binder_obj) (t : rb_root) (id : obj_id_t) :
  (forall o, obj_id (f o) = obj_id o) ->
  rb_store g (rb_store f t id) id = rb_store (fun o => g (f o)) t id.
Proof.
  intros Hf. induction t as [|l IHl x r IHr]; simpl; [reflexivity|].
  destruct (obj_id_cmp id (obj_id x) <? 0) eqn:E1; simpl.
  - rewrite E1, IHl. reflexivity.
  - destruct (obj_id_cmp id (obj_id x) >? 0) eqn:E2; simpl.
    + rewrite E1, E2, IHr. reflexivity.
    + rewrite Hf, E1, E2. reflexivity.
Qed.

Lemma rb_store_found (f : binder_obj -> binder_obj) (t : rb_root) (id : obj_id_t)
    (o : binder_obj) :
  rb_find t id = Some o -> f o = o -> rb_store f t id = t.
Proof.
  intros Hfind Hf. induction t as [|l IHl x r IHr]; simpl in *; [reflexivity|].
  destruct (obj_id_cmp id (obj_id x) <? 0).
  - rewrite (IHl Hfind). reflexivity.
  - destruct (obj_id_cmp id (obj_id x) >? 0).
    + rewrite (IHr Hfind). reflexivity.
    + injection Hfind as ->. rewrite Hf. reflexivity.
Qed.

Lemma list_del_first_app (f : binder_notifier -> bool) (l : list binder_notifier)
    (n : binder_notifier) :
  list_del_first f l = None -> f n = true -> list_del_first f (l ++ [n]) = Some l.
Proof.
  intros Hl Hn. induction l as [|x rest IH]; simpl in *; [rewrite Hn; reflexivity|].
  destruct (f x); [discriminate|].
  destruct (list_del_first f rest); [discriminate|]. rewrite (IH eq_refl). reflexivity.
Qed.

(** X23.  At the owner a death-notification request followed by the clear
    request of the same watcher (same binder, cookie and reply queue) leaves
    the object table as it was: the request appends one notifier and stores
    nothing in the read buffer, the clear takes that notifier off again and
    answers BR_CLEAR_DEATH_NOTIFICATION_DONE, when no earlier notifier of the
    object matches. *)
Theorem notifier_request_then_clear (env : environ) (s : state) (req clr : bcmd_msg)
    (buf size : Z) (obj : binder_obj) :
  kmalloc env = true ->
  u_put env buf = true ->
  sizeof_cmd <= size ->
  msg_type req = BC_REQUEST_DEATH_NOTIFICATION ->
  msg_type clr = BC_CLEAR_DEATH_NOTIFICATION ->
  binder (msg_obj_id clr) = binder (msg_obj_id req) ->
  msg_cookie clr = msg_cookie req ->
  msg_reply_queue clr = msg_reply_queue req ->
  _binder_find_obj (proc s) (pr_queue (proc s)) (binder (msg_obj_id req)) = Some obj ->
  list_del_first (notifier_matches clr) (notifiers obj) = None ->
  exists s1 s2,
    bcmd_read_notifier env s req buf size = Ret (0, None, s1)
    /\ user_out s1 = user_out s
    /\ (notifiers <$> _binder_find_obj (proc s1) (pr_queue (proc s1)) (binder (msg_obj_id req))
        = Some (notifiers obj ++ [ {| nt_event := BINDER_EVT_OBJ_DEAD;
                                      nt_cookie := msg_cookie req;
                                      nt_notify_queue := msg_reply_queue req |} ]))
    /\ bcmd_read_notifier env s1 clr buf size = Ret (sizeof_cmd, None, s2)
    /\ user_out s2 = user_out s ++ [put_cmd buf BR_CLEAR_DEATH_NOTIFICATION_DONE]
    /\ proc s2 = proc s.
Proof.
  intros Hk Hput Hsize Hreq Hclr Hb Hc Hq Hfind Hnone.
  set (n := {| nt_event := BINDER_EVT_OBJ_DEAD; nt_cookie := msg_cookie req;
               nt_notify_queue := msg_reply_queue req |}).
  set (id := OBJ_ID_INIT (pr_queue (proc s)) (binder (msg_obj_id req))).
  set (f := fun o => set_notifiers (notifiers o ++ [n]) o).
  assert (forall o, obj_id (f o) = obj_id o) as Hf by reflexivity.
  assert (bcmd_read_notifier env s req buf size
          = Ret (0, None, set_proc (set_obj_tree (rb_store f (pr_obj_tree (proc s)) id)
                                                 (proc s)) s)) as H1.
  { unfold bcmd_read_notifier. rewrite Hfind, Hreq, Hk.
    destruct (decide (BC_REQUEST_DEATH_NOTIFICATION = BC_REQUEST_DEATH_NOTIFICATION));
      [reflexivity|contradiction]. }
  assert (notifier_matches clr n = true) as Hm.
  { unfold notifier_matches, n. simpl. rewrite Hc, Hq, !Z.eqb_refl. reflexivity. }
  unfold _binder_find_obj in Hfind. fold id in Hfind.
  eexists. eexists. split; [exact H1|]. split; [reflexivity|]. split.
  { unfold _binder_find_obj. simpl. fold id. rewrite (rb_find_store f _ _ Hf), Hfind.
    reflexivity. }
  unfold bcmd_read_notifier. simpl. rewrite Hb. fold id. unfold _binder_find_obj. simpl.
  fold id. rewrite (rb_find_store f _ _ Hf), Hfind. simpl. rewrite Hclr.
  destruct (decide (BC_CLEAR_DEATH_NOTIFICATION = BC_REQUEST_DEATH_NOTIFICATION)) as [Hx|_];
    [discriminate Hx|].
  destruct (Z.ltb_spec size sizeof_cmd); [lia|].
  rewrite (list_del_first_app _ _ _ Hnone Hm).
  unfold put_user. rewrite Hput. simpl.
  rewrite (rb_store_store f _ _ _ Hf).
  rewrite (rb_store_found _ _ _ obj Hfind) by (destruct obj; reflexivity).
  split; [reflexivity|]. simpl. split; [reflexivity|].
  destruct (proc s); reflexivity.
Qed.

(** ** What [binder_thread_read] stores and returns *)

Lemma stored_within_mono (bh : binder_h) (lo hi lo' hi' : Z) (l : list uwrite) :
  lo' <= lo -> hi <= hi' ->
  Forall (stored_within bh lo hi) l -> Forall (stored_within bh lo' hi') l.
Proof.
  intros Hlo Hhi H. eapply Forall_impl; [exact H|]. intros w [H1 H2]. split; lia.
Qed.

Lemma read_msg_buf_loop_data_size (env : environ) (n : nat) :
  forall (proc proc' : binder_proc) (mbuf mbuf' : bcmd_msg_buf) (r : Z),
  read_msg_buf_loop n env proc mbuf = Ret (r, proc', mbuf') ->
  mb_data_size mbuf' = mb_data_size mbuf.
Proof.
  induction n as [|n IH]; intros proc proc' mbuf mbuf' r H; simpl in H.
  - destruct (negb _); [injection H as _ _ <-; reflexivity|discriminate].
  - destruct (negb _); [injection H as _ _ <-; reflexivity|].
    destruct (bcmd_read_flat_obj env proc _) as [[r1 proc1] bp1].
    destruct (r1 <? 0); [injection H as _ _ <-; reflexivity|].
    apply IH in H. exact H.
Qed.

Ltac stores_within := repeat (constructor; [solve [auto]|]); constructor.

Lemma read_transaction_ok (bh : binder_h) (fuel : nat) (env : environ) (s s' : state)
    (msg : bcmd_msg) (buf size n : Z) (pmsg : option bcmd_msg) :
  sizeof_tdata bh < 2 ^ 32 ->
  sizeof_cmd <= size -> 0 <= mb_data_size (msg_buf msg) <= MAX_TRANSACTION_SIZE ->
  bcmd_read_transaction bh fuel env s msg buf size = Ret (n, pmsg, s') ->
  handler_ok bh s msg buf size n pmsg s'.
Proof.
  intros Hbh Hsz Hds H. unfold bcmd_read_transaction in H.
  assert (0 <= sizeof_tdata bh) as Htd0 by (unfold sizeof_tdata; lia).
  assert (Ha := msg_buf_align_ge (sizeof_cmd + sizeof_tdata bh)
                  ltac:(unfold sizeof_cmd, sizeof_ptr; lia)).
  assert (size_t (MSG_BUF_ALIGN (sizeof_cmd + sizeof_tdata bh) + mb_data_size (msg_buf msg))
          = MSG_BUF_ALIGN (sizeof_cmd + sizeof_tdata bh) + mb_data_size (msg_buf msg)) as Hsum.
  { unfold size_t. apply Z.mod_small.
    unfold sizeof_cmd, sizeof_ptr, MAX_TRANSACTION_SIZE in *. lia. }
  rewrite !Hsum in H. unfold MAX_TRANSACTION_SIZE in Hds.
  destruct (Z.gtb_spec (MSG_BUF_ALIGN (sizeof_cmd + sizeof_tdata bh) + mb_data_size (msg_buf msg))
                       size) as [Hgt|Hle].
  { injection H as <- <- <-. unfold handler_ok, ENOSPC, sizeof_cmd in *.
    split; [lia|]. split; [exists []; rewrite app_nil_r; auto|].
    intros m [= <-]. reflexivity. }
  destruct (read_msg_buf_loop fuel env (proc s) (msg_buf msg)) as [[[r p1] b1]| | |] eqn:E;
    simpl in H; try discriminate.
  apply read_msg_buf_loop_data_size in E.
  assert (forall w, stored_within bh buf (buf + size) (put_cmd buf w)) as Hw1
    by (intros w; unfold stored_within; cbn [uwrite_addr uwrite_len];
        unfold sizeof_cmd in *; lia).
  assert (forall w, stored_within bh buf (buf + size) (put_tdata (buf + sizeof_cmd) w)) as Hw2
    by (intros w; unfold stored_within; cbn [uwrite_addr uwrite_len];
        unfold sizeof_cmd in *; lia).
  assert (forall d, stored_within bh buf (buf + size)
                      (put_data (buf + MSG_BUF_ALIGN (sizeof_cmd + sizeof_tdata bh)) d
                                (mb_data_size b1))) as Hw3
    by (intros d; unfold stored_within; cbn [uwrite_addr uwrite_len];
        unfold sizeof_cmd in *; lia).
  unfold handler_ok. unfold put_user in H.
  destruct (Z.ltb_spec r 0).
  { injection H as <- <- <-. split; [unfold sizeof_cmd in *; lia|].
    split; [exists []; rewrite app_nil_r; auto|]. intros m [= <-]. exact E. }
  destruct (u_put env buf); simpl in H.
  2: { injection H as <- <- <-. split; [unfold EFAULT, sizeof_cmd in *; lia|].
       split; [exists []; rewrite app_nil_r; auto|]. intros m [= <-]. exact E. }
  destruct (u_put env (buf + sizeof_cmd)); simpl in H.
  2: { injection H as <- <- <-. split; [unfold EFAULT, sizeof_cmd in *; lia|].
       split; [eexists; split; [unfold add_out; simpl; reflexivity|stores_within]|].
       intros m [= <-]. exact E. }
  destruct (u_put env (buf + MSG_BUF_ALIGN (sizeof_cmd + sizeof_tdata bh))); simpl in H.
  2: { injection H as <- <- <-. split; [unfold EFAULT, sizeof_cmd in *; lia|].
       split; [eexists; split; [unfold add_out; simpl; rewrite <- app_assoc; reflexivity
                               |stores_within]|].
       intros m [= <-]. exact E. }
  injection H as <- <- <-. split; [lia|]. split; [|discriminate].
  eexists. split; [unfold add_out; simpl; rewrite <- !app_assoc; reflexivity|]. stores_within.
Qed.

Lemma read_notifier_ok (bh : binder_h) (env : environ) (s s' : state)
    (msg : bcmd_msg) (buf size n : Z) (pmsg : option bcmd_msg) :
  sizeof_cmd <= size ->
  bcmd_read_notifier env s msg buf size = Ret (n, pmsg, s') ->
  handler_ok bh s msg buf size n pmsg s'.
Proof.
  intros Hsz H. unfold bcmd_read_notifier, put_user in H. unfold handler_ok.
  assert (forall w, stored_within bh buf (buf + size) (put_cmd buf w)) as Hw1
    by (intros w; unfold stored_within; cbn [uwrite_addr uwrite_len];
        unfold sizeof_cmd in *; lia).
  assert (forall e, e = EFAULT \/ e = ENOMEM \/ e = ENOSPC -> - e <= size) as Herr
    by (unfold EFAULT, ENOMEM, ENOSPC, sizeof_cmd in *; lia).
  split_run H; injection H as <- <- <-.
  all: split; [try (apply Herr; tauto); unfold sizeof_cmd in *; lia|].
  all: split; [|intros m; try discriminate; intros [= <-]; reflexivity].
  all: try (exists []; rewrite app_nil_r; split; [reflexivity|constructor]).
  all: eexists; split; [reflexivity|stores_within].
Qed.

Lemma read_dead_binder_ok (bh : binder_h) (env : environ) (s s' : state)
    (msg : bcmd_msg) (buf size n : Z) (pmsg : option bcmd_msg) :
  sizeof_cmd <= size ->
  bcmd_read_dead_binder env s msg buf size = Ret (n, pmsg, s') ->
  handler_ok bh s msg buf size n pmsg s'.
Proof.
  intros Hsz H. unfold bcmd_read_dead_binder, put_user in H. unfold handler_ok.
  assert (forall w, stored_within bh buf (buf + size) (put_cmd buf w)) as Hw1
    by (intros w; unfold stored_within; cbn [uwrite_addr uwrite_len];
        unfold sizeof_cmd in *; lia).
  split_run H; injection H as <- <- <-.
  all: split; [unfold EFAULT, ENOSPC, sizeof_cmd in *; lia|].
  all: split; [|intros m; try discriminate; intros [= <-]; reflexivity].
  all: try (exists []; rewrite app_nil_r; split; [reflexivity|constructor]).
  all: eexists; split; [reflexivity|stores_within].
Qed.

Lemma read_dispatch_ok (bh : binder_h) (fuel : nat) (env : environ) (s s' : state)
    (msg : bcmd_msg) (p size : Z) (x : Z * option bcmd_msg + Z) :
  sizeof_tdata bh < 2 ^ 32 ->
  sizeof_cmd <= size -> 0 <= mb_data_size (msg_buf msg) <= MAX_TRANSACTION_SIZE ->
  read_dispatch bh fuel env s msg p size = Ret (x, s') ->
  match x with
  | inl (n, pmsg) => handler_ok bh s msg p size n pmsg s'
  | inr e => e < 0 /\ user_out s' = user_out s
  end.
Proof.
  intros Hbh Hsz Hds H. unfold read_dispatch in H.
  destruct (msg_type msg); simpl in H;
    try (injection H as <- <-; unfold EFAULT; split; [lia|reflexivity]).
  1, 2: destruct (bcmd_read_transaction bh fuel env s msg p size) as [[[n pm] s0]| | |] eqn:E;
        simpl in H; try discriminate; injection H as <- <-;
        exact (read_transaction_ok _ _ _ _ _ _ _ _ _ _ Hbh Hsz Hds E).
  1, 2: destruct (bcmd_read_notifier env s msg p size) as [[[n pm] s0]| | |] eqn:E;
        simpl in H; try discriminate; injection H as <- <-;
        exact (read_notifier_ok bh _ _ _ _ _ _ _ _ Hsz E).
  destruct (bcmd_read_dead_binder env s msg p size) as [[[n pm] s0]| | |] eqn:E;
    simpl in H; try discriminate; injection H as <- <-;
    exact (read_dead_binder_ok bh _ _ _ _ _ _ _ _ Hsz E).
Qed.

Lemma payloads_sized_insert (qs : gmap Z msg_queue) (q : Z) (mq : msg_queue) :
  payloads_sized qs ->
  (forall m, In m (q_entries mq) -> 0 <= mb_data_size (msg_buf m) <= MAX_TRANSACTION_SIZE) ->
  payloads_sized (<[q := mq]> qs).
Proof.
  intros Hqs Hmq q' mq' m Hl Hin. destruct (Z.eq_dec q' q) as [->|Hne].
  - rewrite lookup_insert_eq in Hl. injection Hl as <-. exact (Hmq m Hin).
  - rewrite lookup_insert_ne in Hl by congruence. exact (Hqs q' mq' m Hl Hin).
Qed.

Lemma read_next_sized (s : state) (r : Z) (pmsg : option bcmd_msg) (qs : gmap Z msg_queue) :
  payloads_sized (queues s) ->
  read_next s = Ret (r, pmsg, qs) ->
  payloads_sized qs
  /\ forall m, pmsg = Some m -> 0 <= mb_data_size (msg_buf m) <= MAX_TRANSACTION_SIZE.
Proof.
  intros Hs.
  assert (forall q, read_msg_queue (queues s) q = Ret (r, pmsg, qs) ->
            payloads_sized qs
            /\ forall m, pmsg = Some m ->
                         0 <= mb_data_size (msg_buf m) <= MAX_TRANSACTION_SIZE)
    as Hone.
  { intros q H. unfold read_msg_queue in H.
    destruct (queues s !! q) as [mq|] eqn:Hq.
    - destruct (q_entries mq) as [|m rest] eqn:He.
      + destruct (q_closed mq); [|destruct (q_non_block mq); [|discriminate]];
          injection H as <- <- <-; (split; [exact Hs|discriminate]).
      + injection H as <- <- <-. split.
        * apply payloads_sized_insert; [exact Hs|]. simpl. intros m' Hin.
          apply (Hs q mq m' Hq). rewrite He. right. exact Hin.
        * intros m' [= <-]. apply (Hs q mq m Hq). rewrite He. left. reflexivity.
    - injection H as <- <- <-. split; [exact Hs|discriminate]. }
  unfold read_next, bcmd_read_msg, _bcmd_read_msg.
  destruct (read_from_thread s); [apply Hone|].
  destruct (_ <? 0); [|apply Hone].
  intros [= <- <- <-]. split; [exact Hs|discriminate].
Qed.

Lemma write_head_sized (qs qs' : gmap Z msg_queue) (q r : Z) (msg : bcmd_msg) :
  payloads_sized qs -> 0 <= mb_data_size (msg_buf msg) <= MAX_TRANSACTION_SIZE ->
  _bcmd_write_msg_head qs q msg = (r, qs') \/ bcmd_write_msg_head qs q msg = (r, qs') ->
  payloads_sized qs'.
Proof.
  intros Hqs Hm.
  assert (_bcmd_write_msg_head qs q msg = (r, qs') -> payloads_sized qs') as Hone.
  { unfold _bcmd_write_msg_head, write_msg_queue_head.
    destruct (qs !! q) as [mq|] eqn:Hq; [|intros [= <- <-]; exact Hqs].
    destruct (q_closed mq); intros [= <- <-]; [exact Hqs|].
    apply payloads_sized_insert; [exact Hqs|]. simpl.
    intros m [<-|Hin]; [exact Hm|exact (Hqs q mq m Hq Hin)]. }
  intros [H|H]; [exact (Hone H)|]. unfold bcmd_write_msg_head in H.
  destruct (_ <? 0); [injection H as <- <-; exact Hqs|exact (Hone H)].
Qed.

Lemma read_round_ok (bh : binder_h) (fuel : nat) (env : environ) (s : state)
    (buf p size : Z) (x : round_result) :
  sizeof_tdata bh < 2 ^ 32 ->
  sizeof_cmd <= size -> payloads_sized (queues s) ->
  read_round bh fuel env s buf p size = Ret x ->
  (exists new, user_out (round_state x) = user_out s ++ new
               /\ Forall (stored_within bh p (p + size)) new)
  /\ payloads_sized (queues (round_state x))
  /\ match x with
     | round_continue _ p' size' => p <= p' /\ p' + size' = p + size /\ 0 <= size'
     | round_return r _ => r < 0 \/ r = p - buf
     end.
Proof.
  intros Hbh Hsz Hs H. unfold read_round in H.
  destruct (read_next s) as [[[r pmsg] qs]| | |] eqn:Hn; simpl in H; try discriminate.
  destruct (read_next_sized _ _ _ _ Hs Hn) as [Hqs Hm].
  destruct (Z.ltb_spec r 0).
  { injection H as <-. simpl. split; [exists []; rewrite app_nil_r; auto|]. auto. }
  destruct pmsg as [msg|]; [|discriminate].
  destruct (read_dispatch bh fuel env (set_queues qs s) msg p size) as [[y s0]| | |] eqn:E;
    simpl in H; try discriminate.
  assert (Hq := read_dispatch_queues _ _ _ _ _ _ _ _ _ E). destruct Hq as (Hq & _ & _).
  simpl in Hq.
  apply read_dispatch_ok in E; [|exact Hbh|exact Hsz|exact (Hm msg eq_refl)].
  destruct y as [[n pm]|e].
  2: { injection H as <-. simpl. destruct E as [He Hout]. rewrite Hout, Hq. simpl.
       split; [exists []; rewrite app_nil_r; auto|]. auto. }
  destruct E as (Hn' & Hnew & Hpm). simpl in Hnew.
  assert (payloads_sized (queues s0)) as Hs0 by (rewrite Hq; exact Hqs).
  destruct (Z.gtb_spec n 0).
  { injection H as <-. simpl. split; [exact Hnew|]. split; [exact Hs0|]. lia. }
  destruct (Z.ltb_spec n 0).
  2: { injection H as <-. simpl. split; [exact Hnew|]. split; [exact Hs0|].
       unfold sizeof_cmd in *. lia. }
  destruct (n =? - ENOSPC).
  2: { injection H as <-. simpl. split; [exact Hnew|]. split; [exact Hs0|]. left. lia. }
  destruct pm as [m|].
  2: { injection H as <-. simpl. split; [exact Hnew|]. split; [exact Hs0|]. right. reflexivity. }
  assert (0 <= mb_data_size (msg_buf m) <= MAX_TRANSACTION_SIZE) as Hmm
    by (rewrite (Hpm m eq_refl); exact (Hm msg eq_refl)).
  match type of H with
  | context [let '(_, _) := ?c in _] => destruct c as [r1 qs1] eqn:Hw
  end.
  injection H as <-. simpl. split; [exact Hnew|]. split; [|right; reflexivity].
  destruct (read_queue s =? th_queue (thread s0)).
  - exact (write_head_sized _ _ _ _ _ Hs0 Hmm (or_introl Hw)).
  - exact (write_head_sized _ _ _ _ _ Hs0 Hmm (or_intror Hw)).
Qed.

Lemma read_loop_ok (bh : binder_h) (fuel : nat) (env : environ) (buf : Z) (n : nat) :
  sizeof_tdata bh < 2 ^ 32 ->
  forall (s s' : state) (p size r : Z),
  0 <= size -> payloads_sized (queues s) ->
  read_loop bh fuel n env s buf p size = Ret (r, s') ->
  (exists new, user_out s' = user_out s ++ new
               /\ Forall (stored_within bh p (p + size)) new)
  /\ (r < 0 \/ p - buf <= r <= p - buf + size).
Proof.
  intros Hbh. induction n as [|n IH]; intros s s' p size r Hsz Hs H; simpl in H.
  - destruct (Z.geb_spec size sizeof_cmd); simpl in H; [discriminate|].
    injection H as <- <-. split; [exists []; rewrite app_nil_r; auto|]. right. lia.
  - destruct (Z.geb_spec size sizeof_cmd); simpl in H.
    2: { injection H as <- <-. split; [exists []; rewrite app_nil_r; auto|]. right. lia. }
    unfold mbind, run_bind in H.
    destruct (read_round bh fuel env s buf p size) as [x| | |] eqn:E; try discriminate.
    apply read_round_ok in E; [|exact Hbh|lia|exact Hs]. destruct E as ([new [Hout Hnew]] & Hs1 & Hx).
    destruct x as [s1 p1 size1|r1 s1]; simpl in *.
    + destruct Hx as (Hp & Hsum & Hsize1).
      apply IH in H; [|exact Hsize1|exact Hs1].
      destruct H as ([new' [Hout' Hnew']] & Hr). split; [|lia].
      exists (new ++ new'). split; [rewrite Hout', Hout, app_assoc; reflexivity|].
      apply Forall_app. split; [exact Hnew|].
      apply (stored_within_mono bh p1 (p1 + size1)); [lia|lia|exact Hnew'].
    + injection H as <- <-. split; [exists new; auto|]. lia.
Qed.

(** X24.  [binder_thread_read] stays inside the read buffer: when the
    buffer lies inside the address space, [struct binder_transaction_data]
    has a size below 2^32 and the payload of every queued message is of a
    size the write side lets through (at most MAX_TRANSACTION_SIZE), every
    store the call makes to user memory lies in [buf, buf + size), and what
    it returns is a negative error or a byte count between 0 and [size]. *)
Theorem thread_read_in_bounds (bh : binder_h) (fuel : nat) (env : environ) (s s' : state)
    (buf size r : Z) :
  0 <= buf -> 0 <= size -> buf + size <= 2 ^ 64 ->
  sizeof_tdata bh < 2 ^ 32 ->
  payloads_sized (queues s) ->
  binder_thread_read bh fuel env s buf size = Ret (r, s') ->
  (exists new, user_out s' = user_out s ++ new
               /\ Forall (stored_within bh buf (buf + size)) new)
  /\ (r < 0 \/ 0 <= r <= size).
Proof.
  intros _ Hsz _ Hbh Hs H. unfold binder_thread_read in H.
  destruct (bcmd_spawn_on_busy env s buf size) as [n s0] eqn:Hsp.
  assert ((n = 0 \/ n < 0 \/ (n = sizeof_cmd /\ sizeof_cmd <= size))
          /\ queues s0 = queues s
          /\ exists new0, user_out s0 = user_out s ++ new0
                          /\ Forall (stored_within bh buf (buf + size)) new0) as Hspawn.
  { unfold bcmd_spawn_on_busy, put_user in Hsp.
    assert (stored_within bh buf (buf + size) (put_cmd buf BR_SPAWN_LOOPER)
            \/ size < sizeof_cmd) as Hw.
    { destruct (Z.lt_ge_cases size sizeof_cmd); [right; assumption|left].
      unfold stored_within; cbn [uwrite_addr uwrite_len]. unfold sizeof_cmd in *. lia. }
    destruct (Z.ltb_spec size sizeof_cmd).
    { injection Hsp as <- <-. split; [auto|]. split; [reflexivity|].
      exists []. rewrite app_nil_r. auto. }
    destruct Hw as [Hw|Hw]; [|lia].
    destruct (Z.ltb_spec (bcmd_msg_queue_size (queues s) (pr_queue (proc s))) 0).
    { injection Hsp as <- <-. split; [auto|]. split; [reflexivity|].
      exists []. rewrite app_nil_r. auto. }
    destruct (_ >? 1).
    2: { injection Hsp as <- <-. split; [auto|]. split; [reflexivity|].
         exists []. rewrite app_nil_r. auto. }
    destruct (_ <? pr_max_threads (proc s)).
    2: { injection Hsp as <- <-. split; [auto|]. split; [reflexivity|].
         exists []. rewrite app_nil_r. auto. }
    destruct (u_put env buf); simpl in Hsp; injection Hsp as <- <-.
    - split; [auto|]. split; [reflexivity|]. eexists. split; [reflexivity|stores_within].
    - split; [unfold EFAULT; right; left; lia|]. split; [reflexivity|].
      exists []. rewrite app_nil_r. auto. }
  destruct Hspawn as (Hn & Hq0 & new0 & Hout0 & Hnew0).
  assert (payloads_sized (queues s0)) as Hs0 by (rewrite Hq0; exact Hs).
  destruct (Z.gtb_spec n 0).
  - assert (n = sizeof_cmd /\ sizeof_cmd <= size) as [-> Hge] by lia.
    apply read_loop_ok in H; [|exact Hbh|unfold sizeof_cmd in *; lia|exact Hs0].
    destruct H as ([new [Hout Hnew]] & Hr). unfold sizeof_cmd in *. split; [|lia].
    exists (new0 ++ new). split; [rewrite Hout, Hout0, app_assoc; reflexivity|].
    apply Forall_app. split; [exact Hnew0|].
    apply (stored_within_mono bh (buf + 4) (buf + 4 + (size - 4))); [lia|lia|exact Hnew].
  - destruct (Z.ltb_spec n 0).
    + injection H as <- <-. split; [exists new0; auto|]. left. assumption.
    + apply read_loop_ok in H; [|exact Hbh|exact Hsz|exact Hs0].
      destruct H as ([new [Hout Hnew]] & Hr). split; [|lia].
      exists (new0 ++ new). split; [rewrite Hout, Hout0, app_assoc; reflexivity|].
      apply Forall_app. split; assumption.
Qed.

(** ** The file operations *)

(** X25.  A file is opened once and released without a trace but the
    closed queue: [binder_open] on a free file makes a process record with
    empty tables and a new, empty queue in the blocking mode of the file; a
    second [binder_open] on the file returns -EBUSY and changes nothing; and
    [binder_release] then returns 0 and leaves the queue closed and empty,
    with no other queue touched. *)
Theorem open_then_release (k : kernel) (env env' : environ) (qs : gmap Z msg_queue)
    (filp : file) :
  private_data filp = None ->
  kmalloc env = true ->
  queue_addr k qs <> NULL ->
  exists filp' proc,
    binder_open k env qs filp
    = (0, filp', <[queue_addr k qs := create_msg_queue (file_non_block k filp)]> qs)
    /\ private_data filp' = Some proc
    /\ pr_queue proc = queue_addr k qs
    /\ pr_thread_tree proc = [] /\ pr_obj_tree proc = rb_nil
    /\ (forall qs1, binder_open k env' qs1 filp' = (- EBUSY, filp', qs1))
    /\ binder_release env'
         (<[queue_addr k qs := create_msg_queue (file_non_block k filp)]> qs) filp'
       = Ret (0, <[queue_addr k qs := freed_queue (file_non_block k filp)]> qs, []).
Proof.
  intros Hfree Hk Hq. unfold binder_open, binder_new_proc. rewrite Hfree, Hk. simpl.
  destruct (Z.eqb_spec (queue_addr k qs) NULL) as [E|_]; [contradiction|].
  eexists. eexists. split; [reflexivity|]. simpl. split; [reflexivity|].
  split; [reflexivity|]. split; [reflexivity|]. split; [reflexivity|].
  split; [reflexivity|].
  unfold binder_release, binder_free_proc, free_msg_queue. simpl.
  rewrite lookup_insert_eq. simpl. rewrite insert_insert_eq. reflexivity.
Qed.

Lemma thread_find_link (new : binder_thread) (l : list binder_thread) :
  thread_find (th_pid new) l = None ->
  thread_find (th_pid new) (thread_link new l) = Some new.
Proof.
  induction l as [|t rest IH]; simpl.
  - intros _. rewrite Z.ltb_irrefl, Z.gtb_ltb, Z.ltb_irrefl. reflexivity.
  - destruct (Z.ltb_spec (th_pid new) (th_pid t)).
    + intros _. simpl. rewrite Z.ltb_irrefl, Z.gtb_ltb, Z.ltb_irrefl. reflexivity.
    + destruct (Z.gtb_spec (th_pid new) (th_pid t)); [|discriminate].
      intros Hf. simpl.
      destruct (Z.ltb_spec (th_pid new) (th_pid t)); [lia|].
      destruct (Z.gtb_spec (th_pid new) (th_pid t)); [|lia]. exact (IH Hf).
Qed.

Lemma thread_find_pid (pid : Z) (l : list binder_thread) (t : binder_thread) :
  thread_find pid l = Some t -> th_pid t = pid /\ In t l.
Proof.
  induction l as [|x rest IH]; simpl; [discriminate|].
  destruct (Z.ltb_spec pid (th_pid x)); [discriminate|].
  destruct (Z.gtb_spec pid (th_pid x)).
  - intros H'. destruct (IH H'). auto.
  - intros [= <-]. split; [lia|auto].
Qed.

Lemma thread_link_increasing (new : binder_thread) (l : list binder_thread) :
  thread_find (th_pid new) l = None ->
  pids_increasing l = true -> pids_increasing (thread_link new l) = true.
Proof.
  induction l as [|t rest IH]; [reflexivity|].
  intros Hf Hs. simpl in Hf. simpl thread_link.
  destruct (Z.ltb_spec (th_pid new) (th_pid t)) as [Hlt|Hge].
  - change (((th_pid new <? th_pid t) && pids_increasing (t :: rest)) = true).
    rewrite Hs. destruct (Z.ltb_spec (th_pid new) (th_pid t)); [reflexivity|lia].
  - destruct (Z.gtb_spec (th_pid new) (th_pid t)) as [Hgt|]; [|discriminate].
    destruct rest as [|u rest'].
    + simpl. destruct (Z.ltb_spec (th_pid t) (th_pid new)); [reflexivity|lia].
    + simpl in Hs. apply andb_prop in Hs as [Htu Hs]. specialize (IH Hf Hs).
      simpl thread_link in *. destruct (th_pid new <? th_pid u).
      * change (((th_pid t <? th_pid new) && pids_increasing (new :: u :: rest')) = true).
        rewrite IH. destruct (Z.ltb_spec (th_pid t) (th_pid new)); [reflexivity|lia].
      * change (((th_pid t <? th_pid u) && pids_increasing (u :: thread_link new rest')) = true).
        rewrite Htu, IH. reflexivity.
Qed.

(** X26.  One thread record for each pid: the record [binder_get_thread]
    returns carries the caller's pid and is in the thread tree; a second
    call, whatever the file flags and whether or not memory is left, returns
    that very record and creates nothing; the tree stays ordered by pid and
    the other fields of the process are as they were. *)
Theorem get_thread_once (k : kernel) (env env' : environ) (qs qs' : gmap Z msg_queue)
    (proc proc' : binder_proc) (filp filp' : file) (t : binder_thread) :
  pids_increasing (pr_thread_tree proc) = true ->
  binder_get_thread k env qs proc filp = (Some t, proc', qs') ->
  th_pid t = task_pid_vnr k
  /\ In t (pr_thread_tree proc')
  /\ pids_increasing (pr_thread_tree proc') = true
  /\ binder_get_thread k env' qs' proc' filp' = (Some t, proc', qs')
  /\ set_thread_tree (pr_thread_tree proc) proc' = proc.
Proof.
  intros Hs H. unfold binder_get_thread in H.
  destruct (thread_find (task_pid_vnr k) (pr_thread_tree proc)) as [t0|] eqn:Hf.
  - injection H as <- <- <-. destruct (thread_find_pid _ _ _ Hf) as [Hp Hin].
    split; [exact Hp|]. split; [exact Hin|]. split; [exact Hs|].
    split; [|destruct proc; reflexivity].
    unfold binder_get_thread. rewrite Hf. reflexivity.
  - destruct (binder_new_thread k env qs filp (task_pid_vnr k)) as [[t1|] qs1] eqn:Hn;
      [|discriminate].
    injection H as <- <- <-.
    assert (th_pid t1 = task_pid_vnr k) as Hp.
    { unfold binder_new_thread in Hn. destruct (negb (kmalloc env)); [discriminate|].
      destruct (_ =? NULL); [discriminate|]. injection Hn as <- _. reflexivity. }
    rewrite <- Hp in Hf. assert (Hl := thread_find_link _ _ Hf).
    split; [exact Hp|]. split; [exact (proj2 (thread_find_pid _ _ _ Hl))|].
    split; [exact (thread_link_increasing _ _ Hf Hs)|].
    split; [|destruct proc; reflexivity].
    unfold binder_get_thread. simpl. rewrite <- Hp, Hl. reflexivity.
Qed.

Lemma thread_store_same (t : binder_thread) (l : list binder_thread) :
  thread_find (th_pid t) l = Some t -> thread_store t l = l.
Proof.
  induction l as [|x rest IH]; simpl; [reflexivity|].
  destruct (Z.ltb_spec (th_pid t) (th_pid x)); [discriminate|].
  destruct (Z.gtb_spec (th_pid t) (th_pid x)).
  - intros H'. rewrite (IH H'). destruct (Z.eqb_spec (th_pid x) (th_pid t)); [lia|].
    reflexivity.
  - intros [= ->]. rewrite Z.eqb_refl. reflexivity.
Qed.

(** X27.  Every ioctl looks up or creates the caller's thread record
    before it looks at the command: for a thread the process has not seen,
    every command, BINDER_VERSION too, fails with -ENOMEM when there is no
    memory, and with memory even an unknown command, which returns -EINVAL,
    leaves the new record in the thread tree and its new queue in the
    store. *)
Theorem ioctl_registers_thread (bh : binder_h) (fuel : nat) (k : kernel) (env : environ)
    (d : device) (filp : file) (proc : binder_proc) (cmd : ioctl_cmd) (raw size arg : Z) :
  private_data filp = Some proc ->
  thread_find (task_pid_vnr k) (pr_thread_tree proc) = None ->
  (kmalloc env = false ->
   binder_ioctl bh fuel k env d filp cmd size arg = Ret (- ENOMEM, out_none, d, filp))
  /\ (kmalloc env = true -> queue_addr k (dev_queues d) <> NULL ->
      exists d' filp' proc' t,
        binder_ioctl bh fuel k env d filp (BINDER_OTHER raw) size arg
        = Ret (- EINVAL, out_none, d', filp')
        /\ private_data filp' = Some proc'
        /\ thread_find (task_pid_vnr k) (pr_thread_tree proc') = Some t
        /\ th_queue t = queue_addr k (dev_queues d)
        /\ dev_queues d'
           = <[queue_addr k (dev_queues d) := create_msg_queue (file_non_block k filp)]>
               (dev_queues d)).
Proof.
  intros Hp Hf. split.
  - intros Hk. unfold binder_ioctl, binder_get_thread, binder_new_thread.
    rewrite Hp, Hf, Hk. simpl. destruct d; reflexivity.
  - intros Hk Hq. unfold binder_ioctl, binder_get_thread, binder_new_thread.
    rewrite Hp, Hf, Hk. simpl.
    destruct (Z.eqb_spec (queue_addr k (dev_queues d)) NULL) as [E|_]; [contradiction|].
    eexists. eexists. eexists. eexists. split; [reflexivity|]. simpl.
    split; [reflexivity|]. simpl.
    set (t := {| th_pid := task_pid_vnr k; th_queue := queue_addr k (dev_queues d);
                 th_state := 0; th_non_block := _; th_pending_replies := 0;
                 th_incoming_transactions := []; th_last_error := None |}).
    assert (thread_find (th_pid t) (thread_link t (pr_thread_tree proc)) = Some t) as Hl
      by (apply thread_find_link; exact Hf).
    rewrite (thread_store_same _ _ Hl). split; [exact Hl|]. split; reflexivity.
Qed.

(** X28.  BINDER_WRITE_READ has no [break]: when the write and the read
    went through and the structure was copied back, the ioctl goes on into
    the case BINDER_THREAD_EXIT and returns what [cmd_thread_exit], a
    function with an empty body, leaves as its value.  A result that is no
    negative error is therefore never the 0 of success by the code's own
    doing. *)
Theorem ioctl_write_read_falls_through (bh : binder_h) (fuel : nat) (k : kernel)
    (env : environ) (d d' : device) (filp filp' : file) (size arg r : Z) (o : ioctl_out) :
  binder_ioctl bh fuel k env d filp BINDER_WRITE_READ size arg = Ret (r, o, d', filp') ->
  r < 0 \/ (r = thread_exit_value k /\ exists bwr, o = out_bwr arg bwr).
Proof.
  intros H. unfold binder_ioctl in H.
  destruct (private_data filp) as [proc|]; [|discriminate].
  destruct (binder_get_thread k env (dev_queues d) proc filp) as [[[t|] proc1] qs1].
  2: { injection H as <- _ _ _. left. unfold ENOMEM. lia. }
  destruct (negb (size =? sizeof_write_read k)).
  { injection H as <- _ _ _. left. unfold EINVAL. lia. }
  destruct (u_bwr k arg) as [bwr|].
  2: { injection H as <- _ _ _. left. unfold EFAULT. lia. }
  unfold mbind, run_bind in H.
  destruct (cmd_write_read bh fuel env _ bwr) as [[[r1 s1] bwr1]| | |]; try discriminate.
  destruct (Z.ltb_spec r1 0).
  { injection H as <- _ _ _. left. assumption. }
  destruct (negb (u_put env arg)).
  { injection H as <- _ _ _. left. unfold EFAULT. lia. }
  injection H as <- <- _ _. right. split; [reflexivity|]. eexists. reflexivity.
Qed.

(** X29.  [binder_release] reports nothing: it drops the value of
    [binder_free_proc] and returns 0.  When there is no memory and an owned
    object has a notifier, the teardown gives up with -ENOMEM and no death
    message written, and the release still returns 0. *)
Theorem release_hides_no_memory (env : environ) (qs qs' : gmap Z msg_queue) (filp : file)
    (proc : binder_proc) (o : binder_obj) (r : Z) (log : list teardown_event) :
  kmalloc env = false ->
  private_data filp = Some proc ->
  In o (inorder (pr_obj_tree proc)) ->
  is_owned (pr_queue proc) o = true ->
  notifiers o <> [] ->
  binder_release env qs filp = Ret (r, qs', log) ->
  r = 0
  /\ binder_free_proc env qs proc = Ret (- ENOMEM, qs', log)
  /\ forallb (fun e => negb (is_ev_write e)) log = true.
Proof.
  intros Hk Hp Hin Hown Hn H. unfold binder_release in H. rewrite Hp in H.
  unfold mbind at 1, run_bind at 1 in H.
  destruct (binder_free_proc env qs proc) as [[[r1 qs1] log1]| | |] eqn:E; try discriminate.
  injection H as <- <- <-. split; [reflexivity|].
  unfold binder_free_proc in E. unfold mbind, run_bind in E.
  destruct (free_msg_queue free_queued_msg qs (pr_queue proc)) as [qa| | |]; try discriminate E.
  destruct (free_threads qa (pr_thread_tree proc)) as [qb| | |]; try discriminate E.
  destruct (free_objs_no_memory env _ Hk _ _ _ _ _ _ _ E) as (_ & Hlog & Hr & Hall).
  destruct Hr as [->| ->].
  - destruct (Hn (Hall eq_refl o Hin Hown)).
  - split; [reflexivity|exact (Hlog eq_refl)].
Qed.

(** ** The context manager over the life of the device *)

Lemma write_transaction_send_mgr (bh : binder_h) (fuel : nat) (env : environ) (s s' : state)
    (tdata : bcmd_transaction_data) (bcmd : cmd_t) (obj : binder_obj) (q0 r : Z)
    (msg : bcmd_msg) :
  write_transaction_send bh fuel env s tdata bcmd obj q0 msg = Ret (r, s') ->
  context_mgr_obj s' = context_mgr_obj s.
Proof.
  intros H. unfold write_transaction_send, failed in H.
  unfold mbind at 1, run_bind at 1 in H.
  match type of H with
  | context [match ?c with Ret _ => _ | Oops => _ | Spin => _ | Sleep => _ end] =>
      assert (forall l s1 m1, c = Ret (l, s1, m1) -> context_mgr_obj s1 = context_mgr_obj s)
        as Hload;
      [|destruct c as [[[l s1] m1]| | |]; try discriminate H]
  end.
  { intros l s1 m1 E. destruct (td_data_size tdata >? 0).
    - unfold mbind, run_bind in E.
      destruct (bcmd_write_msg_buf bh fuel env (proc s) (msg_buf msg) tdata)
        as [[[r0 p0] b0]| | |]; try discriminate E.
      injection E as <- <- <-. reflexivity.
    - injection E as <- <- <-. reflexivity. }
  rewrite <- (Hload _ _ _ eq_refl). clear Hload.
  destruct (negb l); simpl in H; [injection H as <- <-; reflexivity|].
  destruct (bcmd_write_msg (queues s1) q0 m1) as [r1 qs1].
  destruct (r1 <? 0); simpl in H; [injection H as <- <-; reflexivity|].
  destruct (binder_alloc_msg env 0 0) as [ack|].
  2: { injection H as <- <-. destruct (_ && _); reflexivity. }
  match type of H with
  | context [_bcmd_write_msg ?a ?b ?c] => destruct (_bcmd_write_msg a b c) as [r2 qs2]
  end.
  destruct (r2 <? 0); injection H as <- <-; destruct (_ && _); reflexivity.
Qed.

Lemma write_transaction_mgr (bh : binder_h) (fuel : nat) (env : environ) (s s' : state)
    (tdata : bcmd_transaction_data) (bcmd : cmd_t) (r : Z) :
  bcmd_write_transaction bh fuel env s tdata bcmd = Ret (r, s') ->
  context_mgr_obj s' = context_mgr_obj s.
Proof.
  intros H. unfold bcmd_write_transaction, failed in H.
  destruct (decide (bcmd = BC_TRANSACTION)).
  - destruct (if td_target tdata =? NULL then context_mgr_obj s
              else binder_find_obj (proc s) (td_target tdata)) as [obj|];
      [|injection H as <- <-; reflexivity].
    destruct (binder_alloc_msg env _ _); [|injection H as <- <-; reflexivity].
    exact (write_transaction_send_mgr _ _ _ _ _ _ _ _ _ _ _ H).
  - destruct (th_incoming_transactions (thread s)); [injection H as <- <-; reflexivity|].
    destruct (binder_realloc_msg env _ _ _); [discriminate|].
    injection H as <- <-. reflexivity.
Qed.

Lemma write_notifier_mgr (env : environ) (s s' : state) (notifier : bcmd_notifier_data)
    (bcmd : cmd_t) (r : Z) :
  bcmd_write_notifier env s notifier bcmd = Ret (r, s') ->
  context_mgr_obj s' = context_mgr_obj s.
Proof.
  intros H. unfold bcmd_write_notifier, failed in H.
  destruct (binder_find_obj _ _); [|injection H as <- <-; reflexivity].
  destruct (binder_alloc_msg env 0 0); [|injection H as <- <-; reflexivity].
  match type of H with
  | context [bcmd_write_msg ?a ?b ?c] => destruct (bcmd_write_msg a b c) as [r1 qs]
  end.
  destruct (r1 <? 0); injection H as <- <-; reflexivity.
Qed.

Lemma write_looper_mgr (bh : binder_h) (s s' : state) (bcmd : cmd_t) (r : Z) :
  bcmd_write_looper bh s bcmd = Ret (r, s') ->
  context_mgr_obj s' = context_mgr_obj s.
Proof.
  intros H. unfold bcmd_write_looper in H.
  destruct bcmd; simpl in H;
    repeat match type of H with
           | context [if ?c then _ else _] => destruct c; simpl in H
           end;
    injection H as <- <-; reflexivity.
Qed.

Lemma write_one_mgr (bh : binder_h) (fuel : nat) (env : environ) (s s' : state)
    (p ep : Z) (x : Z * Z + Z) :
  write_one bh fuel env s p ep = Ret (x, s') ->
  context_mgr_obj s' = context_mgr_obj s.
Proof.
  intros H. destruct x as [[p' e]|e].
  2: { apply write_one_error in H as [_ ->]. reflexivity. }
  unfold write_one in H.
  destruct (u_cmd env p) as [c|]; [|discriminate].
  destruct c; try discriminate H.
  1, 2: destruct (_ >? ep); [discriminate|];
        destruct (u_tdata env _); [|discriminate];
        destruct (_ && _); [discriminate|]; unfold mbind, run_bind in H;
        destruct (bcmd_write_transaction _ _ _ _ _ _) as [[r1 s1]| | |] eqn:E;
        try discriminate; injection H as _ _ <-;
        exact (write_transaction_mgr _ _ _ _ _ _ _ _ E).
  1, 2: destruct (_ >? ep); [discriminate|];
        destruct (u_notifier env _); [|discriminate]; unfold mbind, run_bind in H;
        destruct (bcmd_write_notifier _ _ _ _) as [[r1 s1]| | |] eqn:E;
        try discriminate; injection H as _ _ <-;
        exact (write_notifier_mgr _ _ _ _ _ _ E).
  all: unfold mbind, run_bind in H;
       destruct (bcmd_write_looper _ _ _) as [[r1 s1]| | |] eqn:E; try discriminate;
       injection H as _ _ <-; exact (write_looper_mgr _ _ _ _ _ E).
Qed.

Lemma write_loop_mgr (bh : binder_h) (fuel : nat) (env : environ) (buf ep : Z) (n : nat) :
  forall (s s' : state) (p err r : Z),
  write_loop bh fuel n env s buf p ep err = Ret (r, s') ->
  context_mgr_obj s' = context_mgr_obj s.
Proof.
  induction n as [|n IH]; intros s s' p err r H; simpl in H.
  - destruct (negb _); [injection H as _ <-; reflexivity|discriminate].
  - destruct (negb _); [injection H as _ <-; reflexivity|].
    unfold mbind at 1, run_bind at 1 in H.
    destruct (write_one bh fuel env s p ep) as [[x s1]| | |] eqn:E; try discriminate H.
    apply write_one_mgr in E. rewrite <- E.
    destruct x as [[p' e]|e]; [exact (IH _ _ _ _ _ H)|injection H as _ <-; reflexivity].
Qed.

Lemma read_dispatch_mgr (bh : binder_h) (fuel : nat) (env : environ) (s s' : state)
    (msg : bcmd_msg) (p size : Z) (x : Z * option bcmd_msg + Z) :
  read_dispatch bh fuel env s msg p size = Ret (x, s') ->
  context_mgr_obj s' = context_mgr_obj s.
Proof.
  intros H. unfold read_dispatch in H.
  destruct (msg_type msg); simpl in H; try (injection H as _ <-; reflexivity).
  1, 2: destruct (bcmd_read_transaction bh fuel env s msg p size) as [[[n pm] s0]| | |] eqn:E;
        simpl in H; try discriminate; injection H as _ <-;
        unfold bcmd_read_transaction in E; split_run E;
        injection E as _ _ <-; reflexivity.
  1, 2: destruct (bcmd_read_notifier env s msg p size) as [[[n pm] s0]| | |] eqn:E;
        simpl in H; try discriminate; injection H as _ <-;
        unfold bcmd_read_notifier in E; split_run E;
        injection E as _ _ <-; reflexivity.
  destruct (bcmd_read_dead_binder env s msg p size) as [[[n pm] s0]| | |] eqn:E;
    simpl in H; try discriminate; injection H as _ <-;
    unfold bcmd_read_dead_binder in E; split_run E;
    injection E as _ _ <-; reflexivity.
Qed.

Lemma read_round_mgr (bh : binder_h) (fuel : nat) (env : environ) (s : state)
    (buf p size : Z) (x : round_result) :
  read_round bh fuel env s buf p size = Ret x ->
  context_mgr_obj (round_state x) = context_mgr_obj s.
Proof.
  intros H. unfold read_round in H.
  destruct (read_next s) as [[[r msg] qs]| | |]; simpl in H; try discriminate.
  destruct (r <? 0); [injection H as <-; reflexivity|].
  destruct msg as [msg|]; [|discriminate].
  destruct (read_dispatch bh fuel env (set_queues qs s) msg p size) as [[y s0]| | |] eqn:E;
    simpl in H; try discriminate.
  apply read_dispatch_mgr in E. simpl in E.
  destruct y as [[n pmsg]|e]; [|injection H as <-; exact E].
  split_run H; injection H as <-; exact E.
Qed.

Lemma read_loop_mgr (bh : binder_h) (fuel : nat) (env : environ) (buf : Z) (n : nat) :
  forall (s : state) (p size r : Z) (s' : state),
  read_loop bh fuel n env s buf p size = Ret (r, s') ->
  context_mgr_obj s' = context_mgr_obj s.
Proof.
  induction n as [|n IH]; intros s p size r s' H; simpl in H.
  - destruct (negb _); [injection H as _ <-; reflexivity|discriminate].
  - destruct (negb _); [injection H as _ <-; reflexivity|].
    destruct (read_round bh fuel env s buf p size) as [x| | |] eqn:E; simpl in H;
      try discriminate.
    apply read_round_mgr in E.
    destruct x as [s1 p1 size1|r1 s1]; simpl in E.
    + rewrite <- E. exact (IH _ _ _ _ _ H).
    + injection H as _ <-. exact E.
Qed.

Lemma thread_read_mgr (bh : binder_h) (fuel : nat) (env : environ) (s s' : state)
    (buf size r : Z) :
  binder_thread_read bh fuel env s buf size = Ret (r, s') ->
  context_mgr_obj s' = context_mgr_obj s.
Proof.
  intros H. unfold binder_thread_read in H.
  assert (context_mgr_obj (snd (bcmd_spawn_on_busy env s buf size)) = context_mgr_obj s) as Hs.
  { unfold bcmd_spawn_on_busy, put_user.
    repeat match goal with
           | |- context [if ?c then _ else _] => destruct c
           end; reflexivity. }
  destruct (bcmd_spawn_on_busy env s buf size) as [n s0]. simpl in Hs. rewrite <- Hs.
  destruct (n >? 0); [exact (read_loop_mgr _ _ _ _ _ _ _ _ _ _ H)|].
  destruct (n <? 0); [injection H as _ <-; reflexivity|].
  exact (read_loop_mgr _ _ _ _ _ _ _ _ _ _ H).
Qed.

Lemma cmd_write_read_mgr (bh : binder_h) (fuel : nat) (env : environ) (s s' : state)
    (bwr bwr' : binder_write_read) (r : Z) :
  cmd_write_read bh fuel env s bwr = Ret (r, s', bwr') ->
  context_mgr_obj s' = context_mgr_obj s.
Proof.
  intros H. unfold cmd_write_read in H. unfold mbind at 1, run_bind at 1 in H.
  match type of H with
  | context [match ?c with Ret _ => _ | Oops => _ | Spin => _ | Sleep => _ end] =>
      assert (forall r1 s1 b1, c = Ret (r1, s1, b1) -> context_mgr_obj s1 = context_mgr_obj s)
        as Hw;
      [|destruct c as [[[r1 s1] b1]| | |]; try discriminate H]
  end.
  { intros r1 s1 b1 E. destruct (write_size bwr >? 0); [|injection E as _ <- _; reflexivity].
    unfold mbind, run_bind in E.
    destruct (binder_thread_write bh fuel env s _ _) as [[r0 s0]| | |] eqn:Ew;
      try discriminate E.
    apply write_loop_mgr in Ew.
    destruct (r0 <? 0); injection E as _ <- _; exact Ew. }
  rewrite <- (Hw _ _ _ eq_refl). clear Hw.
  destruct (r1 <? 0); [injection H as _ <- _; reflexivity|].
  destruct (read_size b1 >? 0); [|injection H as _ <- _; reflexivity].
  unfold mbind, run_bind in H.
  destruct (binder_thread_read bh fuel env s1 _ _) as [[r2 s2]| | |] eqn:Er;
    try discriminate H.
  apply thread_read_mgr in Er.
  destruct (r2 <? 0); injection H as _ <- _; exact Er.
Qed.

(** X30.  No context manager is ever registered: [context_mgr_obj] starts
    as NULL, BINDER_SET_CONTEXT_MGR refuses with -EBUSY exactly then, and no
    other command stores to it; so after any ioctl that returns it is NULL
    still, and a transaction to the handle zero fails with BR_FAILED_REPLY
    and nothing queued. *)
Theorem context_mgr_never_registered (bh : binder_h) (fuel : nat) (k : kernel)
    (env : environ) (d d' : device) (filp filp' : file) (cmd : ioctl_cmd) (size arg r : Z)
    (o : ioctl_out) :
  dev_context_mgr_obj d = None ->
  binder_ioctl bh fuel k env d filp cmd size arg = Ret (r, o, d', filp') ->
  dev_context_mgr_obj d' = None
  /\ (cmd = BINDER_SET_CONTEXT_MGR -> r = - EBUSY \/ r = - ENOMEM)
  /\ (forall p t tdata,
        td_target tdata = NULL ->
        bcmd_write_transaction bh fuel env (state_in d' p t) tdata BC_TRANSACTION
        = failed BR_FAILED_REPLY (state_in d' p t)).
Proof.
  intros Hd H.
  assert (dev_context_mgr_obj d' = None
          /\ (cmd = BINDER_SET_CONTEXT_MGR -> r = - EBUSY \/ r = - ENOMEM)) as [Hd' Hr].
  { unfold binder_ioctl in H.
    destruct (private_data filp) as [proc|]; [|discriminate].
    destruct (binder_get_thread k env (dev_queues d) proc filp) as [[[t|] proc1] qs1].
    2: { injection H as <- _ <- _. split; [exact Hd|]. auto. }
    destruct cmd.
    - split; [|discriminate].
      destruct (negb (size =? sizeof_write_read k)); [injection H as _ _ <- _; exact Hd|].
      destruct (u_bwr k arg) as [bwr|]; [|injection H as _ _ <- _; exact Hd].
      unfold mbind, run_bind in H.
      destruct (cmd_write_read bh fuel env _ bwr) as [[[r1 s1] bwr1]| | |] eqn:E;
        try discriminate.
      apply cmd_write_read_mgr in E. simpl in E. rewrite Hd in E.
      destruct (r1 <? 0); [injection H as _ _ <- _; exact E|].
      destruct (negb (u_put env arg)); injection H as _ _ <- _; exact E.
    - injection H as _ _ <- _. split; [exact Hd|discriminate].
    - split; [|discriminate].
      destruct (negb (size =? sizeof_int)); [injection H as _ _ <- _; exact Hd|].
      destruct (u_int k arg); injection H as _ _ <- _; exact Hd.
    - split; [|discriminate].
      destruct (negb (u_put env arg)); injection H as _ _ <- _; exact Hd.
    - unfold cmd_set_context_mgr in H. simpl in H. rewrite Hd in H.
      injection H as <- _ <- _. split; [exact Hd|]. auto.
    - injection H as _ _ <- _. split; [exact Hd|discriminate]. }
  split; [exact Hd'|]. split; [exact Hr|].
  intros p t tdata Ht. unfold bcmd_write_transaction.
  destruct (decide (BC_TRANSACTION = BC_TRANSACTION)) as [_|Hx]; [|contradiction].
  rewrite Ht. simpl. rewrite Hd'. reflexivity.
Qed.

(** ** The further properties at work *)

Lemma find_obj_sound_witness : obj_id objA1 = OBJ_ID_INIT qA 161.
Proof.
  apply (find_obj_sound procA_owner qA 161 objA1); reflexivity.
Defined.

Lemma new_obj_twice_witness :
  exists p1 x,
    _binder_new_obj env_rotating procA_two qA 161 = (p1, Some x)
    /\ _binder_new_obj env_rotating p1 qA 161 = (p1, Some x)
    /\ _binder_find_obj p1 qA 161 = Some x.
Proof.
  do 2 eexists. split; [vm_compute; reflexivity|].
  apply (new_obj_twice env_rotating procA_two);
    [reflexivity|exact rotate_left_spine_kept|vm_compute; reflexivity].
Defined.

Lemma write_flat_obj_no_memory_witness :
  bcmd_write_flat_obj env_no_memory procA flatA1 = Oops.
Proof.
  apply (write_flat_obj_no_memory env_no_memory procA flatA1); reflexivity.
Defined.

Lemma read_transaction_with_offsets_witness :
  exists n pmsg s',
    bcmd_read_transaction bh0 1 env0 fresh with_descriptor 0 200 = Ret (n, pmsg, s')
    /\ n < 0 /\ pmsg <> None /\ user_out s' = user_out fresh.
Proof.
  do 3 eexists. split; [vm_compute; reflexivity|].
  eapply (read_transaction_with_offsets bh0 1 env0 fresh _ with_descriptor 0 200);
    [vm_compute; discriminate|reflexivity|reflexivity|vm_compute; reflexivity].
Defined.

Lemma enter_then_exit_looper_witness :
  exists s1 s2,
    bcmd_write_looper bh0 fresh BC_ENTER_LOOPER = Ret (0, s1)
    /\ pr_num_loopers (proc s1) = pr_num_loopers (proc fresh) + 1
    /\ bcmd_write_looper bh0 s1 BC_EXIT_LOOPER = Ret (0, s2)
    /\ pr_num_loopers (proc s2) = pr_num_loopers (proc fresh)
    /\ pr_pending_loopers (proc s2) = pr_pending_loopers (proc fresh)
    /\ th_last_error (thread s2) = th_last_error (thread fresh).
Proof.
  apply (enter_then_exit_looper bh0 fresh). reflexivity.
Defined.

Lemma write_looper_frame_witness :
  exists s',
    bcmd_write_looper bh0 fresh BC_EXIT_LOOPER = Ret (-1, s')
    /\ queues s' = queues fresh
    /\ pr_max_threads (proc s') = pr_max_threads (proc fresh)
    /\ pr_obj_tree (proc s') = pr_obj_tree (proc fresh)
    /\ (-1 = 0 \/ (-1 = -1
                  /\ pr_num_loopers (proc s') = pr_num_loopers (proc fresh)
                  /\ pr_pending_loopers (proc s') = pr_pending_loopers (proc fresh)
                  /\ th_state (thread s') = th_state (thread fresh)
                  /\ th_last_error (thread s') = Some BR_FAILED_REPLY)).
Proof.
  eexists. split; [vm_compute; reflexivity|].
  eapply (write_looper_frame bh0 fresh _ BC_EXIT_LOOPER (-1)). vm_compute. reflexivity.
Defined.

Lemma notifier_request_stays_home_witness :
  exists s',
    bcmd_write_notifier env0 ownerA_beside_B watchA1 BC_REQUEST_DEATH_NOTIFICATION = Ret (0, s')
    /\ queues s' !! qB = queues ownerA_beside_B !! qB.
Proof.
  eexists. split; [vm_compute; reflexivity|].
  eapply (notifier_request_stays_home env0 ownerA_beside_B _ watchA1
           BC_REQUEST_DEATH_NOTIFICATION 0);
    [reflexivity|reflexivity|reflexivity|vm_compute; reflexivity|discriminate].
Defined.

Lemma transaction_by_handle_stays_home_witness :
  exists s',
    bcmd_write_transaction bh0 0 env0 ownerA_beside_B ping_empty BC_TRANSACTION = Ret (0, s')
    /\ queues s' !! qB = queues ownerA_beside_B !! qB.
Proof.
  eexists. split; [vm_compute; reflexivity|].
  eapply (transaction_by_handle_stays_home bh0 0 env0 ownerA_beside_B _ ping_empty 0);
    [reflexivity|reflexivity|reflexivity|discriminate|vm_compute; reflexivity
    |discriminate|discriminate].
Defined.

Lemma thread_write_result_witness :
  exists r s',
    binder_thread_write bh0 0 env_two_cmds fresh 0 8 = Ret (r, s')
    /\ (r = - EFAULT \/ r = - EINVAL \/ (0 <= r <= 8 /\ 8 - 4 <= r)).
Proof.
  do 2 eexists. split; [vm_compute; reflexivity|].
  eapply (thread_write_result bh0 0 env_two_cmds fresh _ 0 8);
    [lia|lia|lia|reflexivity|vm_compute; reflexivity].
Defined.

Lemma teardown_no_memory_witness :
  exists qs' log,
    binder_free_proc env_no_memory three_queues procA_owner = Ret (- ENOMEM, qs', log)
    /\ forallb (fun e => negb (is_ev_write e)) log = true
    /\ drain_queues three_queues procA_owner = Ret qs'.
Proof.
  do 2 eexists. split; [vm_compute; reflexivity|].
  destruct (teardown_no_memory env_no_memory three_queues _ procA_owner (- ENOMEM) _
              eq_refl ltac:(vm_compute; reflexivity)) as (H1 & H2 & _).
  split; [exact H1|exact H2].
Defined.

Lemma teardown_one_way_pending_witness :
  binder_free_proc env0 (<[qA := open_queue [one_way_msg]]> ∅) procA = Oops.
Proof.
  apply (teardown_one_way_pending bh0 env0 env0 ownerA ping_one_way (obj_id objA1)
           (blank_msg (blank_buf 0 0 0)) _ procA (open_queue [one_way_msg]));
    [reflexivity|vm_compute; reflexivity|left; reflexivity].
Defined.

Lemma death_message_refused_witness :
  exists s',
    read_round bh0 0 env0 notified_by_teardown 0 0 64 = Ret (round_return (- EFAULT) s')
    /\ user_out s' = [].
Proof.
  eexists. split.
  - apply (death_message_refused bh0 0 env0 notified_by_teardown 0 0 64
             (open_queue [death_msg objA1 watcherB]) (blank_msg (blank_buf 0 0 0))
             objA1 watcherB []);
      vm_compute; reflexivity.
  - reflexivity.
Defined.

Lemma notifier_request_then_clear_witness :
  exists s1 s2,
    bcmd_read_notifier env0 ownerA (request_of BC_REQUEST_DEATH_NOTIFICATION) 0 64
    = Ret (0, None, s1)
    /\ bcmd_read_notifier env0 s1 (request_of BC_CLEAR_DEATH_NOTIFICATION) 0 64
       = Ret (sizeof_cmd, None, s2)
    /\ proc s2 = proc ownerA.
Proof.
  destruct (notifier_request_then_clear env0 ownerA
              (request_of BC_REQUEST_DEATH_NOTIFICATION)
              (request_of BC_CLEAR_DEATH_NOTIFICATION) 0 64 objA1)
    as (s1 & s2 & H1 & _ & _ & H2 & _ & H3);
    try reflexivity; [unfold sizeof_cmd; lia|].
  exists s1, s2. auto.
Defined.

Lemma thread_read_in_bounds_witness :
  exists r s',
    binder_thread_read bh0 0 env0 ownerA_notified 0 4 = Ret (r, s')
    /\ (exists new, user_out s' = user_out ownerA_notified ++ new
                    /\ Forall (stored_within bh0 0 (0 + 4)) new)
    /\ (r < 0 \/ 0 <= r <= 4).
Proof.
  do 2 eexists. split; [vm_compute; reflexivity|].
  eapply (thread_read_in_bounds bh0 0 env0 ownerA_notified _ 0 4);
    [lia|lia|lia|reflexivity| |vm_compute; reflexivity].
  apply payloads_sized_insert; [apply payloads_sized_insert|].
  - intros q mq m Hq. rewrite lookup_empty in Hq. discriminate.
  - simpl. intros m [<-|[]]. vm_compute. split; discriminate.
  - simpl. intros m [].
Defined.

Lemma open_then_release_witness :
  exists filp',
    binder_open k0 env0 ∅ file0 = (0, filp', <[qA := create_msg_queue false]> ∅)
    /\ binder_open k0 env0 (<[qA := create_msg_queue false]> ∅) filp'
       = (- EBUSY, filp', <[qA := create_msg_queue false]> ∅)
    /\ binder_release env0 (<[qA := create_msg_queue false]> ∅) filp'
       = Ret (0, <[qA := freed_queue false]> ∅, []).
Proof.
  destruct (open_then_release k0 env0 env0 ∅ file0)
    as (filp' & proc & H1 & _ & _ & _ & _ & H2 & H3);
    [reflexivity|reflexivity|discriminate|].
  exists filp'. split; [exact H1|]. split; [exact (H2 _)|exact H3].
Defined.

Lemma get_thread_once_witness :
  exists t proc' qs',
    binder_get_thread k0 env0 (dev_queues devA) procA fileA = (Some t, proc', qs')
    /\ th_pid t = 101
    /\ pr_thread_tree proc' = [t]
    /\ binder_get_thread k0 env_no_memory qs' proc' fileA = (Some t, proc', qs').
Proof.
  do 3 eexists. split; [vm_compute; reflexivity|].
  destruct (get_thread_once k0 env0 env_no_memory (dev_queues devA) _ procA _ fileA fileA _
              eq_refl ltac:(vm_compute; reflexivity)) as (H1 & _ & _ & H2 & _).
  split; [exact H1|]. split; [reflexivity|exact H2].
Defined.

Lemma ioctl_registers_thread_witness :
  binder_ioctl bh0 0 k0 env_no_memory devA fileA BINDER_VERSION 0 0
  = Ret (- ENOMEM, out_none, devA, fileA).
Proof.
  apply (ioctl_registers_thread bh0 0 k0 env_no_memory devA fileA procA BINDER_VERSION 0 0 0);
    reflexivity.
Defined.

Lemma ioctl_write_read_falls_through_witness :
  exists o d' filp',
    binder_ioctl bh0 0 k0 env0 devA fileA BINDER_WRITE_READ 48 8192 = Ret (77, o, d', filp')
    /\ (77 < 0 \/ (77 = thread_exit_value k0 /\ exists bwr, o = out_bwr 8192 bwr)).
Proof.
  do 3 eexists. split; [vm_compute; reflexivity|].
  eapply (ioctl_write_read_falls_through bh0 0 k0 env0 devA _ fileA _ 48 8192 77).
  vm_compute. reflexivity.
Defined.

Lemma release_hides_no_memory_witness :
  exists qs' log,
    binder_release env_no_memory three_queues file_owner = Ret (0, qs', log)
    /\ binder_free_proc env_no_memory three_queues procA_owner = Ret (- ENOMEM, qs', log)
    /\ forallb (fun e => negb (is_ev_write e)) log = true.
Proof.
  do 2 eexists. split; [vm_compute; reflexivity|].
  destruct (release_hides_no_memory env_no_memory three_queues _ file_owner procA_owner
              objA1 0 _ eq_refl eq_refl ltac:(left; reflexivity) eq_refl
              ltac:(discriminate) ltac:(vm_compute; reflexivity)) as (_ & H1 & H2).
  split; [exact H1|exact H2].
Defined.

Lemma context_mgr_never_registered_witness :
  exists d' filp',
    binder_ioctl bh0 0 k0 env0 devA fileA BINDER_SET_CONTEXT_MGR 0 0
    = Ret (- EBUSY, out_none, d', filp')
    /\ dev_context_mgr_obj d' = None.
Proof.
  do 2 eexists. split; [vm_compute; reflexivity|].
  eapply (context_mgr_never_registered bh0 0 k0 env0 devA _ fileA _ BINDER_SET_CONTEXT_MGR
           0 0 (- EBUSY) out_none); [reflexivity|vm_compute; reflexivity].
Defined.
